(** * solc-transpiler: the Solc-compatible [compile] entry point

A shallow embedding of [packages/solc-transpiler/src/compiler.ts].

The TypeScript works on values of type [any] obtained from
[JSON.parse]; they are embedded as the inductive type [json], an
object being the list of its own enumerable properties in the order
[Object.entries] enumerates them.  [undefined] is [None] in
[option json].  A thrown exception is the outcome [Threw]; calls
that leave the module ([solc.compile] and the two methods of the
[Transpiler] interface) are recorded in a trace of events.  Logger
calls have no influence on any result and are left out. *)

From Stdlib Require Import String Ascii List Bool Arith ZArith NArith Lia.
From Stdlib.Strings Require Import Byte.
From Stdlib Require Import DecimalString DecimalNat DecimalPos DecimalFacts.
Import ListNotations.
Open Scope string_scope.

Set Implicit Arguments.
Set Warnings "-register-all".

(* ================================================================== *)
(** ** JSON values and the fragment of JavaScript the module relies on *)
(* ================================================================== *)

Module JS.

Inductive json : Type :=
| JNull
| JBool (b : bool)
| JNum (n : Z)
| JStr (s : string)
| JArr (l : list json)
| JObj (o : list (string * json)).

(** A JavaScript value of this program: a JSON value or [undefined]. *)
Definition jsval := option json.
Definition undefined : jsval := None.

Inductive exn := TypeError | SyntaxError.

(** How an evaluation ends.  [Host] marks an evaluation that went on
    with a member inherited from a host prototype (a built-in
    function for instance), which is not a JSON value. *)
Inductive outcome (A : Type) : Type :=
| Returned (a : A)
| Threw (e : exn)
| Host.
Arguments Threw {A} e.
Arguments Host {A}.

Definition obind {A B} (m : outcome A) (k : A -> outcome B) : outcome B :=
  match m with
  | Returned a => k a
  | Threw e => Threw e
  | Host => Host
  end.

(** [ToBoolean]. *)
Definition truthy (v : jsval) : bool :=
  match v with
  | None | Some JNull => false
  | Some (JBool b) => b
  | Some (JNum n) => negb (Z.eqb n 0)
  | Some (JStr s) => negb (String.eqb s "")
  | Some (JArr _) | Some (JObj _) => true
  end.

(** [a || b]. *)
Definition js_or (a b : jsval) : jsval := if truthy a then a else b.

(** [typeof v === 'object'] (which holds of [null]). *)
Definition typeof_object (v : jsval) : bool :=
  match v with
  | Some JNull | Some (JArr _) | Some (JObj _) => true
  | _ => false
  end.

Definition isArray (v : jsval) : bool :=
  match v with Some (JArr _) => true | _ => false end.

(** Decimal numeral of an array index. *)
Definition dec (n : nat) : string := NilEmpty.string_of_uint (Nat.to_uint n).

(** Own property lookup in an object: the first binding of the key. *)
Fixpoint assoc (k : string) (o : list (string * json)) : option json :=
  match o with
  | [] => None
  | (k', v) :: r => if String.eqb k k' then Some v else assoc k r
  end.

(** Element of an array under the property name [k], the elements
    being named [dec i], [dec (i+1)], ... *)
Fixpoint elem_from (i : nat) (k : string) (l : list json) : option json :=
  match l with
  | [] => None
  | x :: r => if String.eqb k (dec i) then Some x else elem_from (S i) k r
  end.

(** The characters of a string as one-character strings. *)
Fixpoint chars (s : string) : list json :=
  match s with
  | EmptyString => []
  | String c r => JStr (String c EmptyString) :: chars r
  end.

(** Own property of a value that is neither [null] nor [undefined].
    ["length"] of arrays and strings is an own property as well. *)
Definition own (k : string) (v : json) : option json :=
  match v with
  | JObj o => assoc k o
  | JArr l =>
      if String.eqb k "length" then Some (JNum (Z.of_nat (List.length l)))
      else elem_from 0 k l
  | JStr s =>
      if String.eqb k "length" then Some (JNum (Z.of_nat (String.length s)))
      else elem_from 0 k (chars s)
  | _ => None
  end.

(** [v.k] for a name [k] written in the program text.  None of the
    names the module writes ([settings], [evm], [object], ...) is a
    member of a host prototype, so the own properties decide. *)
Definition get (k : string) (v : jsval) : outcome jsval :=
  match v with
  | None | Some JNull => Threw TypeError
  | Some j => Returned (own k j)
  end.

Definition defined (v : jsval) : bool :=
  match v with Some _ => true | None => false end.

(** [k in v] for a name written in the program text; a primitive
    value on the right of [in] is a [TypeError]. *)
Definition has (k : string) (v : jsval) : outcome bool :=
  match v with
  | Some (JObj _ as j) | Some (JArr _ as j) => Returned (defined (own k j))
  | _ => Threw TypeError
  end.

Section Dynamic.

(** [inherited v k]: the host's prototype chain of [v] has a member
    named [k] ([Object.prototype] for objects, [Array.prototype] and
    [Object.prototype] for arrays). *)
Variable inherited : json -> string -> bool.

(** [k in v] for a computed name. *)
Definition has_dyn (k : string) (v : jsval) : outcome bool :=
  match v with
  | Some (JObj _ as j) | Some (JArr _ as j) =>
      Returned (defined (own k j) || inherited j k)
  | _ => Threw TypeError
  end.

(** [v[k]] for a computed name. *)
Definition get_dyn (k : string) (v : jsval) : outcome jsval :=
  match v with
  | None | Some JNull => Threw TypeError
  | Some j =>
      match own k j with
      | Some x => Returned (Some x)
      | None =>
          match j with
          | JObj _ | JArr _ => if inherited j k then Host else Returned None
          | _ => Returned None
          end
      end
  end.

End Dynamic.

(** [Object.entries(v)]. *)
Fixpoint indexed (i : nat) (l : list json) : list (string * json) :=
  match l with
  | [] => []
  | x :: r => (dec i, x) :: indexed (S i) r
  end.

Definition entries (v : jsval) : outcome (list (string * json)) :=
  match v with
  | None | Some JNull => Threw TypeError
  | Some (JObj o) => Returned o
  | Some (JArr l) => Returned (indexed 0 l)
  | Some (JStr s) => Returned (indexed 0 (chars s))
  | Some (JBool _) | Some (JNum _) => Returned []
  end.

(** [Object.values(v)]. *)
Definition values (v : jsval) : outcome (list json) :=
  obind (entries v) (fun es => Returned (map snd es)).

(** Replace the first binding of [k], or add one at the end. *)
Fixpoint put (k : string) (x : json) (o : list (string * json))
  : list (string * json) :=
  match o with
  | [] => [(k, x)]
  | (k', v) :: r =>
      if String.eqb k k' then (k, x) :: r else (k', v) :: put k x r
  end.

(** [v.k = x] in strict mode, for the names [object] and [errors]
    the module assigns.  On an array such a name adds a property
    that [JSON.stringify] does not print and that the module never
    reads back: the array is left as it is. *)
Definition set (k : string) (x : json) (v : jsval) : outcome json :=
  match v with
  | Some (JObj o) => Returned (JObj (put k x o))
  | Some (JArr l) => Returned (JArr l)
  | _ => Threw TypeError
  end.

Definition remove (k : string) (o : list (string * json))
  : list (string * json) :=
  filter (fun kv => negb (String.eqb k (fst kv))) o.

(** [delete v.k] for the names [executionManagerAddress] and
    [legacyAssembly], neither of which names an array element. *)
Definition delete (k : string) (v : jsval) : outcome json :=
  match v with
  | None | Some JNull => Threw TypeError
  | Some (JObj o) => Returned (JObj (remove k o))
  | Some j => Returned j
  end.

(** Replace the array element named [k], if there is one. *)
Fixpoint put_elem (i : nat) (k : string) (x : json) (l : list json)
  : list json :=
  match l with
  | [] => []
  | y :: r =>
      if String.eqb k (dec i) then x :: r else y :: put_elem (S i) k x r
  end.

(** The value stored under [v.p1.p2...pn] replaced by the result of
    [f]: every property on the path is read as an own property (the
    names on these paths are either written in the program text or
    were enumerated from the object itself), and reading a property
    of [undefined] or [null] throws.  A change made below a
    primitive value is lost, as in JavaScript. *)
Fixpoint update (path : list string) (f : jsval -> outcome json)
    (v : jsval) {struct path} : outcome json :=
  match path with
  | [] => f v
  | k :: rest =>
      match v with
      | None | Some JNull => Threw TypeError
      | Some (JObj o) =>
          obind (update rest f (assoc k o))
                (fun x => Returned (JObj (put k x o)))
      | Some (JArr l) =>
          obind (update rest f (own k (JArr l)))
                (fun x => Returned (JArr (put_elem 0 k x l)))
      | Some j => obind (update rest f (own k j)) (fun _ => Returned j)
      end
  end.

(** [v.p1.p2...pn]. *)
Fixpoint path_get (path : list string) (v : jsval) : outcome jsval :=
  match path with
  | [] => Returned v
  | k :: rest => obind (get k v) (path_get rest)
  end.

End JS.

Import JS.

Notation "x <- m ;; k" := (obind m (fun x => k))
  (at level 61, m at next level, right associativity).

(* ================================================================== *)
(** ** Strings, buffers and the helpers of core-utils                  *)
(* ================================================================== *)

Definition bytes := list byte.

(** The part of [code] before the first occurrence of [sep]; all of
    [code] when [sep] does not occur in it. *)
Fixpoint before (sep code : string) : string :=
  match code with
  | EmptyString => EmptyString
  | String c r =>
      if String.prefix sep code then EmptyString else String c (before sep r)
  end.

(** [code.split(sep)[0]].  An empty separator splits between the
    characters, and the empty string then has no first piece. *)
Definition split0 (code sep : string) : jsval :=
  if String.eqb sep "" then
    match code with
    | EmptyString => None
    | String c _ => Some (JStr (String c EmptyString))
    end
  else Some (JStr (before sep code)).

Fixpoint join (sep : string) (l : list string) : string :=
  match l with
  | [] => ""
  | [x] => x
  | x :: r => x ++ sep ++ join sep r
  end.

(** [ToString], applied by [String.prototype.split] to a separator
    that is not a string. *)
Fixpoint ToString (j : json) : string :=
  match j with
  | JNull => "null"
  | JBool true => "true"
  | JBool false => "false"
  | JNum n => NilEmpty.string_of_int (Z.to_int n)
  | JStr s => s
  | JArr l =>
      join "," (map (fun x => match x with JNull => "" | _ => ToString x end) l)
  | JObj _ => "[object Object]"
  end.

Definition lower_ascii (c : ascii) : ascii :=
  let n := nat_of_ascii c in
  if ((65 <=? n)%nat && (n <=? 90)%nat)%bool then ascii_of_nat (n + 32) else c.

(** [toLowerCase], on the ASCII letters. *)
Fixpoint toLowerCase (s : string) : string :=
  match s with
  | EmptyString => EmptyString
  | String c r => String (lower_ascii c) (toLowerCase r)
  end.

Definition hex_digit (n : N) : ascii :=
  match n with
  | 0 => "0" | 1 => "1" | 2 => "2" | 3 => "3" | 4 => "4" | 5 => "5"
  | 6 => "6" | 7 => "7" | 8 => "8" | 9 => "9" | 10 => "a" | 11 => "b"
  | 12 => "c" | 13 => "d" | 14 => "e" | _ => "f"
  end%char%N.

(** Two lower-case hexadecimal digits per byte. *)
Fixpoint hex (b : bytes) : string :=
  match b with
  | [] => EmptyString
  | x :: r =>
      let n := Byte.to_N x in
      String (hex_digit (n / 16)) (String (hex_digit (n mod 16)) (hex r))
  end.

Definition hex_char (c : ascii) : bool :=
  let n := nat_of_ascii c in
  (((48 <=? n)%nat && (n <=? 57)%nat)
   || ((97 <=? n)%nat && (n <=? 102)%nat)
   || ((65 <=? n)%nat && (n <=? 70)%nat))%bool.

Fixpoint all_hex (s : string) : bool :=
  match s with
  | EmptyString => true
  | String c r => (hex_char c && all_hex r)%bool
  end.

(** [s] between double quotes. *)
Definition quoted (s : string) : string :=
  String (ascii_of_nat 34) (s ++ String (ascii_of_nat 34) EmptyString).

(** Modelled from the spec: [bufToHexString] of core-utils is not among
    the sources.  The spec has bytecode travel as a hex string, handed
    back with "no leading prefix": the buffer is printed as its
    hexadecimal digits behind the prefix [0x]. *)
Definition bufToHexString (b : bytes) : string := "0x" ++ hex b.

(** Modelled from the spec: [remove0x] of core-utils is not among the
    sources.  It takes the leading prefix [0x] off a hex string that
    has one ("hex, no leading prefix"). *)
Definition remove0x (str : string) : string :=
  if String.prefix "0x" str then String.substring 2 (String.length str - 2) str
  else str.

(** [remove0x] calls a string method on its argument: any other value
    is a [TypeError]. *)
Definition remove0x_js (v : jsval) : outcome json :=
  match v with
  | Some (JStr s) => Returned (JStr (remove0x s))
  | _ => Threw TypeError
  end.

(* ================================================================== *)
(** ** The transpiler interface of rollup-dev-tools                    *)
(* ================================================================== *)

Record TranspilationError := { index : nat; message : string }.

Inductive TranspilationResult :=
| Successful (transpiled : bytes)
| Errored (errs : list TranspilationError).

Class Transpiler := {
  transpile : bytes -> bytes -> nat -> TranspilationResult;
  transpileRawBytecode : bytes -> TranspilationResult
}.

(** What [transpileContract] hands back: each field may be missing. *)
Record TranspilationOutput := {
  bytecode : jsval;
  deployedBytecode : jsval;
  errors : jsval
}.

(** Calls that leave the module. *)
Inductive event :=
| SolcCompile (input : string)
| Transpile (code deployed : bytes) (originalBytecodeSize : nat)
| TranspileRawBytecode (deployed : bytes).

(** Computations that call out and may throw: the calls made so far,
    and how the evaluation ended. *)
Definition M (A : Type) : Type := (list event * outcome A)%type.

Definition ret {A} (a : A) : M A := ([], Returned a).

Definition lift {A} (o : outcome A) : M A := ([], o).

Definition emit (e : event) : M unit := ([e], Returned tt).

Definition bind {A B} (m : M A) (k : A -> M B) : M B :=
  match m with
  | (t, Returned a) => let (t', r) := k a in ((t ++ t')%list, r)
  | (t, Threw e) => (t, Threw e)
  | (t, Host) => (t, Host)
  end.

Notation "x <~ m ;; k" := (bind m (fun x => k))
  (at level 61, m at next level, right associativity).

(** [for (const x of xs) { ... }] over a snapshot [xs], the body
    updating the state [s]. *)
Fixpoint forEach {X S} (xs : list X) (body : X -> S -> M S) (s : S) : M S :=
  match xs with
  | [] => ret s
  | x :: r => s' <~ body x s ;; forEach r body s'
  end.

Fixpoint oforEach {X S} (xs : list X) (body : X -> S -> outcome S) (s : S)
  : outcome S :=
  match xs with
  | [] => Returned s
  | x :: r => s' <- body x s ;; oforEach r body s'
  end.


(* ================================================================== *)
(** ** Stand-ins for the imported services, and sample data            *)
(* ================================================================== *)

Module Sample.

Definition hex_value (c : ascii) : option N :=
  let n := N_of_ascii c in
  if ((48 <=? n) && (n <=? 57))%N%bool then Some (n - 48)%N
  else if ((97 <=? n) && (n <=? 102))%N%bool then Some (n - 87)%N
  else if ((65 <=? n) && (n <=? 70))%N%bool then Some (n - 55)%N
  else None.

(** [Buffer.from(s, 'hex')]: whole pairs of digits, up to the first
    pair that is not hexadecimal. *)
Fixpoint decode (s : string) : bytes :=
  match s with
  | String a (String b r) =>
      match hex_value a, hex_value b with
      | Some x, Some y =>
          match Byte.of_N (16 * x + y) with
          | Some v => v :: decode r
          | None => []
          end
      | _, _ => []
      end
  | _ => []
  end.

Definition hexStrToBuf (s : string) : bytes := decode (remove0x s).

(** A printer of JSON values (strings are printed as they are). *)
Fixpoint stringify (j : json) : string :=
  match j with
  | JNull => "null"
  | JBool true => "true"
  | JBool false => "false"
  | JNum n => NilEmpty.string_of_int (Z.to_int n)
  | JStr s => quoted s
  | JArr l => "[" ++ join "," (map stringify l) ++ "]"
  | JObj o =>
      "{" ++ join "," (map (fun kv => quoted (fst kv) ++ ":" ++ stringify (snd kv)) o)
          ++ "}"
  end.

(** A parser that knows the values of [table] by their printed form. *)
Definition parse (table : list json) (s : string) : option json :=
  find (fun j => String.eqb (stringify j) s) table.

(** Forty hexadecimal digits behind [0x]. *)
Definition isValidHexAddress (j : json) : bool :=
  match j with
  | JStr (String "0" (String "x" digits)) =>
      (all_hex digits && (String.length digits =? 40)%nat)%bool
  | _ => false
  end.

(** No name is inherited but those of [Object.prototype]. *)
Definition inherited (j : json) (k : string) : bool :=
  existsb (String.eqb k)
    ["constructor"; "hasOwnProperty"; "isPrototypeOf"; "propertyIsEnumerable";
     "toLocaleString"; "toString"; "valueOf"; "__proto__"].

Definition has_byte (x : byte) (b : bytes) : bool :=
  existsb (Byte.eqb x) b.

(** The position of the first [x] in [b]. *)
Fixpoint position (x : byte) (b : bytes) : nat :=
  match b with
  | [] => 0
  | y :: r => if Byte.eqb x y then 0 else S (position x r)
  end.

(** A transpiler that lets every byte through but [0xff], which it
    reports, and leaves the code as it is.  Its [transpile] looks at
    the constructor bytecode only. *)
Definition check (b : bytes) : TranspilationResult :=
  if has_byte xff b
  then Errored [{| index := position xff b; message := "disallowed opcode" |}]
  else Successful b.

Definition picky : Transpiler :=
  {| transpile := fun code deployed size => check code;
     transpileRawBytecode := fun deployed => check deployed |}.

(** A transpiler whose [transpile] looks at both bytecodes, the
    constructor bytecode first. *)
Definition thorough : Transpiler :=
  {| transpile := fun code deployed size =>
       match check code with
       | Errored errs => Errored errs
       | Successful _ =>
           match check deployed with
           | Errored errs => Errored errs
           | Successful _ => Successful code
           end
       end;
     transpileRawBytecode := fun deployed => check deployed |}.

Definition address : string := "0x4200000000000000000000000000000000000000".

Definition selection (names : list string) : json :=
  JObj [("*", JObj [("*", JArr (map JStr names))])].

Definition config (names : list string) (extra : list (string * json)) : json :=
  JObj [("language", JStr "Solidity");
        ("settings",
         JObj ([("executionManagerAddress", JStr address);
                ("outputSelection", selection names)] ++ extra)%list)].

(** What solc emits for one contract. *)
Definition contract (code deployed auxdata : string) : json :=
  JObj [("evm",
         JObj [("bytecode", JObj [("object", JStr (code ++ auxdata))]);
               ("deployedBytecode", JObj [("object", JStr (deployed ++ auxdata))]);
               ("legacyAssembly",
                JObj [(".code", JArr []);
                      (".data",
                       JObj [("0", JObj [(".auxdata", JStr auxdata)])])])])].

Definition batch : json :=
  JObj [("contracts",
         JObj [("a.sol",
                JObj [("First", contract "6001" "60" "a165");
                      ("Second", contract "6002ff" "ff" "a165")]);
               ("b.sol",
                JObj [("Third", contract "6003" "60ff" "a165");
                      ("Fourth", contract "6004" "6004" "a165")])]);
        ("errors",
         JArr [JObj [("severity", JStr "warning"); ("message", JStr "unused")]])].

(** The configuration of the samples: it asks for the legacy assembly
    and for everything. *)
Definition input : json := config ["evm.legacyAssembly"; "*"] [].


(** A configuration that asks for the bytecode of one contract and
    for the [abi] of another. *)
Definition perContract : json :=
  JObj [("language", JStr "Solidity");
        ("settings",
         JObj [("executionManagerAddress", JStr address);
               ("outputSelection",
                JObj [("a.sol",
                       JObj [("First",
                              JArr [JStr "evm.bytecode.object";
                                    JStr "evm.deployedBytecode.object"]);
                             ("Second", JArr [JStr "abi"])])])])].

(** What solc makes of it: [Second] has no bytecode. *)
Definition partial : json :=
  JObj [("contracts",
         JObj [("a.sol",
                JObj [("First", contract "6002ff" "60" "a165");
                      ("Second",
                       JObj [("abi", JArr []);
                             ("evm", JObj [("legacyAssembly", JObj [])])])])])].

(** A solc that answers every input with [batch]. *)
Definition solc_compile (input : string) (callbacks : option unit) : string :=
  stringify batch.

Definition JSON_parse : string -> option json := parse [input; batch].

End Sample.
(* ================================================================== *)
(** ** compiler.ts                                                     *)
(* ================================================================== *)

(** unnamed/part_000 *)
Definition DEFAULT_OPCODE_WHITELIST_MASK : string :=
  "0x600a0000000000000000001fffffffffffffffff0fcf000063f000013fff0fff".

Section Compiler.

(** What the module imports and does not define. *)
Variable Callbacks : Type.
Variable solc_compile : string -> option Callbacks -> string.
Variable JSON_parse : string -> option json.
Variable JSON_stringify : json -> string.
Variable isValidHexAddress : json -> bool.
Variable hexStrToBuf : string -> bytes.
Variable inherited : json -> string -> bool.
Variables Whitelist Replacer : Type.
Variable OpcodeWhitelistImpl : Whitelist.
Variable OpcodeReplacerImpl : jsval -> Replacer.
Variable TranspilerImpl : Whitelist -> Replacer -> Transpiler.

(** [process.env.EXECUTION_MANAGER_ADDRESS] *)
Variable EXECUTION_MANAGER_ADDRESS : option string.

(** Modelled from the spec: [hexStrToBuf] of core-utils is not among
    the sources.  The spec has every bytecode travel as a hex string:
    the helper is taken to decode each string it is given, and to
    throw on a value that is not a string.  The calls of lines 349,
    361, 362 and 382 are outside any [try]. *)
Definition hexStrToBuf_js (v : jsval) : outcome bytes :=
  match v with
  | Some (JStr s) => Returned (hexStrToBuf s)
  | _ => Threw TypeError
  end.

Definition solc (input : string) (callbacks : option Callbacks) : M string :=
  _ <~ emit (SolcCompile input) ;; ret (solc_compile input callbacks).

Definition getExecutionManagerAddress (configObject : json) : outcome jsval :=
  settings <- get "settings" (Some configObject) ;;
  a <- get "executionManagerAddress" settings ;;
  Returned (js_or a (option_map JStr EXECUTION_MANAGER_ADDRESS)).

Definition getFormattedSolcErrorOutput (message : string) : string :=
  JSON_stringify
    (JObj [("errors",
            JArr [JObj [("component", JStr "general");
                        ("formattedMessage", JStr message);
                        ("message", JStr message);
                        ("severity", JStr "error");
                        ("type", JStr "JSONError")]])]).

Definition settings_message : string :=
  "Input must include " ++ quoted "settings"
    ++ " object in top-level object.".

Definition address_message : string :=
  "Input must include " ++ quoted "executionManagerAddress"
    ++ " field in the " ++ quoted "settings"
    ++ " object or there must be an " ++ quoted "EXECUTION_MANAGER_ADDRESS"
    ++ " environment variable, and it must be a valid Ethereum address as a hex string (case insensitive).".

Definition selection_message : string :=
  "Input must include a populated " ++ quoted "outputSelection"
    ++ " object in " ++ quoted "settings".

Definition form_message : string :=
  quoted "outputSelection" ++ " configuration in " ++ quoted "settings"
    ++ " must be of the form: { " ++ quoted "filename" ++ ": { "
    ++ quoted "contractName" ++ ": [] }, ... }".

(** The loop of [getInputErrors] over the entries of
    [outputSelection]. *)
Fixpoint checkFiles (outputSelection : jsval) (es : list (string * json))
  : outcome (option string) :=
  match es with
  | [] => Returned None
  | (filename, fileConfig) :: rest =>
      if negb (typeof_object (Some fileConfig)) || isArray (Some fileConfig)
      then Returned (Some (getFormattedSolcErrorOutput form_message))
      else
        fc <- get filename outputSelection ;;
        contractConfigs <- values fc ;;
        if forallb (fun c => isArray (Some c)) contractConfigs
        then checkFiles outputSelection rest
        else Returned (Some (getFormattedSolcErrorOutput form_message))
  end.

(** [None] stands for the [undefined] a valid input yields. *)
Definition getInputErrors (configObject : json) : outcome (option string) :=
  settings <- get "settings" (Some configObject) ;;
  if negb (truthy settings) || negb (typeof_object settings)
  then Returned (Some (getFormattedSolcErrorOutput settings_message))
  else
    executionManagerAddress <- getExecutionManagerAddress configObject ;;
    if negb (truthy executionManagerAddress)
       || negb (match executionManagerAddress with
                | Some a => isValidHexAddress a
                | None => false
                end)
    then Returned (Some (getFormattedSolcErrorOutput address_message))
    else
      outputSelection <- get "outputSelection" settings ;;
      if negb (truthy outputSelection) || negb (typeof_object outputSelection)
      then Returned (Some (getFormattedSolcErrorOutput selection_message))
      else
        es <- entries outputSelection ;;
        if (List.length es =? 0)%nat
        then Returned (Some (getFormattedSolcErrorOutput selection_message))
        else checkFiles outputSelection es.

(** [contractConfig.map((x) => x.toLowerCase())] *)
Fixpoint lowerAll (l : list json) : outcome (list json) :=
  match l with
  | [] => Returned []
  | JStr s :: r => r' <- lowerAll r ;; Returned (JStr (toLowerCase s) :: r')
  | _ :: _ => Threw TypeError
  end.

Definition push (items : list json) (v : jsval) : outcome json :=
  match v with
  | Some (JArr l) => Returned (JArr (l ++ items))
  | _ => Threw TypeError
  end.

(** The clone [JSON.parse(JSON.stringify(config))] is [config] itself,
    values being immutable here. *)
Definition getSolcConfig (config : json) : outcome string :=
  solcConfig <- update ["settings"] (delete "executionManagerAddress")
                       (Some config) ;;
  outputSelection <- path_get ["settings"; "outputSelection"]
                              (Some solcConfig) ;;
  files <- entries outputSelection ;;
  solcConfig <-
    oforEach files (fun '(filename, fileConfig) solcConfig =>
      contracts <- entries (Some fileConfig) ;;
      oforEach contracts (fun '(contractName, contractConfig) solcConfig =>
        lowerConfig <-
          match contractConfig with
          | JArr l => lowerAll l
          | _ => Threw TypeError
          end ;;
        l1 <- has "evm.legacyAssembly" (Some (JArr lowerConfig)) ;;
        if negb l1 then
          l2 <- has "*" (Some (JArr lowerConfig)) ;;
          if negb l2 then
            update ["settings"; "outputSelection"; filename; contractName]
                   (push [JStr "evm.legacyAssembly"]) (Some solcConfig)
          else Returned solcConfig
        else Returned solcConfig) solcConfig) solcConfig ;;
  Returned (JSON_stringify solcConfig).

(** The three constants of the loop body of [formatOutput]: the
    selection made for a contract by the input configuration. *)
Definition outputConfigFor (inputConfig : json) (filename contractName : string)
  : outcome jsval :=
  outputSelection <- path_get ["settings"; "outputSelection"]
                              (Some inputConfig) ;;
  inFile <- has_dyn inherited filename outputSelection ;;
  let filenameConfig := if inFile then filename else "*" in
  fileSelection <- get_dyn inherited filenameConfig outputSelection ;;
  inContract <- has_dyn inherited contractName fileSelection ;;
  let contractNameConfig := if inContract then contractName else "*" in
  get_dyn inherited contractNameConfig fileSelection.

(** The body of the loops of [formatOutput], for one contract. *)
Definition formatContract (inputConfig : json) (filename contractName : string)
    (transpiledOutput : json) : outcome json :=
  outputConfig <- outputConfigFor inputConfig filename contractName ;;
  l1 <- has "evm.legacyAssembly" outputConfig ;;
  if negb l1 then
    l2 <- has "*" outputConfig ;;
    if negb l2 then
      update ["contracts"; filename; contractName; "evm"]
             (delete "legacyAssembly") (Some transpiledOutput)
    else Returned transpiledOutput
  else Returned transpiledOutput.

Definition formatted (transpiledOutput inputConfig : json) : outcome json :=
  contracts <- get "contracts" (Some transpiledOutput) ;;
  files <- entries contracts ;;
  oforEach files (fun '(filename, fileObj) out =>
    cs <- entries (Some fileObj) ;;
    oforEach cs (fun '(contractName, _) out =>
      formatContract inputConfig filename contractName out) out)
    transpiledOutput.

Definition formatOutput (transpiledOutput inputConfig : json) : outcome string :=
  out <- formatted transpiledOutput inputConfig ;;
  Returned (JSON_stringify out).

Definition getSolcErrorsFromTranspilerErrors
    (transpilationErrors : list TranspilationError) (file contract : string)
    (isDeployedBytecode : bool) : list json :=
  map (fun x =>
         let message :=
           file ++ ":" ++ contract ++ " error [" ++ x.(message)
                ++ "] at index " ++ dec x.(index) ++ " of "
                ++ (if isDeployedBytecode then "deployed bytecode"
                    else "bytecode") in
         JObj [("component", JStr "general");
               ("formattedMessage", JStr message);
               ("message", JStr message);
               ("severity", JStr "error");
               ("type", JStr "CompilerError")])
      transpilationErrors.

(** [try { ... } catch (e) { return undefined }] *)
Definition orUndefined (m : outcome jsval) : outcome jsval :=
  match m with
  | Threw _ => Returned None
  | _ => m
  end.

Definition getAuxData (contractSolcOutput : json) : outcome jsval :=
  orUndefined
    (path_get ["evm"; "legacyAssembly"; ".data"; "0"; ".auxdata"]
              (Some contractSolcOutput)).

Definition getBytecode (contractSolcOutput : json) (isDeployedBytecode : bool)
  : outcome jsval :=
  orUndefined
    (code <- path_get ["evm";
                       if isDeployedBytecode then "deployedBytecode"
                       else "bytecode";
                       "object"] (Some contractSolcOutput) ;;
     auxData <- getAuxData contractSolcOutput ;;
     if truthy auxData then
       match code, auxData with
       | Some (JStr c), Some a => Returned (split0 c (ToString a))
       | _, _ => Threw TypeError
       end
     else Returned code).

(** Lines 380 to 403 of [transpileContract]: the deployed bytecode. *)
Definition transpileDeployed (transpiler : Transpiler)
    (filename contractName : string) (bytecode deployedBytecode : jsval)
  : M TranspilationOutput :=
  if truthy deployedBytecode then
    d <~ lift (hexStrToBuf_js deployedBytecode) ;;
    _ <~ emit (TranspileRawBytecode d) ;;
    match transpileRawBytecode d with
    | Errored errs =>
        ret {| bytecode := None; deployedBytecode := None;
               errors := Some (JArr (getSolcErrorsFromTranspilerErrors
                                       errs filename contractName true)) |}
    | Successful b =>
        ret {| bytecode := bytecode;
               deployedBytecode := Some (JStr (bufToHexString b));
               errors := None |}
    end
  else ret {| bytecode := bytecode; deployedBytecode := deployedBytecode;
              errors := None |}.

Definition transpileContract (transpiler : Transpiler)
    (contractSolcOutput : json) (filename contractName : string)
  : M TranspilationOutput :=
  object <~ lift (path_get ["evm"; "bytecode"; "object"]
                           (Some contractSolcOutput)) ;;
  original <~ lift (hexStrToBuf_js object) ;;
  let originalBytecodeSize := List.length original in
  bytecode <~ lift (getBytecode contractSolcOutput false) ;;
  deployedBytecode <~ lift (getBytecode contractSolcOutput true) ;;
  if negb (truthy bytecode) && negb (truthy deployedBytecode) then
    (* the contract record itself is returned, and read as an output *)
    ret {| bytecode := own "bytecode" contractSolcOutput;
           deployedBytecode := own "deployedBytecode" contractSolcOutput;
           errors := own "errors" contractSolcOutput |}
  else if truthy bytecode then
    b <~ lift (hexStrToBuf_js bytecode) ;;
    d <~ lift (hexStrToBuf_js deployedBytecode) ;;
    _ <~ emit (Transpile b d originalBytecodeSize) ;;
    match transpile b d originalBytecodeSize with
    | Errored errs =>
        ret {| bytecode := None; deployedBytecode := None;
               errors := Some (JArr (getSolcErrorsFromTranspilerErrors
                                       errs filename contractName false)) |}
    | Successful b' =>
        transpileDeployed transpiler filename contractName
                          (Some (JStr (bufToHexString b'))) deployedBytecode
    end
  else
    transpileDeployed transpiler filename contractName
                      bytecode deployedBytecode.

(** [res.errors.filter((x) => x.severity === 'error')] *)
Fixpoint severityErrors (l : list json) : outcome (list json) :=
  match l with
  | [] => Returned []
  | x :: r =>
      severity <- get "severity" (Some x) ;;
      r' <- severityErrors r ;;
      Returned (match severity with
                | Some (JStr s) => if String.eqb s "error" then x :: r' else r'
                | _ => r'
                end)
  end.

(** The test made on the answer of [solc.compile]. *)
Definition hasErrors (res : json) : outcome bool :=
  present <- has "errors" (Some res) ;;
  if negb present then Returned false
  else
    errs <- get "errors" (Some res) ;;
    if negb (truthy errs) then Returned false
    else
      match errs with
      | Some (JArr l) =>
          es <- severityErrors l ;;
          Returned (negb (List.length es =? 0)%nat)
      | _ => Threw TypeError
      end.

(** [...v] in an argument list. *)
Definition spread (v : jsval) : outcome (list json) :=
  match v with
  | Some (JArr l) => Returned l
  | Some (JStr s) => Returned (chars s)
  | _ => Threw TypeError
  end.

(** Lines 87 to 98: both objects are written, twice. *)
Definition writeBytecode (filename contractName : string)
    (output : TranspilationOutput) (res : json) : outcome json :=
  let writeConstructor res :=
    update ["contracts"; filename; contractName; "evm"; "bytecode"]
      (fun target =>
         x <- remove0x_js (js_or output.(bytecode) (Some (JStr ""))) ;;
         set "object" x target) (Some res) in
  let writeDeployed res :=
    update ["contracts"; filename; contractName; "evm"; "deployedBytecode"]
      (fun target =>
         x <- remove0x_js (js_or output.(deployedBytecode) (Some (JStr ""))) ;;
         set "object" x target) (Some res) in
  res <- writeConstructor res ;;
  res <- writeDeployed res ;;
  res <- writeConstructor res ;;
  writeDeployed res.

(** Lines 100 to 106. *)
Definition collectErrors (output : TranspilationOutput) (res : json)
  : outcome json :=
  if truthy output.(errors) then
    resErrors <- get "errors" (Some res) ;;
    res <- (if negb (truthy resErrors) then set "errors" (JArr []) (Some res)
            else Returned res) ;;
    items <- spread output.(errors) ;;
    update ["errors"] (push items) (Some res)
  else Returned res.

(** The body of the loops of [compile], for one contract. *)
Definition compileContract (transpiler : Transpiler)
    (filename contractName : string) (contractJson : json) (res : json)
  : M json :=
  output <~ transpileContract transpiler contractJson filename contractName ;;
  res <~ lift (writeBytecode filename contractName output res) ;;
  lift (collectErrors output res).

Definition compileContracts (transpiler : Transpiler)
    (files : list (string * json)) (res : json) : M json :=
  forEach files (fun '(filename, fileJson) res =>
    cs <~ lift (entries (Some fileJson)) ;;
    forEach cs (fun '(contractName, contractJson) res =>
      compileContract transpiler filename contractName contractJson res) res)
    res.

Definition compile (configJsonString : string) (callbacks : option Callbacks)
  : M string :=
  match JSON_parse configJsonString with
  | None => solc configJsonString None
  | Some json =>
      inputErrors <~ lift (getInputErrors json) ;;
      if truthy (option_map JStr inputErrors) then
        ret (match inputErrors with Some s => s | None => "" end)
      else
        solcConfig <~ lift (getSolcConfig json) ;;
        resString <~ solc solcConfig callbacks ;;
        match JSON_parse resString with
        | None => lift (Threw SyntaxError)
        | Some res =>
            failed <~ lift (hasErrors res) ;;
            if failed then ret resString
            else
              address <~ lift (getExecutionManagerAddress json) ;;
              let transpiler :=
                TranspilerImpl OpcodeWhitelistImpl
                               (OpcodeReplacerImpl address) in
              contracts <~ lift (get "contracts" (Some res)) ;;
              files <~ lift (entries contracts) ;;
              res <~ compileContracts transpiler files res ;;
              lift (formatOutput res json)
        end
  end.


(* ================================================================== *)
(** ** Notions used to state the properties                            *)
(* ================================================================== *)

(** [part] occurs in [whole]. *)
Definition Embeds (part whole : string) : Prop :=
  exists pre post, whole = pre ++ part ++ post.


(** The text of the record made for one [TranspilationError]. *)
Definition errorMessage (file contract : string) (isDeployedBytecode : bool)
    (x : TranspilationError) : string :=
  file ++ ":" ++ contract ++ " error [" ++ x.(message) ++ "] at index "
       ++ dec x.(index) ++ " of "
       ++ (if isDeployedBytecode then "deployed bytecode" else "bytecode").

Definition errorRecord (m : string) : json :=
  JObj [("component", JStr "general"); ("formattedMessage", JStr m);
        ("message", JStr m); ("severity", JStr "error");
        ("type", JStr "CompilerError")].


(** The number of bits a mask written as [0x] and hexadecimal digits
    encodes, four for each digit. *)
Definition mask_bits (mask : string) : option nat :=
  match mask with
  | String "0" (String "x" digits) =>
      if all_hex digits then Some (4 * String.length digits)%nat else None
  | _ => None
  end.

(** An output that carries an error list and nothing else. *)
Definition rejection (records : list json) : TranspilationOutput :=
  {| bytecode := None; deployedBytecode := None;
     errors := Some (JArr records) |}.


(** The member of [evm] that holds the constructor bytecode, or the
    deployed bytecode. *)
Definition member (isDeployedBytecode : bool) : string :=
  if isDeployedBytecode then "deployedBytecode" else "bytecode".

(** A call to the transpiler whose arguments are what [getBytecode]
    returned for the contract. *)
Definition passes_getBytecode (hexStrToBuf : string -> bytes)
    (code deployed : outcome jsval) (e : event) : Prop :=
  (exists c d size,
      code = Returned (Some (JStr c)) /\ deployed = Returned (Some (JStr d))
      /\ e = Transpile (hexStrToBuf c) (hexStrToBuf d) size)
  \/ (exists d,
         deployed = Returned (Some (JStr d))
         /\ e = TranspileRawBytecode (hexStrToBuf d)).

(** [f] leaves the member [k] of what it changes as it is. *)
Definition preserves (k : string) (f : jsval -> outcome json) : Prop :=
  forall t t', f t = Returned t' -> get k (Some t') = get k t.


(** Objects and arrays, as opposed to primitive values. *)
Definition compound (j : json) : bool :=
  match j with JObj _ | JArr _ => true | _ => false end.


(** Where the record of a contract keeps its constructor bytecode
    ([m] is [bytecode]) or deployed bytecode ([deployedBytecode]), and
    where that bytecode is. *)
Definition target (filename contractName m : string) : list string :=
  ["contracts"; filename; contractName; "evm"; m].

Definition field (filename contractName m : string) : list string :=
  ["contracts"; filename; contractName; "evm"; m; "object"].

(** The entries of [errors], when it is an array. *)
Definition errorsOf (res : json) : list json :=
  match own "errors" res with
  | Some (JArr l) => l
  | _ => []
  end.

Definition is_digit (c : ascii) : bool :=
  let n := nat_of_ascii c in ((48 <=? n)%nat && (n <=? 57)%nat)%bool.

(** A property name that does not start with a digit: it names no
    element of an array and no character of a string. *)
Definition named (k : string) : bool :=
  match k with
  | EmptyString => true
  | String c _ => negb (is_digit c)
  end.

(** Reading [contracts[filename][contractName].evm.legacyAssembly] in
    [out] gives no value. *)
Definition no_legacyAssembly (out : json) (filename contractName : string) : Prop :=
  forall x,
    path_get ["contracts"; filename; contractName; "evm"; "legacyAssembly"]
             (Some out) <> Returned (Some x).

(** A file entry of [outputSelection] of the form
    [{ "contractName": [...], ... }]. *)
Definition file_selection (v : json) : bool :=
  match v with
  | JObj o => forallb (fun kv => isArray (Some (snd kv))) o
  | _ => false
  end.

(** The settings are an object and hold, with the environment, a valid
    execution manager address. *)
Definition addressed (json : json) (settings : jsval) : Prop :=
  get "settings" (Some json) = Returned settings
  /\ truthy settings = true /\ typeof_object settings = true
  /\ exists a, getExecutionManagerAddress json = Returned (Some a)
               /\ truthy (Some a) = true /\ isValidHexAddress a = true.


(** The inner loop of [compile], over the contracts of one file. *)
Definition contractsLoop (T : Transpiler) (filename : string)
    (cs : list (string * json)) (res : json) : M json :=
  forEach cs (fun '(contractName, contractJson) res =>
                compileContract T filename contractName contractJson res) res.


(** The transpiler [compile] builds for a configuration. *)
Definition transpilerFor (json : json) : Transpiler :=
  TranspilerImpl OpcodeWhitelistImpl
    (OpcodeReplacerImpl
       (match getExecutionManagerAddress json with
        | Returned a => a
        | _ => None
        end)).

(** [compile] gets as far as the transpilation: the configuration
    parses to [json] and passes [getInputErrors], solc answers
    [solcConfig] with [res], which reports no error and lists the
    files [files]. *)
Definition transpiling (configJsonString : string)
    (callbacks : option Callbacks) (json : JS.json) (solcConfig : string)
    (res : JS.json) (files : list (string * JS.json)) : Prop :=
  JSON_parse configJsonString = Some json
  /\ getInputErrors json = Returned None
  /\ getSolcConfig json = Returned solcConfig
  /\ JSON_parse (solc_compile solcConfig callbacks) = Some res
  /\ hasErrors res = Returned false
  /\ exists contracts,
       get "contracts" (Some res) = Returned contracts
       /\ entries contracts = Returned files.

(** What the transpiler answered to a call. *)
Definition answer (T : Transpiler) (e : event) : option TranspilationResult :=
  match e with
  | Transpile b d size => Some (transpile b d size)
  | TranspileRawBytecode d => Some (transpileRawBytecode d)
  | SolcCompile _ => None
  end.

(** The transpilation of the contract records an error: one of the
    calls made for it was answered with a list of errors. *)
Definition records_error (T : Transpiler) (contractJson : json)
    (filename contractName : string) : Prop :=
  exists e errs,
    In e (fst (transpileContract T contractJson filename contractName))
    /\ answer T e = Some (Errored errs).

(** The transpilation of the contract succeeds: the transpiler was
    called, and answered every call with transpiled bytecode. *)
Definition succeeds (T : Transpiler) (contractJson : json)
    (filename contractName : string) : Prop :=
  fst (transpileContract T contractJson filename contractName) <> []
  /\ forall e,
       In e (fst (transpileContract T contractJson filename contractName)) ->
       exists b, answer T e = Some (Successful b).

(** How [transpileContract] can return: without a call, or after one
    or two calls, of which only the last may have failed. *)
Inductive transpiled (T : Transpiler) (filename contractName : string)
  : list event -> TranspilationOutput -> Prop :=
| nothing_to_transpile output :
    transpiled T filename contractName [] output
| constructor_rejected b d size errs :
    transpile b d size = Errored errs ->
    transpiled T filename contractName [Transpile b d size]
      (rejection (getSolcErrorsFromTranspilerErrors
                    errs filename contractName false))
| constructor_only b d size b' deployed :
    transpile b d size = Successful b' -> truthy deployed = false ->
    transpiled T filename contractName [Transpile b d size]
      {| bytecode := Some (JStr (bufToHexString b'));
         deployedBytecode := deployed; errors := None |}
| deployed_rejected_after b d size b' d0 errs :
    transpile b d size = Successful b' ->
    transpileRawBytecode d0 = Errored errs ->
    transpiled T filename contractName
      [Transpile b d size; TranspileRawBytecode d0]
      (rejection (getSolcErrorsFromTranspilerErrors
                    errs filename contractName true))
| both_transpiled b d size b' d0 d' :
    transpile b d size = Successful b' ->
    transpileRawBytecode d0 = Successful d' ->
    transpiled T filename contractName
      [Transpile b d size; TranspileRawBytecode d0]
      {| bytecode := Some (JStr (bufToHexString b'));
         deployedBytecode := Some (JStr (bufToHexString d'));
         errors := None |}
| deployed_rejected d0 errs :
    transpileRawBytecode d0 = Errored errs ->
    transpiled T filename contractName [TranspileRawBytecode d0]
      (rejection (getSolcErrorsFromTranspilerErrors
                    errs filename contractName true))
| deployed_only code d0 d' :
    transpileRawBytecode d0 = Successful d' -> truthy code = false ->
    transpiled T filename contractName [TranspileRawBytecode d0]
      {| bytecode := code;
         deployedBytecode := Some (JStr (bufToHexString d'));
         errors := None |}.


(** [contractJson] is the contract [contractName] of the file
    [filename] in the list [files] of solc's answer, no name standing
    for two files or for two contracts of the file (as in every
    object). *)
Definition the_contract (files : list (string * json))
    (filename contractName : string) (contractJson : json) : Prop :=
  exists fileJson cs,
    In (filename, fileJson) files
    /\ entries (Some fileJson) = Returned cs
    /\ In (contractName, contractJson) cs
    /\ NoDup (map fst files) /\ NoDup (map fst cs).

(** The calls made to the transpiler for the contracts of [files], in
    the order of the files and of their contracts. *)
Definition calls (T : Transpiler) (files : list (string * json)) : list event :=
  flat_map
    (fun '(filename, fileJson) =>
       flat_map
         (fun '(contractName, contractJson) =>
            fst (transpileContract T contractJson filename contractName))
         (match entries (Some fileJson) with
          | Returned cs => cs
          | _ => []
          end))
    files.

(** A contract record [compile] can work on: [transpileContract]
    returns for it, with transpiled bytecode or with the errors of
    the transpiler; both bytecodes are kept in objects under [evm];
    and the record has no members [bytecode], [deployedBytecode],
    [errors] of its own. *)
Definition workable (T : Transpiler) (filename contractName : string)
    (contractJson : json) : Prop :=
  (exists t output,
      transpileContract T contractJson filename contractName
      = (t, Returned output))
  /\ (exists ob,
         path_get ["evm"; "bytecode"] (Some contractJson)
         = Returned (Some (JObj ob)))
  /\ (exists od,
         path_get ["evm"; "deployedBytecode"] (Some contractJson)
         = Returned (Some (JObj od)))
  /\ own "bytecode" contractJson = None
  /\ own "deployedBytecode" contractJson = None
  /\ own "errors" contractJson = None.

(** A batch of such records, each found under its file name and
    contract name. *)
Definition workable_batch (T : Transpiler) (res : json)
    (files : list (string * json)) : Prop :=
  forall filename fileJson,
    In (filename, fileJson) files ->
    exists cs,
      entries (Some fileJson) = Returned cs
      /\ forall contractName contractJson,
           In (contractName, contractJson) cs ->
           workable T filename contractName contractJson
           /\ path_get ["contracts"; filename; contractName] (Some res)
              = Returned (Some contractJson).

(** An output [compile] can write back: strings, or nothing, for the
    bytecodes; an array, or nothing, for the errors. *)
Definition writable (output : TranspilationOutput) : Prop :=
  (truthy output.(bytecode) = false \/ exists s, output.(bytecode) = Some (JStr s))
  /\ (truthy output.(deployedBytecode) = false
      \/ exists s, output.(deployedBytecode) = Some (JStr s))
  /\ (output.(errors) = None
      \/ exists records, output.(errors) = Some (JArr records)).

(** The record of the contract has objects for both bytecodes. *)
Definition has_targets (s : json) (filename contractName : string) : Prop :=
  exists ob od,
    path_get (target filename contractName "bytecode") (Some s)
      = Returned (Some (JObj ob))
    /\ path_get (target filename contractName "deployedBytecode") (Some s)
       = Returned (Some (JObj od)).

(** [errors] is an array, if it is anything. *)
Definition errors_array (s : json) : Prop :=
  truthy (own "errors" s) = false \/ exists l, own "errors" s = Some (JArr l).

(** [filename] and [contractName] name a contract of the batch. *)
Definition batch_name (files : list (string * json))
    (filename contractName : string) : Prop :=
  exists fileJson cs contractJson,
    In (filename, fileJson) files
    /\ entries (Some fileJson) = Returned cs
    /\ In (contractName, contractJson) cs.

(** What the loops of [compile] keep true of the answer of solc. *)
Definition writable_batch (files : list (string * json)) (s : json) : Prop :=
  errors_array s
  /\ forall filename contractName,
       batch_name files filename contractName ->
       has_targets s filename contractName.

(* ================================================================== *)
(** ** Facts about outcomes and traces                                 *)
(* ================================================================== *)

Unset Implicit Arguments.

Lemma obind_Returned A B (m : outcome A) (k : A -> outcome B) b :
  obind m k = Returned b -> exists a, m = Returned a /\ k a = Returned b.
Proof. destruct m; simpl; intros H; try discriminate; eauto. Qed.

Lemma bind_Returned A B (m : M A) (k : A -> M B) t b :
  bind m k = (t, Returned b) ->
  exists t1 a t2,
    m = (t1, Returned a) /\ k a = (t2, Returned b) /\ t = (t1 ++ t2)%list.
Proof.
  destruct m as [t1 [a | e | ]]; simpl; try discriminate.
  destruct (k a) as [t2 r] eqn:E. intros H. inversion H; subst.
  exists t1, a, t2. auto.
Qed.

Lemma bind_lift A B (o : outcome A) (k : A -> M B) :
  bind (lift o) k =
  match o with
  | Returned a => k a
  | Threw e => ([], Threw e)
  | Host => ([], Host)
  end.
Proof. destruct o; simpl; auto. destruct (k a); auto. Qed.

Lemma bind_ret A B (a : A) (k : A -> M B) : bind (ret a) k = k a.
Proof. unfold ret. simpl. destruct (k a); auto. Qed.

Lemma bind_emit B (e : event) (k : unit -> M B) :
  bind (emit e) k = (e :: fst (k tt), snd (k tt)).
Proof. unfold emit. simpl. destruct (k tt); auto. Qed.

Lemma lift_Returned A (o : outcome A) t a :
  lift o = (t, Returned a) -> o = Returned a /\ t = [].
Proof. unfold lift. intros H. inversion H. auto. Qed.

(** Runs the binds of the goal whose first computation is known. *)
Ltac run_M :=
  repeat first
    [ rewrite bind_lift
    | rewrite bind_emit
    | rewrite bind_ret
    | progress cbn [hexStrToBuf_js negb andb orb fst snd obind] ].

(** Unfolds one [bind] or [obind] of a hypothesis that says the
    computation returned. *)
Ltac returned H :=
  let a := fresh "a" in
  let t1 := fresh "t" in
  let t2 := fresh "t" in
  let H1 := fresh H in
  let H2 := fresh H in
  first
    [ apply obind_Returned in H; destruct H as (a & H1 & H)
    | apply bind_Returned in H; destruct H as (t1 & a & t2 & H1 & H & H2) ].

(* ================================================================== *)
(** ** Error records                                                   *)
(* ================================================================== *)

Lemma append_assoc (a b c : string) : (a ++ b) ++ c = a ++ (b ++ c).
Proof. induction a; simpl; congruence. Qed.

Lemma append_nil_r (a : string) : a ++ EmptyString = a.
Proof. induction a; simpl; congruence. Qed.

Lemma Embeds_here part post : Embeds part (part ++ post).
Proof. exists EmptyString, post. reflexivity. Qed.

Lemma Embeds_later pre part whole : Embeds part whole -> Embeds part (pre ++ whole).
Proof.
  intros (a & b & ->). exists (pre ++ a), b. now rewrite append_assoc.
Qed.

Lemma Embeds_end part : Embeds part part.
Proof. exists EmptyString, EmptyString. simpl. now rewrite append_nil_r. Qed.

Create HintDb embeds.
#[local] Hint Resolve Embeds_here Embeds_later Embeds_end : embeds.

(** C6. [getSolcErrorsFromTranspilerErrors] makes one record per
    [TranspilationError], in the same order.  Each record has the
    members [component], [message], [severity] and [type] (and
    [formattedMessage]); its message holds the file name, the contract
    name, the error's own message and its byte index in decimal, and
    ends with [of bytecode] for the constructor bytecode and with
    [of deployed bytecode] for the deployed bytecode. *)
Theorem solc_errors_one_per_transpilation_error
    (errs : list TranspilationError) (file contract : string) (isDeployed : bool) :
  List.length (getSolcErrorsFromTranspilerErrors errs file contract isDeployed)
    = List.length errs
  /\ Forall2
       (fun x record =>
          let m := errorMessage file contract isDeployed x in
          record = errorRecord m
          /\ own "component" record = Some (JStr "general")
          /\ own "message" record = Some (JStr m)
          /\ own "severity" record = Some (JStr "error")
          /\ own "type" record = Some (JStr "CompilerError")
          /\ Embeds file m /\ Embeds contract m
          /\ Embeds (dec x.(index)) m
          /\ (exists pre,
                m = pre ++ " of "
                        ++ (if isDeployed then "deployed bytecode" else "bytecode")
                /\ pre = file ++ ":" ++ contract ++ " error [" ++ x.(message)
                              ++ "] at index " ++ dec x.(index)))
       errs
       (getSolcErrorsFromTranspilerErrors errs file contract isDeployed).
Proof.
  split.
  - unfold getSolcErrorsFromTranspilerErrors. apply length_map.
  - unfold getSolcErrorsFromTranspilerErrors.
    induction errs as [| x errs IH]; cbn [map]; constructor; auto.
    cbv zeta. fold (errorMessage file contract isDeployed x).
    fold (errorRecord (errorMessage file contract isDeployed x)).
    split; [reflexivity |]. do 4 (split; [reflexivity |]).
    unfold errorMessage.
    split; [auto with embeds |].
    split; [do 2 apply Embeds_later; auto with embeds |].
    split; [do 6 apply Embeds_later; auto with embeds |].
    eexists. split; [| reflexivity].
    repeat rewrite append_assoc. reflexivity.
Qed.

(* ================================================================== *)
(** ** Facts about objects                                             *)
(* ================================================================== *)

Lemma assoc_put_same k x o : assoc k (put k x o) = Some x.
Proof.
  induction o as [| [k' v] o IH]; simpl.
  - now rewrite String.eqb_refl.
  - destruct (String.eqb k k') eqn:E; simpl.
    + now rewrite String.eqb_refl.
    + now rewrite E.
Qed.

Lemma assoc_put_other k k' x o :
  k <> k' -> assoc k' (put k x o) = assoc k' o.
Proof.
  intros N. induction o as [| [k0 v] o IH]; simpl.
  - destruct (String.eqb k' k) eqn:E; auto.
    apply String.eqb_eq in E. congruence.
  - destruct (String.eqb k k0) eqn:E; simpl.
    + apply String.eqb_eq in E. subst k0.
      destruct (String.eqb k' k) eqn:E'; auto.
      apply String.eqb_eq in E'. congruence.
    + destruct (String.eqb k' k0); auto.
Qed.

Lemma assoc_remove_other k k' o :
  k <> k' -> assoc k' (remove k o) = assoc k' o.
Proof.
  intros N. unfold remove. induction o as [| [k0 v] o IH]; simpl; auto.
  destruct (String.eqb k k0) eqn:E; simpl.
  - apply String.eqb_eq in E. subst k0.
    destruct (String.eqb k' k) eqn:E'; auto.
    apply String.eqb_eq in E'. congruence.
  - now rewrite IH.
Qed.

Lemma assoc_remove_same k o : assoc k (remove k o) = None.
Proof.
  unfold remove. induction o as [| [k0 v] o IH]; simpl; auto.
  destruct (String.eqb k k0) eqn:E; simpl; auto. now rewrite E.
Qed.

(* ================================================================== *)
(** ** Facts about strings                                             *)
(* ================================================================== *)

Lemma prefix_append a b : String.prefix a (a ++ b) = true.
Proof.
  induction a as [| c a IH]; simpl.
  - now destruct b.
  - destruct (ascii_dec c c); [assumption | contradiction].
Qed.

Lemma prefix_inv a b : String.prefix a b = true -> exists r, b = a ++ r.
Proof.
  revert b. induction a as [| c a IH]; intros b H.
  - exists b. reflexivity.
  - destruct b as [| c' b]; simpl in H; [discriminate |].
    destruct (ascii_dec c c'); [| discriminate]. subst c'.
    destruct (IH _ H) as [r ->]. exists r. reflexivity.
Qed.

Lemma append_length a b : String.length (a ++ b) = (String.length a + String.length b)%nat.
Proof. induction a; simpl; auto. Qed.

Lemma append_same_length a b c d :
  a ++ b = c ++ d -> String.length a = String.length c -> a = c.
Proof.
  revert c. induction a as [| x a IH]; intros [| y c] H L; simpl in *;
    try discriminate; auto.
  inversion H; subst. f_equal. apply IH; auto.
Qed.

Lemma before_prefix sep code : exists rest, code = before sep code ++ rest.
Proof.
  induction code as [| c r [rest IH]].
  - exists EmptyString. reflexivity.
  - cbn [before]. destruct (String.prefix sep (String c r)).
    + exists (String c r). reflexivity.
    + exists rest. simpl. now rewrite <- IH.
Qed.

(** The occurrence [before] stops at is the first one. *)
Lemma before_first sep code pre post :
  code = pre ++ sep ++ post ->
  (String.length (before sep code) <= String.length pre)%nat.
Proof.
  revert pre. induction code as [| c r IH]; intros pre H.
  - simpl. lia.
  - cbn [before]. destruct (String.prefix sep (String c r)) eqn:P.
    + simpl. lia.
    + destruct pre as [| c' pre].
      * simpl in H. rewrite H, prefix_append in P. discriminate.
      * simpl in H. injection H as _ Hr.
        cbn [String.length]. apply le_n_S. apply IH. exact Hr.
Qed.

Lemma before_found sep code pre post :
  code = pre ++ sep ++ post ->
  exists post', code = before sep code ++ sep ++ post'.
Proof.
  revert pre. induction code as [| c r IH]; intros pre H.
  - destruct pre; simpl in H; [| discriminate].
    destruct sep; simpl in H; [| discriminate].
    exists EmptyString. reflexivity.
  - cbn [before]. destruct (String.prefix sep (String c r)) eqn:P.
    + apply prefix_inv in P. destruct P as [post' P].
      exists post'. simpl. assumption.
    + destruct pre as [| c' pre].
      * simpl in H. rewrite H, prefix_append in P. discriminate.
      * simpl in H. injection H as _ Hr.
        destruct (IH pre Hr) as [post' E].
        exists post'. simpl. now rewrite <- E.
Qed.

(** A separator that stands at the end of [code], and nowhere before,
    leaves what precedes it. *)
Lemma before_trailer sep body :
  (forall pre post, body ++ sep = pre ++ sep ++ post ->
                    (String.length body <= String.length pre)%nat) ->
  before sep (body ++ sep) = body.
Proof.
  intros Hmin.
  assert (H0 : body ++ sep = body ++ sep ++ EmptyString)
    by now rewrite append_nil_r.
  destruct (before_found _ _ _ _ H0) as [post' E].
  pose proof (before_first _ _ _ _ H0) as L1.
  pose proof (Hmin _ _ E) as L2.
  symmetry. eapply append_same_length; [exact E | lia].
Qed.

Lemma before_free sep code :
  sep <> EmptyString -> ~ Embeds sep (before sep code).
Proof.
  intros N. induction code as [| c r IH]; cbn [before].
  - intros (pre & post & E). destruct pre; simpl in E; [| discriminate].
    destruct sep; [contradiction | discriminate].
  - destruct (String.prefix sep (String c r)) eqn:P.
    + intros (pre & post & E). destruct pre; simpl in E; [| discriminate].
      destruct sep; [contradiction | discriminate].
    + intros (pre & post & E). destruct pre as [| c' pre].
      * simpl in E.
        destruct (before_prefix sep r) as [rest R].
        assert (String c r = sep ++ (post ++ rest)).
        { rewrite R at 1. change (String c (before sep r ++ rest))
            with (String c (before sep r) ++ rest).
          rewrite E. now rewrite append_assoc. }
        rewrite H, prefix_append in P. discriminate.
      * simpl in E. injection E as _ Er. apply IH. exists pre, post. exact Er.
Qed.

(* ================================================================== *)
(** ** Facts about paths                                               *)
(* ================================================================== *)

Lemma put_elem_length i k x l :
  List.length (put_elem i k x l) = List.length l.
Proof.
  revert i. induction l as [| y l IH]; intros i; simpl; auto.
  destruct (String.eqb k (dec i)); simpl; auto.
Qed.

Lemma elem_from_put_elem_same i k x l :
  elem_from i k (put_elem i k x l)
  = match elem_from i k l with Some _ => Some x | None => None end.
Proof.
  revert i. induction l as [| y l IH]; intros i; simpl; auto.
  destruct (String.eqb k (dec i)) eqn:E; simpl; rewrite E; auto.
Qed.

Lemma elem_from_put_elem_other i k k' x l :
  k <> k' -> elem_from i k' (put_elem i k x l) = elem_from i k' l.
Proof.
  intros N. revert i. induction l as [| y l IH]; intros i; simpl; auto.
  destruct (String.eqb k (dec i)) eqn:E; simpl.
  - apply String.eqb_eq in E. subst k.
    destruct (String.eqb k' (dec i)) eqn:E'; auto.
    apply String.eqb_eq in E'. congruence.
  - destruct (String.eqb k' (dec i)); auto.
Qed.

Lemma own_put_elem_other k k' x l :
  k <> k' -> own k' (JArr (put_elem 0 k x l)) = own k' (JArr l).
Proof.
  intros N. cbn [own]. rewrite put_elem_length.
  destruct (String.eqb k' "length"); auto.
  now apply elem_from_put_elem_other.
Qed.

Lemma path_get_app p q v :
  path_get (p ++ q) v = obind (path_get p v) (path_get q).
Proof.
  revert v. induction p as [| k p IH]; intros v; cbn [app path_get obind].
  - reflexivity.
  - destruct (get k v); cbn [obind]; auto.
Qed.

Lemma update_app p q f v :
  update (p ++ q) f v = update p (update q f) v.
Proof.
  revert v. induction p as [| k p IH]; intros v; [reflexivity |].
  cbn [app update].
  destruct v as [[| b | n | s | l | o] |]; try reflexivity; now rewrite IH.
Qed.

Lemma update_ext p f g v :
  (forall t, f t = g t) -> update p f v = update p g v.
Proof.
  intros E. revert v. induction p as [| k p IH]; intros v; [apply E |].
  cbn [update].
  destruct v as [[| b | n | s | l | o] |]; try reflexivity; now rewrite IH.
Qed.

Lemma preserves_set k k' x : k <> k' -> preserves k' (set k x).
Proof.
  intros N [[| b | n | s | l | o] |] t' H; simpl in H; try discriminate;
    injection H as <-; cbn [get]; auto.
  cbn [own]. now rewrite assoc_put_other.
Qed.

Lemma preserves_delete k k' : k <> k' -> preserves k' (delete k).
Proof.
  intros N [[| b | n | s | l | o] |] t' H; simpl in H; try discriminate;
    injection H as <-; cbn [get]; auto.
  cbn [own]. now rewrite assoc_remove_other.
Qed.

Lemma preserves_update k k' p f : k <> k' -> preserves k' (update (k :: p) f).
Proof.
  intros N [[| b | n | s | l | o] |] t' H; cbn [update] in H;
    try discriminate; returned H; injection H as <-; auto.
  - cbn [get]. now rewrite own_put_elem_other.
  - cbn [get own]. now rewrite assoc_put_other.
Qed.

Lemma preserves_ext k f g :
  (forall t, f t = g t) -> preserves k g -> preserves k f.
Proof. intros E P t t' H. rewrite E in H. now apply P. Qed.

(** An update below [p] that leaves the member [k] alone is not seen
    on a path that goes through [k] at [p]. *)
Lemma update_preserves p f k rest v v' :
  update p f v = Returned v' -> preserves k f ->
  path_get (p ++ k :: rest) (Some v') = path_get (p ++ k :: rest) v.
Proof.
  intros H P. revert v v' H. induction p as [| k0 p IH]; intros v v' H.
  - cbn [update] in H. cbn [app path_get]. now rewrite (P _ _ H).
  - cbn [update] in H. cbn [app path_get].
    destruct v as [[| b | n | s | l | o] |]; try discriminate;
      returned H; injection H as <-; cbn [get obind]; auto.
    + cbn [own]. rewrite put_elem_length.
      cbn [own] in H0.
      destruct (String.eqb k0 "length"); [reflexivity |].
      rewrite elem_from_put_elem_same.
      destruct (elem_from 0 k0 l) as [y |] eqn:E.
      * now apply IH.
      * destruct p; reflexivity.
    + cbn [own]. rewrite assoc_put_same. now apply IH.
Qed.

(** Two paths that part at some member do not see each other. *)
Lemma update_disjoint pre k1 p1 k2 p2 f v v' :
  update (pre ++ k1 :: p1) f v = Returned v' -> k1 <> k2 ->
  path_get (pre ++ k2 :: p2) (Some v') = path_get (pre ++ k2 :: p2) v.
Proof.
  intros H N. rewrite update_app in H.
  eapply update_preserves; [exact H |]. now apply preserves_update.
Qed.

Lemma own_scalar k j x :
  compound j = false -> own k j = Some x -> compound x = false.
Proof.
  destruct j as [| b | n | s | l | o]; cbn [compound own]; try discriminate.
  intros _. destruct (String.eqb k "length"); [now intros [= <-] |].
  generalize 0%nat. induction s as [| c s IH]; intros i; simpl;
    [discriminate |].
  destruct (String.eqb k (dec i)); [now intros [= <-] | apply IH].
Qed.

Lemma path_get_scalar p j x :
  compound j = false -> path_get p (Some j) = Returned (Some x) ->
  compound x = false.
Proof.
  revert j. induction p as [| k p IH]; intros j S H.
  - cbn in H. injection H as <-. assumption.
  - cbn [path_get] in H. destruct j; try discriminate; cbn [get obind] in H.
    all: match type of H with
         | path_get _ (own ?k ?j) = _ =>
             destruct (own k j) as [y |] eqn:E;
             [ eapply IH; [ eapply own_scalar; [| exact E]; reflexivity | exact H ]
             | destruct p; cbn in H; discriminate ]
         end.
Qed.

(** Where [update] finds an object or an array, the path leads to the
    new value afterwards. *)
Lemma update_target p f v v' t :
  path_get p v = Returned (Some t) -> compound t = true ->
  update p f v = Returned v' ->
  exists t', f (Some t) = Returned t' /\ path_get p (Some v') = Returned (Some t').
Proof.
  revert v v'. induction p as [| k p IH]; intros v v' G C H.
  - cbn in G. injection G as ->. cbn in H. exists v'. split; auto.
  - cbn [path_get] in G. cbn [update] in H.
    destruct v as [[| b | n | s | l | o] |]; try discriminate;
      cbn [get obind] in G.
    1-3: exfalso;
      match type of G with
      | path_get _ (own ?k ?j) = _ =>
          destruct (own k j) as [y |] eqn:E;
          [ assert (D : compound y = false)
              by (eapply own_scalar; [| exact E]; reflexivity);
            pose proof (@path_get_scalar _ _ _ D G); congruence
          | destruct p; cbn in G; discriminate ]
      end.
    + returned H. injection H as <-.
      destruct (own k (JArr l)) as [y |] eqn:E;
        [| destruct p; cbn in G; discriminate].
      destruct (IH _ _ G C H0) as (t' & Ft & Gt). exists t'. split; auto.
      cbn [path_get get obind]. cbn [own] in E |- *.
      rewrite put_elem_length.
      destruct (String.eqb k "length").
      * injection E as <-.
        pose proof (@path_get_scalar p (JNum (Z.of_nat (List.length l))) _
                      eq_refl G). congruence.
      * rewrite elem_from_put_elem_same, E. exact Gt.
    + returned H. injection H as <-.
      cbn [own] in G.
      destruct (assoc k o) as [y |] eqn:E;
        [| destruct p; cbn in G; discriminate].
      destruct (IH _ _ G C H0) as (t' & Ft & Gt). exists t'. split; auto.
      cbn [path_get get obind own]. rewrite assoc_put_same. exact Gt.
Qed.

(** [update] goes through wherever the path can be read and [f]
    accepts what is found there. *)
Lemma update_returns p f v t t' :
  path_get p v = Returned t -> f t = Returned t' ->
  exists v', update p f v = Returned v'.
Proof.
  revert v. induction p as [| k p IH]; intros v G F.
  - cbn in G. injection G as ->. cbn. eauto.
  - cbn [path_get] in G. cbn [update].
    destruct v as [[| b | n | s | l | o] |]; try discriminate;
      cbn [get obind] in G; destruct (IH _ G F) as [x E].
    all: first [rewrite E | cbn [own] in E; rewrite E]; cbn [obind]; eauto.
Qed.

(* ================================================================== *)
(** ** Names and indices                                               *)
(* ================================================================== *)

Lemma to_uint_nonnil n : Nat.to_uint n <> Decimal.Nil.
Proof.
  pose proof (DecimalNat.Unsigned.to_of (Nat.to_uint n)) as H.
  rewrite DecimalNat.Unsigned.of_to in H. rewrite H.
  unfold Decimal.unorm. destruct (Decimal.nzhead _); discriminate.
Qed.

Lemma dec_digit n : exists c r, dec n = String c r /\ is_digit c = true.
Proof.
  unfold dec. pose proof (to_uint_nonnil n) as N.
  destruct (Nat.to_uint n); [contradiction | ..];
    cbn [NilEmpty.string_of_uint]; eauto.
Qed.

Lemma named_not_dec k n : named k = true -> String.eqb k (dec n) = false.
Proof.
  intros N. destruct (dec_digit n) as (c & r & -> & D).
  destruct k as [| c' k]; [reflexivity |].
  cbn [named] in N. cbn [String.eqb].
  destruct (Ascii.eqb c' c) eqn:E; [| reflexivity].
  apply Ascii.eqb_eq in E. subst c'. rewrite D in N. discriminate.
Qed.

Lemma elem_from_named k i l : named k = true -> elem_from i k l = None.
Proof.
  intros N. revert i. induction l as [| x l IH]; intros i; cbn [elem_from].
  - reflexivity.
  - rewrite named_not_dec by assumption. apply IH.
Qed.

(** A value with a member of such a name is an object. *)
Lemma own_named k j x :
  named k = true -> String.eqb k "length" = false -> own k j = Some x ->
  exists o, j = JObj o /\ assoc k o = Some x.
Proof.
  intros N L H. destruct j as [| b | n | s | l | o]; cbn [own] in H;
    try discriminate; try rewrite L in H.
  - rewrite elem_from_named in H by assumption. discriminate.
  - rewrite elem_from_named in H by assumption. discriminate.
  - eauto.
Qed.

Lemma elem_from_In i k l x : elem_from i k l = Some x -> In (k, x) (indexed i l).
Proof.
  revert i. induction l as [| y l IH]; intros i; cbn [elem_from indexed].
  - discriminate.
  - destruct (String.eqb k (dec i)) eqn:E.
    + apply String.eqb_eq in E. intros [= <-]. left. now subst.
    + intros H. right. now apply IH.
Qed.

Lemma assoc_In k o x : assoc k o = Some x -> In (k, x) o.
Proof.
  induction o as [| [k' v] o IH]; cbn [assoc]; [discriminate |].
  destruct (String.eqb k k') eqn:E.
  - apply String.eqb_eq in E. intros [= <-]. left. now subst.
  - intros H. right. now apply IH.
Qed.

(** An object or array found under a name is one of the entries. *)
Lemma own_entries k j x :
  own k j = Some x -> compound x = true ->
  compound j = true
  /\ exists es, entries (Some j) = Returned es /\ In (k, x) es.
Proof.
  intros H C. destruct j as [| b | n | s | l | o].
  1-4: apply own_scalar in H; [congruence | reflexivity].
  - split; [reflexivity |]. exists (indexed 0 l). split; [reflexivity |].
    cbn [own] in H. destruct (String.eqb k "length").
    + injection H as <-. discriminate.
    + now apply elem_from_In.
  - split; [reflexivity |]. exists o. split; [reflexivity |].
    now apply assoc_In.
Qed.

Lemma assoc_unique k x (o : list (string * json)) :
  NoDup (map fst o) -> In (k, x) o -> assoc k o = Some x.
Proof.
  induction o as [| [k' v] o IH]; cbn [map fst assoc]; intros N I.
  - contradiction.
  - inversion N as [| ? ? Nk No]; subst.
    destruct I as [[= -> ->] | I].
    + now rewrite String.eqb_refl.
    + destruct (String.eqb k k') eqn:E; [| now apply IH].
      apply String.eqb_eq in E. subst k'.
      exfalso. apply Nk. apply (in_map fst) in I. exact I.
Qed.

Lemma elem_from_assoc i k l : elem_from i k l = assoc k (indexed i l).
Proof.
  revert i. induction l as [| x l IH]; intros i; cbn [elem_from indexed assoc].
  - reflexivity.
  - now rewrite IH.
Qed.

Lemma indexed_dec i l k x : In (k, x) (indexed i l) -> exists n, k = dec n.
Proof.
  revert i. induction l as [| y l IH]; intros i; cbn [indexed].
  - contradiction.
  - intros [[= <- _] | I]; [eauto | now apply (IH (S i))].
Qed.

Lemma dec_not_length n : String.eqb (dec n) "length" = false.
Proof. rewrite String.eqb_sym. now apply named_not_dec. Qed.

(** Where no name occurs twice, an entry is what its name leads to. *)
Lemma entry_lookup v es k x :
  entries v = Returned es -> NoDup (map fst es) -> In (k, x) es ->
  get k v = Returned (Some x).
Proof.
  intros E N I.
  destruct v as [[| b | n | s | l | o] |]; cbn [entries] in E;
    try discriminate; injection E as <-; try contradiction;
    cbn [get own]; f_equal.
  - destruct (indexed_dec _ _ _ _ I) as [i ->]. rewrite dec_not_length.
    rewrite elem_from_assoc. now apply assoc_unique.
  - destruct (indexed_dec _ _ _ _ I) as [i ->]. rewrite dec_not_length.
    rewrite elem_from_assoc. now apply assoc_unique.
  - now apply assoc_unique.
Qed.

(** A value that has a member [object] under the path [p] has an
    object at [p]. *)
Lemma object_holder p v code :
  path_get (p ++ ["object"]) v = Returned (Some code) ->
  exists o, path_get p v = Returned (Some (JObj o)).
Proof.
  rewrite path_get_app. intros H. apply obind_Returned in H.
  destruct H as (t & G & H). cbn [path_get] in H.
  apply obind_Returned in H. destruct H as (x & H & E). injection E as ->.
  destruct t as [j |]; [| discriminate H].
  assert (O : own "object" j = Some code)
    by (destruct j; cbn [get] in H; try discriminate H; congruence).
  destruct (own_named "object" _ _ eq_refl eq_refl O) as (o' & -> & _).
  eauto.
Qed.

(* ================================================================== *)
(** ** The whitelist mask                                              *)
(* ================================================================== *)

(** C9, as amended.  The built-in default mask is [0x] and 64
    hexadecimal digits: it encodes exactly 256 bits.  The validation
    [compile] runs on its input takes no interest in a mask: writing a
    [whitelistMask] member of any value into the settings leaves the
    verdict of [getInputErrors] as it was. *)
Theorem default_mask_256_bits_and_mask_setting_ignored :
  mask_bits DEFAULT_OPCODE_WHITELIST_MASK = Some 256%nat
  /\ forall (top settings : list (string * json)) (m : json),
       assoc "settings" top = Some (JObj settings) ->
       getInputErrors
         (JObj (put "settings" (JObj (put "whitelistMask" m settings)) top))
       = getInputErrors (JObj top).
Proof.
  split; [reflexivity |].
  intros top settings m Hs.
  unfold getInputErrors, getExecutionManagerAddress.
  cbn [get own obind]. rewrite assoc_put_same, Hs.
  cbn [truthy typeof_object negb orb obind get own].
  rewrite !assoc_put_other by discriminate.
  reflexivity.
Qed.

(* ================================================================== *)
(** ** One contract                                                    *)
(* ================================================================== *)

Lemma truthy_JStr s : s <> EmptyString -> truthy (Some (JStr s)) = true.
Proof.
  intros N. simpl. destruct (String.eqb s "") eqn:E; auto.
  apply String.eqb_eq in E. contradiction.
Qed.

(** C7, as amended.  For a contract with both a constructor bytecode
    and a deployed bytecode, [transpileContract] first hands both to
    [transpile]; when that call fails it returns the errors of the
    call, marked as errors of the constructor bytecode, and the
    deployed bytecode is not handed to [transpileRawBytecode].  When
    the call succeeds the deployed bytecode is transpiled by
    [transpileRawBytecode]; when this second call fails the errors of
    it alone are returned, marked as errors of the deployed bytecode,
    and the transpiled constructor bytecode is dropped.  Both
    transpiled bytecodes are returned when both calls succeed. *)
Theorem constructor_first_then_deployed
    (T : Transpiler) (contractSolcOutput : json) (filename contractName : string)
    (object code deployed : string) :
  path_get ["evm"; "bytecode"; "object"] (Some contractSolcOutput)
    = Returned (Some (JStr object)) ->
  getBytecode contractSolcOutput false = Returned (Some (JStr code)) ->
  getBytecode contractSolcOutput true = Returned (Some (JStr deployed)) ->
  code <> EmptyString -> deployed <> EmptyString ->
  let b := hexStrToBuf code in
  let d := hexStrToBuf deployed in
  let size := List.length (hexStrToBuf object) in
  transpileContract T contractSolcOutput filename contractName =
  match transpile b d size with
  | Errored errs =>
      ([Transpile b d size],
       Returned (rejection (getSolcErrorsFromTranspilerErrors
                              errs filename contractName false)))
  | Successful b' =>
      match transpileRawBytecode d with
      | Errored errs =>
          ([Transpile b d size; TranspileRawBytecode d],
           Returned (rejection (getSolcErrorsFromTranspilerErrors
                                  errs filename contractName true)))
      | Successful d' =>
          ([Transpile b d size; TranspileRawBytecode d],
           Returned {| bytecode := Some (JStr (bufToHexString b'));
                       deployedBytecode := Some (JStr (bufToHexString d'));
                       errors := None |})
      end
  end.
Proof.
  intros Ho Hc Hd Nc Nd b d size.
  unfold transpileContract, transpileDeployed. rewrite Ho, Hc, Hd.
  run_M. rewrite (truthy_JStr _ Nc), (truthy_JStr _ Nd).
  run_M. fold b d size.
  destruct (transpile b d size) as [b' | errs]; [| reflexivity].
  run_M. fold d.
  destruct (transpileRawBytecode d); reflexivity.
Qed.

Lemma getBytecode_with_auxdata contractSolcOutput isDeployed code aux :
  path_get ["evm"; member isDeployed; "object"] (Some contractSolcOutput)
    = Returned (Some (JStr code)) ->
  getAuxData contractSolcOutput = Returned (Some (JStr aux)) ->
  aux <> EmptyString ->
  getBytecode contractSolcOutput isDeployed
    = Returned (Some (JStr (before aux code))).
Proof.
  intros Hc Ha N. unfold getBytecode. fold (member isDeployed).
  rewrite Hc, Ha. cbn [obind]. rewrite (truthy_JStr _ N).
  cbn [ToString]. unfold split0.
  destruct (String.eqb aux "") eqn:E; [| reflexivity].
  apply String.eqb_eq in E. contradiction.
Qed.

Lemma getBytecode_without_auxdata contractSolcOutput isDeployed code a :
  path_get ["evm"; member isDeployed; "object"] (Some contractSolcOutput)
    = Returned code ->
  getAuxData contractSolcOutput = Returned a ->
  truthy a = false ->
  getBytecode contractSolcOutput isDeployed = Returned code.
Proof.
  intros Hc Ha F. unfold getBytecode. fold (member isDeployed).
  rewrite Hc, Ha. cbn [obind]. rewrite F. reflexivity.
Qed.

(** Every call [transpileContract] makes hands over what [getBytecode]
    returned. *)
Lemma transpileContract_calls T contractSolcOutput filename contractName e :
  In e (fst (transpileContract T contractSolcOutput filename contractName)) ->
  passes_getBytecode hexStrToBuf (getBytecode contractSolcOutput false)
                     (getBytecode contractSolcOutput true) e.
Proof.
  unfold transpileContract, transpileDeployed.
  destruct (path_get _ _) as [object | |]; run_M; try contradiction.
  destruct (hexStrToBuf_js object) as [original | |]; run_M; try contradiction.
  destruct (getBytecode contractSolcOutput false) as [code | |];
    run_M; try contradiction.
  destruct (getBytecode contractSolcOutput true) as [deployed | |];
    run_M; try contradiction.
  destruct (truthy code) eqn:Tc, (truthy deployed) eqn:Td;
    run_M; try contradiction.
  - destruct code as [[| | | c | |] |]; run_M; try contradiction.
    destruct deployed as [[| | | d | |] |]; run_M; try contradiction.
    destruct (transpile _ _ _).
    + run_M. destruct (transpileRawBytecode _); cbn.
      all: intros [<- | [<- | []]];
        solve [ left; eauto 10 | right; eauto 10 ].
    + cbn. intros [<- | []]. left; eauto 10.
  - destruct code as [[| | | c | |] |]; run_M; try contradiction.
    destruct deployed as [[| | | d | |] |]; run_M; try contradiction.
    destruct (transpile _ _ _).
    + cbn. intros [<- | []]. left; eauto 10.
    + cbn. intros [<- | []]. left; eauto 10.
  - destruct deployed as [[| | | d | |] |]; run_M; try contradiction.
    destruct (transpileRawBytecode _); cbn.
    all: intros [<- | []]; right; eauto.
Qed.

(** C5.  When the record solc made for a contract carries an auxdata
    string, [getBytecode] returns, for the constructor bytecode and for
    the deployed bytecode alike, the part of the bytecode that stands
    before the auxdata: a prefix of the bytecode in which the auxdata
    does not occur, and all that precedes the auxdata when the auxdata
    is the trailer of the bytecode.  Without auxdata [getBytecode]
    returns the bytecode as it is.  What the transpiler is handed is
    always a result of [getBytecode]. *)
Theorem getBytecode_strips_auxdata
    (T : Transpiler) (contractSolcOutput : json) (filename contractName : string) :
  (forall isDeployed code,
      path_get ["evm"; member isDeployed; "object"] (Some contractSolcOutput)
        = Returned (Some (JStr code)) ->
      (forall aux,
          getAuxData contractSolcOutput = Returned (Some (JStr aux)) ->
          aux <> EmptyString ->
          exists stripped,
            getBytecode contractSolcOutput isDeployed
              = Returned (Some (JStr stripped))
            /\ (exists rest, code = stripped ++ rest)
            /\ ~ Embeds aux stripped
            /\ (forall body,
                   code = body ++ aux ->
                   (forall pre post, code = pre ++ aux ++ post ->
                       (String.length body <= String.length pre)%nat) ->
                   stripped = body))
      /\ (forall a,
             getAuxData contractSolcOutput = Returned a -> truthy a = false ->
             getBytecode contractSolcOutput isDeployed
               = Returned (Some (JStr code))))
  /\ (forall e,
         In e (fst (transpileContract T contractSolcOutput filename contractName)) ->
         passes_getBytecode hexStrToBuf (getBytecode contractSolcOutput false)
                            (getBytecode contractSolcOutput true) e).
Proof.
  split; [| intros e; apply transpileContract_calls].
  intros isDeployed code Hc. split.
  - intros aux Ha N. exists (before aux code).
    split; [now apply getBytecode_with_auxdata |].
    split; [apply before_prefix |].
    split; [now apply before_free |].
    intros body -> Hmin. now apply before_trailer.
  - intros a Ha F. now apply getBytecode_without_auxdata with (a := a).
Qed.

(* ================================================================== *)
(** ** Input validation                                                *)
(* ================================================================== *)

Lemma forallb_values (o : list (string * json)) :
  forallb (fun c => isArray (Some c)) (map snd o)
  = forallb (fun kv => isArray (Some (snd kv))) o.
Proof.
  induction o as [| kv o IH]; cbn [forallb map]; [reflexivity |].
  now rewrite IH.
Qed.




(* ================================================================== *)
(** ** The loop body of compile                                        *)
(* ================================================================== *)

Lemma update_called p f v v' :
  update p f v = Returned v' -> exists t t', f t = Returned t'.
Proof.
  revert v v'. induction p as [| k p IH]; intros v v' H.
  - cbn in H. eauto.
  - cbn [update] in H.
    destruct v as [[| b | n | s | l | o] |]; try discriminate;
      returned H; eauto.
Qed.

(** An assignment [base.object = rhs] whose right-hand side does not
    depend on the base. *)
Lemma update_assign p (rhs : outcome json) v v' :
  update p (fun base => x <- rhs ;; set "object" x base) v = Returned v' ->
  exists x, rhs = Returned x /\ update p (set "object" x) v = Returned v'.
Proof.
  intros H. destruct (update_called _ _ _ _ H) as (t & t' & F).
  returned F. exists a. split; [assumption |].
  rewrite <- H. apply update_ext. intros base. rewrite F0. reflexivity.
Qed.

(** Solves a goal that says a path reads the same before and after
    the update of hypothesis [H], the two paths parting somewhere. *)
Ltac distinct := solve [ assumption | discriminate | congruence ].

Ltac apart H :=
  first
    [ refine (@update_disjoint [] _ _ _ _ _ _ _ H _); distinct
    | refine (@update_disjoint [_] _ _ _ _ _ _ _ H _); distinct
    | refine (@update_disjoint [_; _] _ _ _ _ _ _ _ H _); distinct
    | refine (@update_disjoint [_; _; _] _ _ _ _ _ _ _ H _); distinct
    | refine (@update_disjoint [_; _; _; _] _ _ _ _ _ _ _ H _); distinct ].

Lemma writeBytecode_inv filename contractName output res res' :
  writeBytecode filename contractName output res = Returned res' ->
  exists x1 x2 r1 r2 r3,
    remove0x_js (js_or output.(bytecode) (Some (JStr ""))) = Returned x1
    /\ remove0x_js (js_or output.(deployedBytecode) (Some (JStr ""))) = Returned x2
    /\ update (target filename contractName "bytecode") (set "object" x1)
              (Some res) = Returned r1
    /\ update (target filename contractName "deployedBytecode") (set "object" x2)
              (Some r1) = Returned r2
    /\ update (target filename contractName "bytecode") (set "object" x1)
              (Some r2) = Returned r3
    /\ update (target filename contractName "deployedBytecode") (set "object" x2)
              (Some r3) = Returned res'.
Proof.
  unfold writeBytecode. intros H.
  returned H. returned H. returned H.
  apply update_assign in H0, H1, H2, H.
  destruct H0 as (x1 & R1 & U1), H1 as (x2 & R2 & U2),
           H2 as (x1' & R1' & U3), H as (x2' & R2' & U4).
  rewrite R1 in R1'. injection R1' as <-.
  rewrite R2 in R2'. injection R2' as <-.
  exists x1, x2, a, a0, a1. unfold target. auto 10.
Qed.

(** Paths into other contracts, and [errors], are not written. *)
Lemma writeBytecode_other_contract filename contractName output res res'
      f0 c0 rest :
  writeBytecode filename contractName output res = Returned res' ->
  f0 <> filename \/ c0 <> contractName ->
  path_get ("contracts" :: f0 :: c0 :: rest) (Some res')
  = path_get ("contracts" :: f0 :: c0 :: rest) (Some res).
Proof.
  intros H N.
  destruct (writeBytecode_inv _ _ _ _ _ H)
    as (x1 & x2 & r1 & r2 & r3 & _ & _ & U1 & U2 & U3 & U4).
  unfold target in *.
  assert (S : forall m f v v',
             update ["contracts"; filename; contractName; "evm"; m] f (Some v)
               = Returned v' ->
             path_get ("contracts" :: f0 :: c0 :: rest) (Some v')
             = path_get ("contracts" :: f0 :: c0 :: rest) (Some v)).
  { intros m f v v' U. destruct N as [N | N].
    - assert (filename <> f0) by congruence. apart U.
    - destruct (string_dec filename f0) as [-> | D]; [| apart U].
      assert (contractName <> c0) by congruence. apart U. }
  rewrite (S _ _ _ _ U4), (S _ _ _ _ U3), (S _ _ _ _ U2). eapply S, U1.
Qed.

Lemma writeBytecode_other_member filename contractName output res res' k rest :
  writeBytecode filename contractName output res = Returned res' ->
  k <> "contracts" ->
  path_get (k :: rest) (Some res') = path_get (k :: rest) (Some res).
Proof.
  intros H N.
  destruct (writeBytecode_inv _ _ _ _ _ H)
    as (x1 & x2 & r1 & r2 & r3 & _ & _ & U1 & U2 & U3 & U4).
  unfold target in *.
  assert (N' : "contracts" <> k) by congruence.
  transitivity (path_get (k :: rest) (Some r3)); [apart U4 |].
  transitivity (path_get (k :: rest) (Some r2)); [apart U3 |].
  transitivity (path_get (k :: rest) (Some r1)); [apart U2 | apart U1].
Qed.

(** Both bytecodes are where they were written, when the record has
    objects to keep them. *)
Lemma writeBytecode_fields filename contractName output res res' ob od :
  writeBytecode filename contractName output res = Returned res' ->
  path_get (target filename contractName "bytecode") (Some res)
    = Returned (Some (JObj ob)) ->
  path_get (target filename contractName "deployedBytecode") (Some res)
    = Returned (Some (JObj od)) ->
  exists x1 x2,
    remove0x_js (js_or output.(bytecode) (Some (JStr ""))) = Returned x1
    /\ remove0x_js (js_or output.(deployedBytecode) (Some (JStr ""))) = Returned x2
    /\ path_get (field filename contractName "bytecode") (Some res')
       = Returned (Some x1)
    /\ path_get (field filename contractName "deployedBytecode") (Some res')
       = Returned (Some x2)
    /\ has_targets res' filename contractName.
Proof.
  intros H Gb Gd.
  destruct (writeBytecode_inv _ _ _ _ _ H)
    as (x1 & x2 & r1 & r2 & r3 & R1 & R2 & U1 & U2 & U3 & U4).
  exists x1, x2. split; [assumption |]. split; [assumption |].
  unfold target in *.
  (* the first two writes leave objects behind *)
  destruct (update_target _ _ _ _ _ Gb eq_refl U1) as (t1 & S1 & Gb1).
  cbn in S1. injection S1 as <-.
  assert (Gd1 : path_get ["contracts"; filename; contractName; "evm";
                          "deployedBytecode"] (Some r1)
                = Returned (Some (JObj od))).
  { rewrite <- Gd. apart U1. }
  destruct (update_target _ _ _ _ _ Gd1 eq_refl U2) as (t2 & S2 & Gd2).
  cbn in S2. injection S2 as <-.
  assert (Gb2 : path_get ["contracts"; filename; contractName; "evm";
                          "bytecode"] (Some r2)
                = Returned (Some (JObj (put "object" x1 ob)))).
  { rewrite <- Gb1. apart U2. }
  (* the last two leave the two strings *)
  destruct (update_target _ _ _ _ _ Gb2 eq_refl U3) as (t3 & S3 & Gb3).
  cbn in S3. injection S3 as <-.
  assert (Gd3 : path_get ["contracts"; filename; contractName; "evm";
                          "deployedBytecode"] (Some r3)
                = Returned (Some (JObj (put "object" x2 od)))).
  { rewrite <- Gd2. apart U3. }
  destruct (update_target _ _ _ _ _ Gd3 eq_refl U4) as (t4 & S4 & Gd4).
  cbn in S4. injection S4 as <-.
  assert (Gb4 : path_get ["contracts"; filename; contractName; "evm";
                          "bytecode"] (Some res')
                = Returned (Some (JObj (put "object" x1 (put "object" x1 ob))))).
  { rewrite <- Gb3. apart U4. }
  unfold field. split; [| split; [| unfold has_targets, target; eauto]].
  - change ["contracts"; filename; contractName; "evm"; "bytecode"; "object"]
      with (["contracts"; filename; contractName; "evm"; "bytecode"]
              ++ ["object"])%list.
    rewrite path_get_app, Gb4. cbn. now rewrite assoc_put_same.
  - change ["contracts"; filename; contractName; "evm"; "deployedBytecode";
            "object"]
      with (["contracts"; filename; contractName; "evm"; "deployedBytecode"]
              ++ ["object"])%list.
    rewrite path_get_app, Gd4. cbn. now rewrite assoc_put_same.
Qed.

Lemma errorsOf_path a b :
  path_get ["errors"] (Some a) = path_get ["errors"] (Some b) ->
  own "errors" a = own "errors" b.
Proof.
  cbn [path_get get].
  destruct a, b; cbn [obind]; intros H; try discriminate;
    try reflexivity; now injection H.
Qed.

Lemma push_inv items v x :
  push items v = Returned x ->
  exists l, v = Some (JArr l) /\ x = JArr (l ++ items)%list.
Proof.
  destruct v as [[| b | n | s | l | o] |]; simpl; intros H; try discriminate.
  injection H as <-. eauto.
Qed.

(** What [collectErrors] leaves in [errors], and that it changes
    nothing else. *)
Lemma collectErrors_inv output res res' :
  collectErrors output res = Returned res' ->
  (truthy output.(errors) = false /\ res' = res)
  \/ (truthy output.(errors) = true
      /\ exists items,
           spread output.(errors) = Returned items
           /\ own "errors" res' = Some (JArr (errorsOf res ++ items)%list)
           /\ forall k rest, k <> "errors" ->
                path_get (k :: rest) (Some res')
                = path_get (k :: rest) (Some res)).
Proof.
  unfold collectErrors. intros H.
  destruct (truthy output.(errors)) eqn:T; [right | left; split; congruence].
  split; [reflexivity |].
  returned H. returned H. returned H. rename a into resErrors, a0 into r1,
    a1 into items.
  exists items. split; [assumption |].
  (* the array [push] found *)
  destruct (update_called _ _ _ _ H) as (v & x & P).
  assert (G : exists l, path_get ["errors"] (Some r1) = Returned (Some (JArr l))).
  { cbn [update] in H.
    destruct r1 as [| b | n | s | l | o]; try discriminate; returned H;
      destruct (push_inv _ _ _ H3) as (l' & E & _);
      exists l'; cbn [path_get get obind]; try (cbn [own] in E |- *);
      now rewrite E. }
  destruct G as [l G].
  destruct (update_target _ _ _ _ _ G eq_refl H) as (t' & Pt & Gt).
  cbn in Pt. injection Pt as <-.
  assert (Er1 : own "errors" r1 = Some (JArr l)).
  { cbn [path_get get] in G. destruct r1; cbn [obind] in G;
      try discriminate; now injection G. }
  assert (Eres' : own "errors" res' = Some (JArr (l ++ items)%list)).
  { cbn [path_get get] in Gt. destruct res'; cbn [obind] in Gt;
      try discriminate; now injection Gt. }
  assert (El : l = errorsOf res /\
               forall k rest, k <> "errors" ->
                 path_get (k :: rest) (Some r1) = path_get (k :: rest) (Some res)).
  { destruct res as [| b | n | s | l0 | o]; cbn [get] in H0; try discriminate;
      injection H0 as <-.
    all: destruct (truthy _) eqn:Te in H1; cbn [negb] in H1;
      try discriminate; injection H1 as <-.
    all: try (split; [unfold errorsOf; now rewrite Er1 | reflexivity]).
    cbn [own] in Er1. rewrite assoc_put_same in Er1. injection Er1 as <-.
    split.
    - unfold errorsOf. cbn [own]. revert Te.
      destruct (assoc "errors" o) as [[| | | | |] |]; intros Te;
        try reflexivity.
      discriminate Te.
    - intros k rest N. cbn [path_get get own].
      now rewrite assoc_put_other by congruence. }
  destruct El as [-> Other]. split; [assumption |].
  intros k rest N. rewrite <- Other by assumption.
  assert ("errors" <> k) by congruence. apart H.
Qed.

Lemma compileContract_inv T filename contractName contractJson res t res' :
  compileContract T filename contractName contractJson res = (t, Returned res') ->
  exists output r1,
    transpileContract T contractJson filename contractName = (t, Returned output)
    /\ writeBytecode filename contractName output res = Returned r1
    /\ collectErrors output r1 = Returned res'.
Proof.
  unfold compileContract. intros H.
  apply bind_Returned in H. destruct H as (t1 & output & t2 & Ht & H & ->).
  apply bind_Returned in H. destruct H as (t3 & r1 & t4 & Hw & Hc & ->).
  apply lift_Returned in Hw, Hc. destruct Hw as [Hw ->], Hc as [Hc ->].
  rewrite !List.app_nil_r. eauto.
Qed.

(** The records of other contracts are left alone. *)
Lemma compileContract_other T filename contractName contractJson res t res'
      f0 c0 rest :
  compileContract T filename contractName contractJson res = (t, Returned res') ->
  f0 <> filename \/ c0 <> contractName ->
  path_get ("contracts" :: f0 :: c0 :: rest) (Some res')
  = path_get ("contracts" :: f0 :: c0 :: rest) (Some res).
Proof.
  intros H N. destruct (compileContract_inv _ _ _ _ _ _ _ H)
    as (output & r1 & _ & W & C).
  rewrite <- (writeBytecode_other_contract _ _ _ _ _ _ _ rest W N).
  destruct (collectErrors_inv _ _ _ C) as [[_ ->] | (_ & items & _ & _ & O)];
    [reflexivity | apply O; discriminate].
Qed.

(** [errors] only grows. *)
Lemma compileContract_errors T filename contractName contractJson res t res' :
  compileContract T filename contractName contractJson res = (t, Returned res') ->
  exists output,
    transpileContract T contractJson filename contractName = (t, Returned output)
    /\ ((truthy output.(errors) = false /\ own "errors" res' = own "errors" res)
        \/ (exists items,
               spread output.(errors) = Returned items
               /\ own "errors" res'
                  = Some (JArr (errorsOf res ++ items)%list))).
Proof.
  intros H. destruct (compileContract_inv _ _ _ _ _ _ _ H)
    as (output & r1 & Tr & W & C).
  exists output. split; [assumption |].
  assert (E : own "errors" r1 = own "errors" res).
  { apply errorsOf_path.
    apply (writeBytecode_other_member _ _ _ _ _ _ [] W). discriminate. }
  destruct (collectErrors_inv _ _ _ C) as [[F ->] | (_ & items & S & O & _)].
  - left. auto.
  - right. exists items. split; [assumption |].
    rewrite O. unfold errorsOf. now rewrite E.
Qed.

(** The two bytecodes of the contract are written where its record
    has objects for them. *)
Lemma compileContract_fields T filename contractName contractJson res t res'
      ob od :
  compileContract T filename contractName contractJson res = (t, Returned res') ->
  path_get (target filename contractName "bytecode") (Some res)
    = Returned (Some (JObj ob)) ->
  path_get (target filename contractName "deployedBytecode") (Some res)
    = Returned (Some (JObj od)) ->
  exists output x1 x2,
    transpileContract T contractJson filename contractName = (t, Returned output)
    /\ remove0x_js (js_or output.(bytecode) (Some (JStr ""))) = Returned x1
    /\ remove0x_js (js_or output.(deployedBytecode) (Some (JStr ""))) = Returned x2
    /\ path_get (field filename contractName "bytecode") (Some res')
       = Returned (Some x1)
    /\ path_get (field filename contractName "deployedBytecode") (Some res')
       = Returned (Some x2).
Proof.
  intros H Gb Gd. destruct (compileContract_inv _ _ _ _ _ _ _ H)
    as (output & r1 & Tr & W & C).
  destruct (writeBytecode_fields _ _ _ _ _ _ _ W Gb Gd)
    as (x1 & x2 & R1 & R2 & F1 & F2 & _).
  exists output, x1, x2. repeat (split; [assumption |]).
  unfold field in *.
  destruct (collectErrors_inv _ _ _ C) as [[_ ->] | (_ & items & _ & _ & O)];
    [auto |].
  rewrite !O by discriminate. auto.
Qed.

(* ================================================================== *)
(** ** The loops of compile                                            *)
(* ================================================================== *)

Lemma forEach_cons X S (x : X) xs body (s : S) t s' :
  forEach (x :: xs) body s = (t, Returned s') ->
  exists t1 s1 t2,
    body x s = (t1, Returned s1) /\ forEach xs body s1 = (t2, Returned s')
    /\ t = (t1 ++ t2)%list.
Proof.
  cbn [forEach]. intros H. apply bind_Returned in H.
  destruct H as (t1 & s1 & t2 & H1 & H2 & ->). eauto 10.
Qed.

Lemma forEach_split X S (pre : list X) x post body (s : S) t s' :
  forEach (pre ++ x :: post) body s = (t, Returned s') ->
  exists t1 s1 t2 s2 t3,
    forEach pre body s = (t1, Returned s1)
    /\ body x s1 = (t2, Returned s2)
    /\ forEach post body s2 = (t3, Returned s')
    /\ t = (t1 ++ t2 ++ t3)%list.
Proof.
  revert s t. induction pre as [| y pre IH]; intros s t H.
  - cbn [app] in H. apply forEach_cons in H.
    destruct H as (t2 & s2 & t3 & B & R & ->).
    exists [], s, t2, s2, t3. cbn. auto.
  - cbn [app] in H. apply forEach_cons in H.
    destruct H as (ty & sy & tr & B & R & ->).
    destruct (IH _ _ R) as (t1 & s1 & t2 & s2 & t3 & P & Bx & Q & ->).
    exists (ty ++ t1)%list, s1, t2, s2, t3.
    cbn [forEach]. rewrite B. cbn [bind]. rewrite P.
    rewrite List.app_assoc. auto.
Qed.

Lemma forEach_preserve X S (P : S -> Prop) (xs : list X) body s t s' :
  (forall x s t s', In x xs -> body x s = (t, Returned s') -> P s -> P s') ->
  forEach xs body s = (t, Returned s') -> P s -> P s'.
Proof.
  revert s t. induction xs as [| x xs IH]; intros s t Step H Ps.
  - cbn in H. injection H as _ <-. assumption.
  - apply forEach_cons in H. destruct H as (t1 & s1 & t2 & B & R & _).
    apply (IH s1 t2); [| assumption |].
    + intros y u tu u' I. apply Step. now right.
    + apply (Step x s t1 s1); [now left | assumption | assumption].
Qed.

Lemma forEach_trace X S (tr : X -> list event) (xs : list X) body (s : S) t s' :
  (forall x s t s', In x xs -> body x s = (t, Returned s') -> t = tr x) ->
  forEach xs body s = (t, Returned s') -> t = flat_map tr xs.
Proof.
  revert s t. induction xs as [| x xs IH]; intros s t Step H.
  - cbn in H. now injection H as <- _.
  - apply forEach_cons in H. destruct H as (t1 & s1 & t2 & B & R & ->).
    cbn [flat_map]. f_equal.
    + apply (Step x s t1 s1); [now left | assumption].
    + apply (IH s1 t2); [| assumption].
      intros y u tu u' I. apply Step. now right.
Qed.

(** A name that occurs once in a list of entries splits the list. *)
Lemma split_entry (es : list (string * json)) k v :
  NoDup (map fst es) -> In (k, v) es ->
  exists pre post,
    es = (pre ++ (k, v) :: post)%list
    /\ ~ In k (map fst pre) /\ ~ In k (map fst post).
Proof.
  intros N I. destruct (in_split _ _ I) as (pre & post & ->).
  exists pre, post. split; [reflexivity |].
  rewrite map_app in N. cbn [map fst] in N.
  apply NoDup_remove_2 in N. rewrite in_app_iff in N. tauto.
Qed.

Lemma compileContracts_cons T filename fileJson files res :
  compileContracts T ((filename, fileJson) :: files) res
  = bind (bind (lift (entries (Some fileJson)))
               (fun cs => contractsLoop T filename cs res))
         (compileContracts T files).
Proof. reflexivity. Qed.

Lemma compileContracts_file T files s t s' filename fileJson :
  In (filename, fileJson) files ->
  forall body,
    body = (fun '(filename, fileJson) res =>
              cs <~ lift (entries (Some fileJson)) ;;
              contractsLoop T filename cs res) ->
    body (filename, fileJson) s = (t, Returned s') ->
    exists cs, entries (Some fileJson) = Returned cs
               /\ contractsLoop T filename cs s = (t, Returned s').
Proof.
  intros _ body -> H. rewrite bind_lift in H.
  destruct (entries (Some fileJson)) as [cs | |]; try discriminate. eauto.
Qed.

Lemma contractsLoop_other T filename cs s t s' f0 c0 rest :
  contractsLoop T filename cs s = (t, Returned s') ->
  f0 <> filename \/ ~ In c0 (map fst cs) ->
  path_get ("contracts" :: f0 :: c0 :: rest) (Some s')
  = path_get ("contracts" :: f0 :: c0 :: rest) (Some s).
Proof.
  intros H N. unfold contractsLoop in H.
  refine (forEach_preserve _ _
            (fun u => path_get ("contracts" :: f0 :: c0 :: rest) (Some u)
                      = path_get ("contracts" :: f0 :: c0 :: rest) (Some s))
            _ _ _ _ _ _ H eq_refl).
  intros [c cj] u tu u' I B Pu. rewrite <- Pu.
  apply (compileContract_other _ _ _ _ _ _ _ _ _ _ B).
  destruct N as [N | N]; [now left | right].
  intros ->. apply N. apply (in_map fst) in I. exact I.
Qed.

Lemma compileContracts_other T files s t s' f0 c0 rest :
  compileContracts T files s = (t, Returned s') ->
  ~ In f0 (map fst files) ->
  path_get ("contracts" :: f0 :: c0 :: rest) (Some s')
  = path_get ("contracts" :: f0 :: c0 :: rest) (Some s).
Proof.
  intros H N. unfold compileContracts in H.
  refine (forEach_preserve _ _
            (fun u => path_get ("contracts" :: f0 :: c0 :: rest) (Some u)
                      = path_get ("contracts" :: f0 :: c0 :: rest) (Some s))
            _ _ _ _ _ _ H eq_refl).
  intros [f fj] u tu u' I B Pu. rewrite <- Pu.
  rewrite bind_lift in B.
  destruct (entries (Some fj)) as [cs | |]; try discriminate.
  apply (contractsLoop_other _ _ _ _ _ _ _ _ _ B). left.
  intros ->. apply N. apply (in_map fst) in I. exact I.
Qed.

(** After the loops, the two bytecodes of a contract are what
    [transpileContract] returned for it, [0x] taken off. *)
Lemma compileContracts_fields T files res t out f0 fj0 cs0 c0 cj0 ob od :
  compileContracts T files res = (t, Returned out) ->
  NoDup (map fst files) -> In (f0, fj0) files ->
  entries (Some fj0) = Returned cs0 ->
  NoDup (map fst cs0) -> In (c0, cj0) cs0 ->
  path_get (target f0 c0 "bytecode") (Some res) = Returned (Some (JObj ob)) ->
  path_get (target f0 c0 "deployedBytecode") (Some res)
    = Returned (Some (JObj od)) ->
  exists t0 output x1 x2,
    transpileContract T cj0 f0 c0 = (t0, Returned output)
    /\ remove0x_js (js_or output.(bytecode) (Some (JStr ""))) = Returned x1
    /\ remove0x_js (js_or output.(deployedBytecode) (Some (JStr ""))) = Returned x2
    /\ path_get (field f0 c0 "bytecode") (Some out) = Returned (Some x1)
    /\ path_get (field f0 c0 "deployedBytecode") (Some out) = Returned (Some x2).
Proof.
  intros H Nf If E Nc Ic Gb Gd.
  destruct (split_entry _ _ _ Nf If) as (fpre & fpost & -> & Npre & Npost).
  unfold compileContracts in H. apply forEach_split in H.
  destruct H as (t1 & s1 & t2 & s2 & t3 & Hpre & Hfile & Hpost & ->).
  fold (compileContracts T fpre res) in Hpre.
  fold (compileContracts T fpost s2) in Hpost.
  rewrite bind_lift, E in Hfile.
  destruct (split_entry _ _ _ Nc Ic) as (cpre & cpost & -> & Mpre & Mpost).
  unfold contractsLoop in Hfile. apply forEach_split in Hfile.
  destruct Hfile as (u1 & r1 & u2 & r2 & u3 & Cpre & Cstep & Cpost & ->).
  fold (contractsLoop T f0 cpre s1) in Cpre.
  fold (contractsLoop T f0 cpost r2) in Cpost.
  (* the record is untouched when its turn comes *)
  assert (Gb1 : path_get (target f0 c0 "bytecode") (Some r1)
                = Returned (Some (JObj ob))).
  { rewrite <- Gb. unfold target.
    rewrite (contractsLoop_other _ _ _ _ _ _ _ _ _ Cpre (or_intror Mpre)).
    apply (compileContracts_other _ _ _ _ _ _ _ _ Hpre Npre). }
  assert (Gd1 : path_get (target f0 c0 "deployedBytecode") (Some r1)
                = Returned (Some (JObj od))).
  { rewrite <- Gd. unfold target.
    rewrite (contractsLoop_other _ _ _ _ _ _ _ _ _ Cpre (or_intror Mpre)).
    apply (compileContracts_other _ _ _ _ _ _ _ _ Hpre Npre). }
  destruct (compileContract_fields _ _ _ _ _ _ _ _ _ Cstep Gb1 Gd1)
    as (output & x1 & x2 & Tr & R1 & R2 & F1 & F2).
  exists u2, output, x1, x2. repeat (split; [assumption |]).
  unfold field in *.
  rewrite !(compileContracts_other _ _ _ _ _ _ _ _ Hpost Npost).
  rewrite !(contractsLoop_other _ _ _ _ _ _ _ _ _ Cpost (or_intror Mpost)).
  auto.
Qed.

(* ================================================================== *)
(** ** formatOutput                                                    *)
(* ================================================================== *)

Lemma oforEach_preserve X S (P : S -> Prop) (xs : list X) body s s' :
  (forall x s s', In x xs -> body x s = Returned s' -> P s -> P s') ->
  oforEach xs body s = Returned s' -> P s -> P s'.
Proof.
  revert s. induction xs as [| x xs IH]; intros s Step H Ps.
  - cbn in H. injection H as <-. assumption.
  - cbn [oforEach] in H. apply obind_Returned in H.
    destruct H as (s1 & B & R).
    apply (IH s1); [| assumption |].
    + intros y u u' I. apply Step. now right.
    + apply (Step x s s1); [now left | assumption | assumption].
Qed.

Lemma oforEach_split X S (pre : list X) x post body (s s' : S) :
  oforEach (pre ++ x :: post) body s = Returned s' ->
  exists s1 s2,
    oforEach pre body s = Returned s1 /\ body x s1 = Returned s2
    /\ oforEach post body s2 = Returned s'.
Proof.
  revert s. induction pre as [| y pre IH]; intros s H.
  - cbn [app oforEach] in H. apply obind_Returned in H.
    destruct H as (s2 & B & R). exists s, s2. cbn. auto.
  - cbn [app oforEach] in H. apply obind_Returned in H.
    destruct H as (sy & B & R).
    destruct (IH _ R) as (s1 & s2 & P & Bx & Q).
    exists s1, s2. cbn [oforEach]. rewrite B. cbn [obind]. auto.
Qed.

(** The loop body either leaves the output as it is or deletes the
    [legacyAssembly] of the contract. *)
Lemma formatContract_inv inputConfig filename contractName s s' :
  formatContract inputConfig filename contractName s = Returned s' ->
  s' = s
  \/ update ["contracts"; filename; contractName; "evm"]
            (delete "legacyAssembly") (Some s) = Returned s'.
Proof.
  unfold formatContract. intros H.
  repeat (apply obind_Returned in H; destruct H as (? & _ & H)).
  destruct (negb _).
  - apply obind_Returned in H. destruct H as (? & _ & H).
    destruct (negb _); [now right | left; congruence].
  - left. congruence.
Qed.

(** Nothing but [legacyAssembly] members is touched. *)
Lemma formatContract_member inputConfig filename contractName s s' k rest :
  formatContract inputConfig filename contractName s = Returned s' ->
  k <> "contracts" ->
  path_get (k :: rest) (Some s') = path_get (k :: rest) (Some s).
Proof.
  intros H N. destruct (formatContract_inv _ _ _ _ _ H) as [-> | U];
    [reflexivity |].
  assert ("contracts" <> k) by congruence. apart U.
Qed.

Lemma formatContract_evm inputConfig filename contractName s s' f0 c0 m rest :
  formatContract inputConfig filename contractName s = Returned s' ->
  m <> "legacyAssembly" ->
  path_get ("contracts" :: f0 :: c0 :: "evm" :: m :: rest) (Some s')
  = path_get ("contracts" :: f0 :: c0 :: "evm" :: m :: rest) (Some s).
Proof.
  intros H N. destruct (formatContract_inv _ _ _ _ _ H) as [-> | U];
    [reflexivity |].
  destruct (string_dec filename f0) as [-> | D]; [| apart U].
  destruct (string_dec contractName c0) as [-> | D]; [| apart U].
  apply (update_preserves ["contracts"; f0; c0; "evm"] _ m rest _ _ U).
  apply preserves_delete. congruence.
Qed.

Lemma formatted_preserve (P : json -> Prop) transpiledOutput inputConfig out :
  (forall filename contractName s s',
      formatContract inputConfig filename contractName s = Returned s' ->
      P s -> P s') ->
  formatted transpiledOutput inputConfig = Returned out ->
  P transpiledOutput -> P out.
Proof.
  intros Step H. unfold formatted in H.
  apply obind_Returned in H. destruct H as (contracts & _ & H).
  apply obind_Returned in H. destruct H as (files & _ & H).
  revert H. apply oforEach_preserve.
  intros [f fj] s s' _ B. apply obind_Returned in B.
  destruct B as (cs & _ & B). revert B. apply oforEach_preserve.
  intros [c cj] u u' _. apply Step.
Qed.

Lemma formatted_member transpiledOutput inputConfig out k rest :
  formatted transpiledOutput inputConfig = Returned out ->
  k <> "contracts" ->
  path_get (k :: rest) (Some out) = path_get (k :: rest) (Some transpiledOutput).
Proof.
  intros H N.
  refine (formatted_preserve
           (fun s => path_get (k :: rest) (Some s)
                     = path_get (k :: rest) (Some transpiledOutput))
           _ _ _ _ H eq_refl).
  intros f c s s' B <-. now apply (formatContract_member _ _ _ _ _ _ _ B).
Qed.

Lemma formatted_evm transpiledOutput inputConfig out f0 c0 m rest :
  formatted transpiledOutput inputConfig = Returned out ->
  m <> "legacyAssembly" ->
  path_get ("contracts" :: f0 :: c0 :: "evm" :: m :: rest) (Some out)
  = path_get ("contracts" :: f0 :: c0 :: "evm" :: m :: rest)
             (Some transpiledOutput).
Proof.
  intros H N.
  refine (formatted_preserve
           (fun s => path_get ("contracts" :: f0 :: c0 :: "evm" :: m :: rest)
                              (Some s)
                     = path_get ("contracts" :: f0 :: c0 :: "evm" :: m :: rest)
                                (Some transpiledOutput))
           _ _ _ _ H eq_refl).
  intros f c s s' B <-. now apply (formatContract_evm _ _ _ _ _ _ _ _ _ B).
Qed.

(** What [update] left at the end of the path, when that is an object
    or an array, is what [f] made of what was there. *)
Lemma update_target_back p f v v' t' :
  update p f v = Returned v' ->
  path_get p (Some v') = Returned (Some t') -> compound t' = true ->
  exists t, path_get p v = Returned t /\ f t = Returned t'.
Proof.
  revert v v'. induction p as [| k p IH]; intros v v' H G C.
  - cbn in G. injection G as <-. cbn in H. exists v. auto.
  - cbn [update] in H.
    destruct v as [[| b | n | s | l | o] |]; try discriminate;
      apply obind_Returned in H; destruct H as (x & U & E);
      injection E as <-.
    1-3: exfalso;
      match type of G with
      | path_get ?q (Some ?j) = _ =>
          pose proof (path_get_scalar q j _ eq_refl G)
      end; congruence.
    + cbn [path_get get obind] in G |- *. cbn [own] in G.
      rewrite put_elem_length in G.
      cbn [own] in U |- *.
      destruct (String.eqb k "length").
      * exfalso.
        match type of G with
        | path_get ?q (Some ?j) = _ =>
            pose proof (path_get_scalar q j _ eq_refl G)
        end. congruence.
      * rewrite elem_from_put_elem_same in G.
        destruct (elem_from 0 k l) as [y |];
          [now apply (IH _ _ U) | destruct p; cbn in G; discriminate].
    + cbn [path_get get obind own] in G |- *. rewrite assoc_put_same in G.
      now apply (IH _ _ U).
Qed.

(** After [delete v.p1...pn.k], there is no value under the name. *)
Lemma update_delete p k v v' x :
  named k = true -> String.eqb k "length" = false ->
  update p (delete k) v = Returned v' ->
  path_get (p ++ [k]) (Some v') <> Returned (Some x).
Proof.
  intros N L U G. rewrite path_get_app in G.
  apply obind_Returned in G. destruct G as (t' & Gp & Gk).
  cbn [path_get] in Gk. apply obind_Returned in Gk.
  destruct Gk as (y & Gk & E). injection E as ->.
  destruct t' as [j' |]; [| discriminate Gk].
  assert (O : own k j' = Some x)
    by (destruct j'; cbn [get] in Gk; try discriminate Gk; congruence).
  destruct (own_named _ _ _ N L O) as (o' & -> & A).
  destruct (update_target_back _ _ _ _ _ U Gp eq_refl) as (t & _ & D).
  destruct t as [[| b | n | s | l | o] |]; cbn in D; try discriminate.
  injection D as <-. rewrite assoc_remove_same in A. discriminate.
Qed.

Lemma checkFiles_ok outputSelection es :
  checkFiles outputSelection es = Returned None ->
  forall k v, In (k, v) es ->
    typeof_object (Some v) = true /\ isArray (Some v) = false
    /\ exists fc vs,
         get k outputSelection = Returned fc /\ values fc = Returned vs
         /\ forallb (fun c => isArray (Some c)) vs = true.
Proof.
  induction es as [| [k0 v0] es IH]; intros H k v I; [contradiction |].
  cbn [checkFiles] in H.
  destruct (typeof_object (Some v0)) eqn:Ty, (isArray (Some v0)) eqn:Ar;
    cbn [negb orb] in H; try discriminate.
  apply obind_Returned in H. destruct H as (fc & Hg & H).
  apply obind_Returned in H. destruct H as (vs & Hv & H).
  destruct (forallb _ vs) eqn:Fa; [| discriminate].
  destruct I as [[= <- <-] | I]; [| now apply IH].
  repeat split; auto. eauto.
Qed.

(** What passed [getInputErrors] has a selection that passed
    [checkFiles]. *)
Lemma getInputErrors_selection json :
  getInputErrors json = Returned None ->
  exists outputSelection es,
    path_get ["settings"; "outputSelection"] (Some json)
      = Returned outputSelection
    /\ entries outputSelection = Returned es
    /\ checkFiles outputSelection es = Returned None.
Proof.
  unfold getInputErrors. intros H.
  apply obind_Returned in H. destruct H as (settings & Hs & H).
  destruct (negb (truthy settings) || negb (typeof_object settings))%bool;
    [discriminate |].
  apply obind_Returned in H. destruct H as (a & _ & H).
  destruct (_ || _)%bool; [discriminate |].
  apply obind_Returned in H. destruct H as (os & Ho & H).
  destruct (_ || _)%bool; [discriminate |].
  apply obind_Returned in H. destruct H as (es & He & H).
  destruct (_ =? _)%nat; [discriminate |].
  exists os, es. cbn [path_get]. rewrite Hs. cbn [obind]. rewrite Ho. auto.
Qed.

Lemma get_dyn_own k v x :
  get_dyn inherited k v = Returned x ->
  match x with
  | Some y => exists j, v = Some j /\ own k j = Some y
  | None => True
  end.
Proof.
  destruct v as [[| b | n | s | l | o] |]; cbn [get_dyn]; try discriminate.
  all: match goal with
       | |- context [own ?k ?j] => destruct (own k j) eqn:E
       end;
    try (destruct (inherited _ _)); intros [= <-]; eauto.
Qed.

(** The selection made for a contract by a configuration that passed
    [getInputErrors] is an array, if it is anything. *)
Lemma outputConfigFor_array json filename contractName outputConfig :
  getInputErrors json = Returned None ->
  outputConfigFor json filename contractName = Returned (Some outputConfig) ->
  exists l, outputConfig = JArr l.
Proof.
  intros V H. destruct (getInputErrors_selection _ V) as (os & es & Ho & He & Hc).
  unfold outputConfigFor in H. rewrite Ho in H. cbn [obind] in H.
  apply obind_Returned in H. destruct H as (inFile & _ & H).
  apply obind_Returned in H. destruct H as (fs & Hf & H).
  apply obind_Returned in H. destruct H as (inContract & Hh & H).
  (* the file selection is an entry, hence an object of arrays *)
  destruct fs as [x |]; [| discriminate Hh].
  assert (C : compound x = true)
    by (destruct x; cbn in Hh; try discriminate; reflexivity).
  destruct (get_dyn_own _ _ _ Hf) as (j & -> & O).
  destruct (own_entries _ _ _ O C) as (_ & es' & He' & I).
  rewrite He in He'. injection He' as <-.
  destruct (checkFiles_ok _ _ Hc _ _ I) as (Ty & Ar & fc & vs & Hg & Hv & Fa).
  assert (fc = Some x).
  { destruct j; cbn [get] in Hg; try discriminate; congruence. }
  subst fc.
  destruct x as [| b | n | s | l | o]; try discriminate.
  cbn in Hv. injection Hv as <-.
  destruct (get_dyn_own _ _ _ H) as (j' & [= <-] & O').
  cbn [own] in O'. apply assoc_In in O'. apply (in_map snd) in O'.
  rewrite forallb_forall in Fa. specialize (Fa _ O').
  destruct outputConfig; try discriminate. eauto.
Qed.

(** With such a configuration the loop body deletes, whatever the
    selection lists: the names it looks for are names of no element
    of an array. *)
Lemma formatContract_deletes json filename contractName s s' :
  getInputErrors json = Returned None ->
  formatContract json filename contractName s = Returned s' ->
  update ["contracts"; filename; contractName; "evm"]
         (delete "legacyAssembly") (Some s) = Returned s'.
Proof.
  intros V H. unfold formatContract in H.
  apply obind_Returned in H. destruct H as (oc & Ho & H).
  destruct oc as [oc |]; [| discriminate H].
  destruct (outputConfigFor_array _ _ _ _ V Ho) as [l ->].
  cbn [has obind own] in H.
  rewrite !elem_from_named in H by reflexivity.
  exact H.
Qed.

(** A [legacyAssembly] that is gone does not come back. *)
Lemma formatContract_keeps_none inputConfig filename contractName s s' f0 c0 :
  formatContract inputConfig filename contractName s = Returned s' ->
  no_legacyAssembly s f0 c0 -> no_legacyAssembly s' f0 c0.
Proof.
  intros H L x. destruct (formatContract_inv _ _ _ _ _ H) as [-> | U];
    [apply L |].
  destruct (string_dec filename f0) as [-> | D];
    [| replace (path_get _ (Some s')) with
         (path_get ["contracts"; f0; c0; "evm"; "legacyAssembly"] (Some s))
         by (symmetry; apart U); apply L].
  destruct (string_dec contractName c0) as [-> | D];
    [| replace (path_get _ (Some s')) with
         (path_get ["contracts"; f0; c0; "evm"; "legacyAssembly"] (Some s))
         by (symmetry; apart U); apply L].
  apply (update_delete ["contracts"; f0; c0; "evm"] "legacyAssembly" _ _ x
           eq_refl eq_refl U).
Qed.

Lemma formatted_keeps_none transpiledOutput inputConfig out f0 c0 :
  formatted transpiledOutput inputConfig = Returned out ->
  no_legacyAssembly transpiledOutput f0 c0 -> no_legacyAssembly out f0 c0.
Proof.
  intros H.
  refine (formatted_preserve (fun s => no_legacyAssembly s f0 c0) _ _ _ _ H).
  intros f c s s'. apply formatContract_keeps_none.
Qed.

(** The contracts the loops of [formatOutput] go through have none
    afterwards. *)
Lemma formatted_visited json transpiledOutput out contracts files
      filename fileObj cs contractName contractObj :
  getInputErrors json = Returned None ->
  formatted transpiledOutput json = Returned out ->
  get "contracts" (Some transpiledOutput) = Returned contracts ->
  entries contracts = Returned files ->
  In (filename, fileObj) files ->
  entries (Some fileObj) = Returned cs ->
  In (contractName, contractObj) cs ->
  no_legacyAssembly out filename contractName.
Proof.
  intros V H Hg He If Ec Ic. unfold formatted in H.
  rewrite Hg in H. cbn [obind] in H. rewrite He in H. cbn [obind] in H.
  assert (Keep : forall fs s s',
             oforEach fs (fun '(filename, fileObj) out =>
               cs <- entries (Some fileObj) ;;
               oforEach cs (fun '(contractName, _) out =>
                 formatContract json filename contractName out) out) s
             = Returned s' ->
             no_legacyAssembly s filename contractName ->
             no_legacyAssembly s' filename contractName).
  { intros fs s s' B.
    refine (oforEach_preserve _ _
              (fun u => no_legacyAssembly u filename contractName)
              _ _ _ _ _ B).
    intros [f fj] u u' _ B'. apply obind_Returned in B'.
    destruct B' as (cs' & _ & B').
    refine (oforEach_preserve _ _
              (fun u => no_legacyAssembly u filename contractName)
              _ _ _ _ _ B').
    intros [c cj] w w' _. apply formatContract_keeps_none. }
  destruct (in_split _ _ If) as (fpre & fpost & ->).
  apply oforEach_split in H. destruct H as (s1 & s2 & _ & Hfile & Hpost).
  apply (Keep _ _ _ Hpost). clear Keep Hpost.
  rewrite Ec in Hfile. cbn [obind] in Hfile.
  destruct (in_split _ _ Ic) as (cpre & cpost & ->).
  apply oforEach_split in Hfile.
  destruct Hfile as (r1 & r2 & _ & Cstep & Cpost).
  refine (oforEach_preserve _ _
            (fun u => no_legacyAssembly u filename contractName)
            _ _ _ _ _ Cpost _).
  - intros [c cj] w w' _. apply formatContract_keeps_none.
  - intros x. apply formatContract_deletes in Cstep; [| assumption].
    apply (update_delete ["contracts"; filename; contractName; "evm"]
             "legacyAssembly" _ _ x eq_refl eq_refl Cstep).
Qed.

(** A value under [contracts[f][c].evm.legacyAssembly] belongs to a
    contract the loops go through. *)
Lemma legacyAssembly_entry s filename contractName x :
  path_get ["contracts"; filename; contractName; "evm"; "legacyAssembly"]
           (Some s) = Returned (Some x) ->
  exists contracts files fileObj cs contractObj,
    get "contracts" (Some s) = Returned contracts
    /\ entries contracts = Returned files
    /\ In (filename, fileObj) files
    /\ entries (Some fileObj) = Returned cs
    /\ In (contractName, contractObj) cs.
Proof.
  intros H. cbn [path_get] in H.
  apply obind_Returned in H. destruct H as (cv & Hc & H).
  apply obind_Returned in H. destruct H as (fv & Hf & H).
  apply obind_Returned in H. destruct H as (cjv & Hj & H).
  apply obind_Returned in H. destruct H as (ev & Hev & H).
  apply obind_Returned in H. destruct H as (lv & Hl & E). injection E as ->.
  assert (Own : forall k v y,
             get k v = Returned (Some y) -> exists j, v = Some j /\ own k j = Some y).
  { intros k [[| | | | |] |] y G; cbn [get] in G; try discriminate;
      injection G as G; eauto. }
  destruct (Own _ _ _ Hl) as (e & -> & Ol).
  destruct (own_named "legacyAssembly" _ _ eq_refl eq_refl Ol) as (oe & -> & _).
  destruct (Own _ _ _ Hev) as (cj & -> & Oe).
  destruct (own_named "evm" _ _ eq_refl eq_refl Oe) as (oc & -> & _).
  destruct (Own _ _ _ Hj) as (fj & -> & Oc).
  destruct (own_entries _ _ _ Oc eq_refl) as (Cf & cs & Ec & Ic).
  destruct (Own _ _ _ Hf) as (cvj & -> & Of).
  destruct (own_entries _ _ _ Of Cf) as (_ & files & Ef & If).
  exists (Some cvj), files, fj, cs, (JObj oc). auto.
Qed.

Lemma formatted_no_legacyAssembly json transpiledOutput out filename contractName :
  getInputErrors json = Returned None ->
  formatted transpiledOutput json = Returned out ->
  no_legacyAssembly out filename contractName.
Proof.
  intros V H.
  destruct (path_get ["contracts"; filename; contractName; "evm";
                      "legacyAssembly"] (Some transpiledOutput))
    as [[x |] | |] eqn:G.
  - destruct (legacyAssembly_entry _ _ _ _ G)
      as (contracts & files & fj & cs & cj & Hg & He & If & Ec & Ic).
    now apply (formatted_visited _ _ _ _ _ _ _ _ _ _ V H Hg He If Ec Ic).
  - apply (formatted_keeps_none _ _ _ _ _ H). intros x. rewrite G. discriminate.
  - apply (formatted_keeps_none _ _ _ _ _ H). intros x. rewrite G. discriminate.
  - apply (formatted_keeps_none _ _ _ _ _ H). intros x. rewrite G. discriminate.
Qed.


(* ================================================================== *)
(** ** The run of compile                                              *)
(* ================================================================== *)

Lemma getInputErrors_address json :
  getInputErrors json = Returned None ->
  exists a, getExecutionManagerAddress json = Returned a.
Proof.
  unfold getInputErrors. intros H.
  apply obind_Returned in H. destruct H as (settings & _ & H).
  destruct (negb (truthy settings) || negb (typeof_object settings))%bool;
    [discriminate |].
  apply obind_Returned in H. destruct H as (a & Ha & _). eauto.
Qed.

Lemma compile_transpiling configJsonString callbacks json solcConfig res files :
  transpiling configJsonString callbacks json solcConfig res files ->
  compile configJsonString callbacks
  = bind (emit (SolcCompile solcConfig))
         (fun _ => bind (compileContracts (transpilerFor json) files res)
                        (fun res' => lift (formatOutput res' json))).
Proof.
  intros (Hp & Hi & Hc & Hr & He & contracts & Hg & Hf).
  destruct (getInputErrors_address _ Hi) as [a Ha].
  unfold compile, transpilerFor, solc. rewrite Hp, Hi, Hc, Ha.
  rewrite !bind_lift. cbn [option_map truthy].
  unfold emit, ret. cbn [bind app]. rewrite Hr.
  rewrite ?bind_lift, He. rewrite ?bind_lift, Hg.
  rewrite ?bind_lift, Hf. reflexivity.
Qed.

Lemma compile_returned configJsonString callbacks json solcConfig res files tr s :
  transpiling configJsonString callbacks json solcConfig res files ->
  compile configJsonString callbacks = (tr, Returned s) ->
  exists t res' out,
    tr = SolcCompile solcConfig :: t
    /\ compileContracts (transpilerFor json) files res = (t, Returned res')
    /\ formatted res' json = Returned out
    /\ s = JSON_stringify out.
Proof.
  intros R H. rewrite (compile_transpiling _ _ _ _ _ _ R) in H.
  rewrite bind_emit in H. injection H as <- H.
  destruct (bind _ _) as [t r] eqn:B. cbn [fst snd] in *. subst r.
  apply bind_Returned in B. destruct B as (t1 & res' & t2 & L & F & ->).
  apply lift_Returned in F. destruct F as [F ->].
  unfold formatOutput in F. apply obind_Returned in F.
  destruct F as (out & F & E). injection E as <-.
  exists t1, res', out. rewrite List.app_nil_r. auto.
Qed.

Lemma transpileContract_inv T contractSolcOutput filename contractName t output :
  transpileContract T contractSolcOutput filename contractName
    = (t, Returned output) ->
  transpiled T filename contractName t output.
Proof.
  unfold transpileContract, transpileDeployed.
  destruct (path_get _ _) as [object | |]; run_M; try discriminate.
  destruct (hexStrToBuf_js object) as [original | |]; run_M; try discriminate.
  destruct (getBytecode contractSolcOutput false) as [code | |];
    run_M; try discriminate.
  destruct (getBytecode contractSolcOutput true) as [deployed | |];
    run_M; try discriminate.
  destruct (truthy code) eqn:Tc, (truthy deployed) eqn:Td;
    run_M; try discriminate.
  - destruct code as [[| | | c | |] |]; run_M; try discriminate.
    destruct deployed as [[| | | d | |] |]; run_M; try discriminate.
    destruct (transpile _ _ _) eqn:E1.
    + run_M. destruct (transpileRawBytecode _) eqn:E2; cbn;
        intros [= <- <-]; econstructor; eassumption.
    + cbn. intros [= <- <-]. econstructor; eassumption.
  - destruct code as [[| | | c | |] |]; run_M; try discriminate.
    destruct deployed as [[| | | d | |] |]; run_M; try discriminate.
    destruct (transpile _ _ _) eqn:E1; cbn; intros [= <- <-].
    + now apply constructor_only.
    + now apply constructor_rejected.
  - destruct deployed as [[| | | d | |] |]; run_M; try discriminate.
    destruct (transpileRawBytecode _) eqn:E2; cbn; intros [= <- <-].
    + now apply deployed_only.
    + now apply deployed_rejected.
  - cbn. intros [= <- <-]. constructor.
Qed.

(* ================================================================== *)
(** ** Hexadecimal strings                                             *)
(* ================================================================== *)

Lemma substring_all s : String.substring 0 (String.length s) s = s.
Proof. induction s as [| c s IH]; cbn; congruence. Qed.

Lemma remove0x_bufToHexString b : remove0x (bufToHexString b) = hex b.
Proof.
  unfold remove0x, bufToHexString. cbn [append String.prefix].
  destruct (ascii_dec "0" "0"); [| contradiction].
  destruct (ascii_dec "x" "x"); [| contradiction].
  cbn [String.prefix String.length Nat.sub String.substring].
  rewrite Nat.sub_0_r.
  replace (String.prefix "" (hex b)) with true by now destruct (hex b).
  apply substring_all.
Qed.

Lemma hex_digit_hex n : hex_char (hex_digit n) = true.
Proof.
  destruct n as [| p]; [reflexivity |].
  do 4 (try destruct p as [p | p |]); reflexivity.
Qed.

Lemma hex_all_hex b : all_hex (hex b) = true.
Proof.
  induction b as [| x b IH]; cbn [hex all_hex]; [reflexivity |].
  now rewrite !hex_digit_hex, IH.
Qed.

Lemma all_hex_no_prefix s : all_hex s = true -> String.prefix "0x" s = false.
Proof.
  destruct s as [| a [| b r]]; cbn [all_hex String.prefix]; try reflexivity.
  - intros _. destruct (ascii_dec "0" a); reflexivity.
  - intros H. destruct (ascii_dec "0" a); [| reflexivity].
    destruct (ascii_dec "x" b) as [<- |]; [| reflexivity].
    apply andb_prop in H. destruct H as [_ H].
    apply andb_prop in H. destruct H as [H _]. discriminate.
Qed.

Lemma remove0x_empty : remove0x_js (js_or None (Some (JStr ""))) = Returned (JStr "").
Proof. reflexivity. Qed.

(* ================================================================== *)
(** ** The batch                                                       *)
(* ================================================================== *)

Lemma getBytecode_defined contractSolcOutput isDeployed x :
  getBytecode contractSolcOutput isDeployed = Returned (Some x) ->
  exists code,
    path_get ["evm"; member isDeployed; "object"] (Some contractSolcOutput)
    = Returned (Some code).
Proof.
  unfold getBytecode. fold (member isDeployed).
  destruct (path_get _ _) as [[code |] | |]; cbn [obind orUndefined];
    try discriminate; [eauto |].
  destruct (getAuxData contractSolcOutput) as [aux | |];
    cbn [obind orUndefined]; try discriminate.
  destruct (truthy aux); discriminate.
Qed.

Lemma transpileContract_object T contractSolcOutput filename contractName e :
  In e (fst (transpileContract T contractSolcOutput filename contractName)) ->
  exists s,
    path_get ["evm"; "bytecode"; "object"] (Some contractSolcOutput)
    = Returned (Some (JStr s)).
Proof.
  unfold transpileContract.
  destruct (path_get _ _) as [object | |]; run_M; try contradiction.
  destruct object as [[| | | s | |] |]; run_M; try contradiction. eauto.
Qed.

(** A contract for which the transpiler was called keeps both
    bytecodes in objects. *)
Lemma called_targets T contractSolcOutput filename contractName :
  fst (transpileContract T contractSolcOutput filename contractName) <> [] ->
  exists ob od,
    path_get ["evm"; "bytecode"] (Some contractSolcOutput)
      = Returned (Some (JObj ob))
    /\ path_get ["evm"; "deployedBytecode"] (Some contractSolcOutput)
       = Returned (Some (JObj od)).
Proof.
  intros N.
  destruct (fst (transpileContract T contractSolcOutput filename contractName))
    as [| e t] eqn:E; [contradiction |].
  assert (I : In e (fst (transpileContract T contractSolcOutput filename
                                           contractName)))
    by (rewrite E; now left).
  destruct (transpileContract_object _ _ _ _ _ I) as [s Ho].
  destruct (object_holder ["evm"; "bytecode"] _ _ Ho) as [ob Gb].
  assert (D : exists d, getBytecode contractSolcOutput true
                        = Returned (Some (JStr d))).
  { destruct (transpileContract_calls _ _ _ _ _ I)
      as [(c & d & n & _ & D & _) | (d & D & _)]; eauto. }
  destruct D as [d D]. destruct (getBytecode_defined _ _ _ D) as [code Hd].
  destruct (object_holder ["evm"; "deployedBytecode"] _ _ Hd) as [od Gd].
  eauto.
Qed.

Lemma the_contract_lookup res contracts files filename contractName contractJson rest :
  get "contracts" (Some res) = Returned contracts ->
  entries contracts = Returned files ->
  the_contract files filename contractName contractJson ->
  path_get ("contracts" :: filename :: contractName :: rest) (Some res)
  = path_get rest (Some contractJson).
Proof.
  intros Hg He (fj & cs & If & Ec & Ic & Nf & Nc).
  cbn [path_get]. rewrite Hg. cbn [obind].
  rewrite (entry_lookup _ _ _ _ He Nf If). cbn [obind].
  rewrite (entry_lookup _ _ _ _ Ec Nc Ic). reflexivity.
Qed.

(** What [compile] returns holds, for a contract the transpiler was
    called for, the two bytecodes [transpileContract] returned, the
    prefix [0x] taken off. *)
Lemma compile_fields configJsonString callbacks json solcConfig res files tr s
      filename contractName contractJson :
  transpiling configJsonString callbacks json solcConfig res files ->
  compile configJsonString callbacks = (tr, Returned s) ->
  the_contract files filename contractName contractJson ->
  fst (transpileContract (transpilerFor json) contractJson filename contractName)
    <> [] ->
  exists out t0 output x1 x2,
    s = JSON_stringify out
    /\ transpileContract (transpilerFor json) contractJson filename contractName
       = (t0, Returned output)
    /\ remove0x_js (js_or output.(bytecode) (Some (JStr ""))) = Returned x1
    /\ remove0x_js (js_or output.(deployedBytecode) (Some (JStr ""))) = Returned x2
    /\ path_get (field filename contractName "bytecode") (Some out)
       = Returned (Some x1)
    /\ path_get (field filename contractName "deployedBytecode") (Some out)
       = Returned (Some x2).
Proof.
  intros R H C N.
  destruct (compile_returned _ _ _ _ _ _ _ _ R H)
    as (t & res' & out & -> & L & F & ->).
  destruct R as (_ & _ & _ & _ & _ & contracts & Hg & He).
  destruct (called_targets _ _ _ _ N) as (ob & od & Gb & Gd).
  pose proof (the_contract_lookup _ _ _ _ _ _ ["evm"; "bytecode"] Hg He C) as Pb.
  pose proof (the_contract_lookup _ _ _ _ _ _ ["evm"; "deployedBytecode"]
                Hg He C) as Pd.
  rewrite Gb in Pb. rewrite Gd in Pd.
  destruct C as (fj & cs & If & Ec & Ic & Nf & Nc).
  destruct (compileContracts_fields _ _ _ _ _ _ _ _ _ _ _ _
              L Nf If Ec Nc Ic Pb Pd)
    as (t0 & output & x1 & x2 & Tr & R1 & R2 & F1 & F2).
  exists out, t0, output, x1, x2. repeat (split; [assumption || reflexivity |]).
  unfold field in *.
  rewrite !(formatted_evm _ _ _ _ _ _ _ F) by discriminate. auto.
Qed.

(** C1.  When the transpilation of a contract records an error,
    [transpileContract] returns the error list and nothing else, and
    in what [compile] returns the constructor bytecode and the
    deployed bytecode of the contract are both the empty string. *)
Theorem rejected_contract_has_no_bytecode
    configJsonString callbacks json solcConfig res files tr s
    filename contractName contractJson :
  transpiling configJsonString callbacks json solcConfig res files ->
  compile configJsonString callbacks = (tr, Returned s) ->
  the_contract files filename contractName contractJson ->
  records_error (transpilerFor json) contractJson filename contractName ->
  (exists t0 errs isDeployed,
      transpileContract (transpilerFor json) contractJson filename contractName
      = (t0, Returned (rejection (getSolcErrorsFromTranspilerErrors
                                    errs filename contractName isDeployed))))
  /\ exists out,
       s = JSON_stringify out
       /\ path_get (field filename contractName "bytecode") (Some out)
          = Returned (Some (JStr ""))
       /\ path_get (field filename contractName "deployedBytecode") (Some out)
          = Returned (Some (JStr "")).
Proof.
  intros R H C (e & errs & I & A).
  assert (N : fst (transpileContract (transpilerFor json) contractJson
                                     filename contractName) <> [])
    by (intros E; rewrite E in I; contradiction).
  destruct (compile_fields _ _ _ _ _ _ _ _ _ _ _ R H C N)
    as (out & t0 & output & x1 & x2 & -> & Tr & R1 & R2 & F1 & F2).
  rewrite Tr in I. cbn [fst] in I.
  assert (Rej : exists errs' isD,
             output = rejection (getSolcErrorsFromTranspilerErrors
                                   errs' filename contractName isD)).
  { destruct (transpileContract_inv _ _ _ _ _ _ Tr); cbn [In] in I;
      try contradiction; eauto.
    all: repeat match goal with
           | I : _ \/ _ |- _ => destruct I as [<- | I]
           | I : False |- _ => contradiction
           end; cbn [answer] in A; congruence. }
  destruct Rej as (errs' & isD & ->). split; [eauto |].
  cbn in R1, R2. injection R1 as <-. injection R2 as <-.
  exists out. auto.
Qed.

(** C8.  When the transpilation of a contract succeeds, what [compile]
    returns holds for the contract, under [evm.bytecode.object] and
    [evm.deployedBytecode.object], the transpiled constructor bytecode
    and the transpiled deployed bytecode, each as the string of its
    hexadecimal digits: a string of hexadecimal digits only, which
    does not start with [0x].  A bytecode the transpiler was not
    called for is the empty string. *)
Theorem transpiled_bytecode_is_returned_as_hex
    configJsonString callbacks json solcConfig res files tr s
    filename contractName contractJson :
  transpiling configJsonString callbacks json solcConfig res files ->
  compile configJsonString callbacks = (tr, Returned s) ->
  the_contract files filename contractName contractJson ->
  succeeds (transpilerFor json) contractJson filename contractName ->
  let T := transpilerFor json in
  let t0 := fst (transpileContract T contractJson filename contractName) in
  exists out code deployed,
    s = JSON_stringify out
    /\ path_get (field filename contractName "bytecode") (Some out)
       = Returned (Some (JStr code))
    /\ path_get (field filename contractName "deployedBytecode") (Some out)
       = Returned (Some (JStr deployed))
    /\ (forall b d size,
           In (Transpile b d size) t0 ->
           exists b', transpile b d size = Successful b' /\ code = hex b')
    /\ ((forall b d size, ~ In (Transpile b d size) t0) -> code = EmptyString)
    /\ (forall d,
           In (TranspileRawBytecode d) t0 ->
           exists d', transpileRawBytecode d = Successful d' /\ deployed = hex d')
    /\ ((forall d, ~ In (TranspileRawBytecode d) t0) -> deployed = EmptyString)
    /\ all_hex code = true /\ String.prefix "0x" code = false
    /\ all_hex deployed = true /\ String.prefix "0x" deployed = false.
Proof.
  intros R H C [N All] T t0.
  destruct (compile_fields _ _ _ _ _ _ _ _ _ _ _ R H C N)
    as (out & t1 & output & x1 & x2 & -> & Tr & R1 & R2 & F1 & F2).
  fold T in Tr, All. subst t0. rewrite Tr in *. cbn [fst] in *.
  assert (Falsy : forall v, truthy v = false ->
                    remove0x_js (js_or v (Some (JStr ""))) = Returned (JStr "")).
  { intros v F. unfold js_or. now rewrite F. }
  assert (Hex : forall b,
             remove0x_js (js_or (Some (JStr (bufToHexString b)))
                                (Some (JStr "")))
             = Returned (JStr (hex b))).
  { intros b. unfold js_or.
    replace (truthy (Some (JStr (bufToHexString b)))) with true by reflexivity.
    cbn [remove0x_js]. now rewrite remove0x_bufToHexString. }
  assert (Ok : forall e errs, In e t1 -> answer T e <> Some (Errored errs)).
  { intros e errs I A. destruct (All e I) as [b B]. congruence. }
  destruct (transpileContract_inv _ _ _ _ _ _ Tr)
    as [output
       | b d size errs E1
       | b d size b' dc E1 Fd
       | b d size b' d0 errs E1 E2
       | b d size b' d0 d' E1 E2
       | d0 errs E2
       | bc d0 d' E2 Fb].
  - exfalso. apply N. fold T. now rewrite Tr.
  - exfalso. apply (Ok (Transpile b d size) errs); [now left | cbn; congruence].
  - cbn [bytecode deployedBytecode] in R1, R2.
    rewrite Hex in R1. rewrite (Falsy _ Fd) in R2.
    injection R1 as <-. injection R2 as <-.
    exists out, (hex b'), EmptyString.
    repeat split; auto using hex_all_hex, all_hex_no_prefix.
    + intros b0 d1 n [[= <- <- <-] | []]. eauto.
    + intros Hn. exfalso. apply (Hn b d size). now left.
    + intros d1 [[=] | []].
  - exfalso. apply (Ok (TranspileRawBytecode d0) errs);
      [right; now left | cbn; congruence].
  - cbn [bytecode deployedBytecode] in R1, R2. rewrite Hex in R1, R2.
    injection R1 as <-. injection R2 as <-.
    exists out, (hex b'), (hex d').
    repeat split; auto using hex_all_hex, all_hex_no_prefix.
    + intros b0 d1 n [[= <- <- <-] | [[=] | []]]. eauto.
    + intros Hn. exfalso. apply (Hn b d size). now left.
    + intros d1 [[=] | [[= <-] | []]]. eauto.
    + intros Hn. exfalso. apply (Hn d0). right. now left.
  - exfalso. apply (Ok (TranspileRawBytecode d0) errs);
      [now left | cbn; congruence].
  - cbn [bytecode deployedBytecode] in R1, R2.
    rewrite Hex in R2. rewrite (Falsy _ Fb) in R1.
    injection R1 as <-. injection R2 as <-.
    exists out, EmptyString, (hex d').
    repeat split; auto using hex_all_hex, all_hex_no_prefix.
    + intros b0 d1 n [[=] | []].
    + intros d1 [[= <-] | []]. eauto.
    + intros Hn. exfalso. apply (Hn d0). now left.
Qed.

(** Records that are in [errors] stay there. *)
Lemma compileContract_keeps T filename contractName contractJson s t s' records :
  compileContract T filename contractName contractJson s = (t, Returned s') ->
  (exists l, own "errors" s = Some (JArr l) /\ incl records l) ->
  exists l, own "errors" s' = Some (JArr l) /\ incl records l.
Proof.
  intros H (l & E & I).
  destruct (compileContract_errors _ _ _ _ _ _ _ H)
    as (output & _ & [[_ Same] | (items & _ & Grown)]).
  - exists l. rewrite Same. auto.
  - exists (l ++ items)%list. unfold errorsOf in Grown. rewrite E in Grown.
    split; [assumption |]. now apply incl_appl.
Qed.

Lemma contractsLoop_keeps T filename cs s t s' records :
  contractsLoop T filename cs s = (t, Returned s') ->
  (exists l, own "errors" s = Some (JArr l) /\ incl records l) ->
  exists l, own "errors" s' = Some (JArr l) /\ incl records l.
Proof.
  unfold contractsLoop. intros H.
  refine (forEach_preserve _ _
            (fun u => exists l, own "errors" u = Some (JArr l) /\ incl records l)
            _ _ _ _ _ _ H).
  intros [c cj] u tu u' _. apply compileContract_keeps.
Qed.

Lemma compileContracts_keeps T files s t s' records :
  compileContracts T files s = (t, Returned s') ->
  (exists l, own "errors" s = Some (JArr l) /\ incl records l) ->
  exists l, own "errors" s' = Some (JArr l) /\ incl records l.
Proof.
  unfold compileContracts. intros H.
  refine (forEach_preserve _ _
            (fun u => exists l, own "errors" u = Some (JArr l) /\ incl records l)
            _ _ _ _ _ _ H).
  intros [f fj] u tu u' _ B. rewrite bind_lift in B.
  destruct (entries (Some fj)) as [cs | |]; try discriminate.
  revert B. apply contractsLoop_keeps.
Qed.

(** Every contract of the batch is transpiled, and the errors of each
    are in [errors] after the loops. *)
Lemma compileContracts_errors T files res t out filename fileJson cs
      contractName contractJson :
  compileContracts T files res = (t, Returned out) ->
  In (filename, fileJson) files ->
  entries (Some fileJson) = Returned cs ->
  In (contractName, contractJson) cs ->
  exists t0 output,
    transpileContract T contractJson filename contractName = (t0, Returned output)
    /\ forall records,
         output.(errors) = Some (JArr records) ->
         exists l, own "errors" out = Some (JArr l) /\ incl records l.
Proof.
  intros H If E Ic.
  destruct (in_split _ _ If) as (fpre & fpost & ->).
  unfold compileContracts in H. apply forEach_split in H.
  destruct H as (t1 & s1 & t2 & s2 & t3 & _ & Hfile & Hpost & _).
  fold (compileContracts T fpost s2) in Hpost.
  rewrite bind_lift, E in Hfile.
  destruct (in_split _ _ Ic) as (cpre & cpost & ->).
  unfold contractsLoop in Hfile. apply forEach_split in Hfile.
  destruct Hfile as (u1 & r1 & u2 & r2 & u3 & _ & Cstep & Cpost & _).
  fold (contractsLoop T filename cpost r2) in Cpost.
  destruct (compileContract_errors _ _ _ _ _ _ _ Cstep)
    as (output & Tr & Grow).
  exists u2, output. split; [assumption |].
  intros records Er.
  apply (compileContracts_keeps _ _ _ _ _ _ Hpost).
  apply (contractsLoop_keeps _ _ _ _ _ _ _ Cpost).
  rewrite Er in Grow. destruct Grow as [[F _] | (items & S & Grown)];
    [discriminate |].
  cbn in S. injection S as <-.
  eexists. split; [exact Grown |]. now apply incl_appr.
Qed.

Lemma compileContract_trace T filename contractName contractJson s t s' :
  compileContract T filename contractName contractJson s = (t, Returned s') ->
  t = fst (transpileContract T contractJson filename contractName).
Proof.
  intros H. destruct (compileContract_inv _ _ _ _ _ _ _ H)
    as (output & r1 & Tr & _). now rewrite Tr.
Qed.

Lemma compileContracts_trace T files res t out :
  compileContracts T files res = (t, Returned out) -> t = calls T files.
Proof.
  unfold compileContracts, calls. apply forEach_trace.
  intros [f fj] s u s' _ B. rewrite bind_lift in B.
  destruct (entries (Some fj)) as [cs | |]; try discriminate.
  revert B. apply forEach_trace.
  intros [c cj] r v r' _. apply compileContract_trace.
Qed.

(* ================================================================== *)
(** ** The loops end, whatever the transpiler answers                  *)
(* ================================================================== *)

Lemma forEach_returns X S (Inv : S -> Prop) (xs : list X) body (s : S) :
  (forall x s, In x xs -> Inv s ->
     exists t s', body x s = (t, Returned s') /\ Inv s') ->
  Inv s ->
  exists t s', forEach xs body s = (t, Returned s') /\ Inv s'.
Proof.
  revert s. induction xs as [| x xs IH]; intros s Step I.
  - exists [], s. auto.
  - destruct (Step x s (or_introl eq_refl) I) as (t1 & s1 & B & I1).
    destruct (IH s1) as (t2 & s2 & R & I2); [| assumption |].
    + intros y u Iy. apply Step. now right.
    + exists (t1 ++ t2)%list, s2. cbn [forEach]. rewrite B. cbn [bind].
      rewrite R. auto.
Qed.

(** What [transpileContract] returns for a record without members
    [bytecode], [deployedBytecode], [errors] can be written back. *)
Lemma transpileContract_writable T contractJson filename contractName t output :
  transpileContract T contractJson filename contractName = (t, Returned output) ->
  own "bytecode" contractJson = None ->
  own "deployedBytecode" contractJson = None ->
  own "errors" contractJson = None ->
  writable output.
Proof.
  intros H Ob Od Oe. revert H.
  unfold transpileContract, transpileDeployed, writable.
  destruct (path_get _ _) as [object | |]; run_M; try discriminate.
  destruct (hexStrToBuf_js object) as [original | |]; run_M; try discriminate.
  destruct (getBytecode contractJson false) as [code | |];
    run_M; try discriminate.
  destruct (getBytecode contractJson true) as [deployed | |];
    run_M; try discriminate.
  destruct (truthy code) eqn:Tc, (truthy deployed) eqn:Td;
    run_M; try discriminate.
  - destruct code as [[| | | c | |] |]; run_M; try discriminate.
    destruct deployed as [[| | | d | |] |]; run_M; try discriminate.
    destruct (transpile _ _ _).
    + run_M. destruct (transpileRawBytecode _); cbn;
        intros [= <- <-]; cbn; eauto 10.
    + cbn. intros [= <- <-]. cbn. eauto 10.
  - destruct code as [[| | | c | |] |]; run_M; try discriminate.
    destruct deployed as [[| | | d | |] |]; run_M; try discriminate.
    destruct (transpile _ _ _); cbn; intros [= <- <-]; cbn; eauto 10.
  - destruct deployed as [[| | | d | |] |]; run_M; try discriminate.
    destruct (transpileRawBytecode _); cbn; intros [= <- <-]; cbn; eauto 10.
  - cbn. intros [= <- <-]. cbn [bytecode deployedBytecode errors].
    rewrite Ob, Od, Oe. cbn. auto.
Qed.

Lemma writable_rhs v :
  truthy v = false \/ (exists s, v = Some (JStr s)) ->
  exists x, remove0x_js (js_or v (Some (JStr ""))) = Returned x.
Proof.
  intros [F | [s ->]].
  - unfold js_or. rewrite F. cbn. eauto.
  - unfold js_or. destruct (truthy (Some (JStr s))); cbn; eauto.
Qed.

(** One assignment [target.object = x]. *)
Lemma write_once p x v ob :
  path_get p (Some v) = Returned (Some (JObj ob)) ->
  exists v',
    update p (fun base => set "object" x base) (Some v) = Returned v'
    /\ path_get p (Some v') = Returned (Some (JObj (put "object" x ob))).
Proof.
  intros G.
  destruct (update_returns p (fun base => set "object" x base)
              _ _ (JObj (put "object" x ob)) G eq_refl) as [v' U].
  exists v'. split; [assumption |].
  destruct (update_target _ _ _ _ _ G eq_refl U) as (t' & F & G').
  cbn in F. injection F as <-. assumption.
Qed.

(** The bytecodes can be written where the record has objects for
    them, and it still has afterwards. *)
Lemma writeBytecode_returns filename contractName output s :
  writable output -> has_targets s filename contractName ->
  exists s',
    writeBytecode filename contractName output s = Returned s'
    /\ has_targets s' filename contractName.
Proof.
  intros (Wb & Wd & _) (ob & od & Gb & Gd).
  destruct (writable_rhs _ Wb) as [x1 R1], (writable_rhs _ Wd) as [x2 R2].
  unfold writeBytecode. cbv zeta. rewrite R1, R2. cbn [obind].
  unfold target in *.
  destruct (write_once _ x1 _ _ Gb) as (r1 & U1 & Gb1).
  rewrite U1. cbn [obind]. cbv beta.
  assert (Gd1 : path_get ["contracts"; filename; contractName; "evm";
                          "deployedBytecode"] (Some r1)
                = Returned (Some (JObj od))) by (rewrite <- Gd; apart U1).
  destruct (write_once _ x2 _ _ Gd1) as (r2 & U2 & Gd2).
  rewrite U2. cbn [obind]. cbv beta.
  assert (Gb2 : path_get ["contracts"; filename; contractName; "evm";
                          "bytecode"] (Some r2)
                = Returned (Some (JObj (put "object" x1 ob))))
    by (rewrite <- Gb1; apart U2).
  destruct (write_once _ x1 _ _ Gb2) as (r3 & U3 & Gb3).
  rewrite U3. cbn [obind]. cbv beta.
  assert (Gd3 : path_get ["contracts"; filename; contractName; "evm";
                          "deployedBytecode"] (Some r3)
                = Returned (Some (JObj (put "object" x2 od))))
    by (rewrite <- Gd2; apart U3).
  destruct (write_once _ x2 _ _ Gd3) as (r4 & U4 & Gd4).
  rewrite U4.
  assert (Gb4 : path_get ["contracts"; filename; contractName; "evm";
                          "bytecode"] (Some r4)
                = Returned (Some (JObj (put "object" x1 (put "object" x1 ob)))))
    by (rewrite <- Gb3; apart U4).
  exists r4. split; [reflexivity |]. unfold has_targets, target. eauto.
Qed.

Lemma has_targets_object s filename contractName :
  has_targets s filename contractName -> exists o, s = JObj o.
Proof.
  intros (ob & od & Gb & _). unfold target in Gb. cbn [path_get] in Gb.
  apply obind_Returned in Gb. destruct Gb as (cv & Hc & Gb).
  destruct cv as [x |]; [| discriminate Gb].
  assert (O : own "contracts" s = Some x)
    by (destruct s; cbn [get] in Hc; try discriminate Hc; congruence).
  destruct (own_named "contracts" _ _ eq_refl eq_refl O) as (o & -> & _).
  eauto.
Qed.

(** The errors can be added where [errors] is an array or nothing. *)
Lemma collectErrors_returns output o :
  writable output -> errors_array (JObj o) ->
  exists s', collectErrors output (JObj o) = Returned s'.
Proof.
  intros (_ & _ & [E | [records E]]) A; unfold collectErrors; rewrite E.
  - cbn. eauto.
  - cbn [truthy get obind own spread].
    destruct (truthy (assoc "errors" o)) eqn:T; cbn [negb obind set].
    + destruct A as [F | [l A]]; [cbn [own] in F; congruence |].
      cbn [own] in A. cbn [update obind]. rewrite A. cbn. eauto.
    + cbn [update obind]. rewrite assoc_put_same. cbn. eauto.
Qed.

(** The loop body returns for a contract [transpileContract] returns
    for, whatever it returns. *)
Lemma compileContract_returns T filename contractName contractJson s :
  workable T filename contractName contractJson ->
  has_targets s filename contractName -> errors_array s ->
  exists t s', compileContract T filename contractName contractJson s
               = (t, Returned s').
Proof.
  intros ((t & output & Tr) & _ & _ & Ob & Od & Oe) G A.
  pose proof (transpileContract_writable _ _ _ _ _ _ Tr Ob Od Oe) as W.
  destruct (writeBytecode_returns _ _ _ _ W G) as (r1 & Wr & G1).
  destruct (has_targets_object _ _ _ G1) as [o ->].
  assert (A1 : errors_array (JObj o)).
  { unfold errors_array in *.
    replace (own "errors" (JObj o)) with (own "errors" s); [assumption |].
    symmetry. apply errorsOf_path.
    apply (writeBytecode_other_member _ _ _ _ _ _ [] Wr). discriminate. }
  destruct (collectErrors_returns _ _ W A1) as [s' C].
  exists t, s'. unfold compileContract. rewrite Tr. cbn [bind].
  rewrite Wr. cbn [lift bind]. rewrite C. cbn [lift].
  now rewrite !List.app_nil_r.
Qed.

Lemma hasErrors_false res : hasErrors res = Returned false -> errors_array res.
Proof.
  unfold hasErrors, errors_array. intros H.
  apply obind_Returned in H. destruct H as (present & Hp & H).
  destruct res as [| b | n | s | l | o]; try discriminate Hp.
  - left. cbn. now rewrite elem_from_named.
  - cbn [has own] in Hp. injection Hp as <-. cbn [own get obind] in H |- *.
    destruct (assoc "errors" o) as [errs |]; [| now left].
    cbn [defined negb] in H.
    destruct (truthy (Some errs)) eqn:T; [| now left].
    cbn [negb] in H. destruct errs; try discriminate H. right. eauto.
Qed.

Lemma compileContract_writable T files filename contractName contractJson s t s' :
  compileContract T filename contractName contractJson s = (t, Returned s') ->
  writable_batch files s -> writable_batch files s'.
Proof.
  intros H [A G]. split.
  - destruct (compileContract_errors _ _ _ _ _ _ _ H)
      as (output & _ & [[_ Same] | (items & _ & Grown)]);
      unfold errors_array in *.
    + now rewrite Same.
    + right. eauto.
  - intros f0 c0 B. specialize (G f0 c0 B).
    destruct (string_dec f0 filename) as [-> | Df];
      [destruct (string_dec c0 contractName) as [-> | Dc] |].
    + destruct G as (ob & od & Gb & Gd).
      destruct (compileContract_inv _ _ _ _ _ _ _ H)
        as (output & r1 & _ & W & C).
      destruct (writeBytecode_fields _ _ _ _ _ _ _ W Gb Gd)
        as (_ & _ & _ & _ & _ & _ & ob' & od' & Gb' & Gd').
      exists ob', od'. unfold target in *.
      destruct (collectErrors_inv _ _ _ C) as [[_ ->] | (_ & items & _ & _ & O)];
        [auto |].
      rewrite !O by discriminate. auto.
    + destruct G as (ob & od & Gb & Gd). exists ob, od. unfold target in *.
      rewrite !(compileContract_other _ _ _ _ _ _ _ _ _ _ H (or_intror Dc)).
      auto.
    + destruct G as (ob & od & Gb & Gd). exists ob, od. unfold target in *.
      rewrite !(compileContract_other _ _ _ _ _ _ _ _ _ _ H (or_introl Df)).
      auto.
Qed.

Lemma workable_batch_writable T res files :
  workable_batch T res files -> errors_array res -> writable_batch files res.
Proof.
  intros Bt A. split; [assumption |].
  intros f c (fj & cs & cj & If & Ec & Ic).
  destruct (Bt _ _ If) as (cs' & Ec' & All).
  rewrite Ec in Ec'. injection Ec' as <-.
  destruct (All _ _ Ic) as ((_ & [ob Gb] & [od Gd] & _) & L).
  exists ob, od. unfold target.
  change ["contracts"; f; c; "evm"; "bytecode"]
    with (["contracts"; f; c] ++ ["evm"; "bytecode"])%list.
  change ["contracts"; f; c; "evm"; "deployedBytecode"]
    with (["contracts"; f; c] ++ ["evm"; "deployedBytecode"])%list.
  rewrite !path_get_app, L. cbn [obind]. auto.
Qed.

(** The loops of [compile] go through a batch to its end when
    [transpileContract] returns for each of its contracts, whatever
    it returns. *)
Lemma compileContracts_returns T res files :
  workable_batch T res files -> errors_array res ->
  exists t res', compileContracts T files res = (t, Returned res').
Proof.
  intros Bt A.
  destruct (forEach_returns _ _ (writable_batch files) files
              (fun '(filename, fileJson) res =>
                 cs <~ lift (entries (Some fileJson)) ;;
                 contractsLoop T filename cs res) res)
    as (t & res' & R & _).
  - intros [f fj] s If I.
    destruct (Bt _ _ If) as (cs & Ec & All).
    rewrite bind_lift, Ec. unfold contractsLoop.
    apply forEach_returns; [| assumption].
    intros [c cj] u Ic Iu.
    destruct (All _ _ Ic) as (Rec & _).
    destruct Iu as [Au Gu].
    destruct (compileContract_returns T f c cj u Rec) as (tu & u' & Cu);
      [apply Gu; exists fj, cs, cj; auto | assumption |].
    exists tu, u'. split; [assumption |].
    now apply (compileContract_writable _ _ _ _ _ _ _ _ Cu).
  - now apply (workable_batch_writable T).
  - exists t, res'. exact R.
Qed.

(** A contract [transpileContract] does not return for leaves the
    loops without a result. *)
Lemma compileContracts_each T files res t out filename fileJson cs
      contractName contractJson :
  compileContracts T files res = (t, Returned out) ->
  In (filename, fileJson) files ->
  entries (Some fileJson) = Returned cs ->
  In (contractName, contractJson) cs ->
  exists t0 output,
    transpileContract T contractJson filename contractName
    = (t0, Returned output).
Proof.
  intros H If Hc Ic.
  destruct (compileContracts_errors _ _ _ _ _ _ _ _ _ _ H If Hc Ic)
    as (t0 & output & E & _).
  eauto.
Qed.

(** C2, as amended.  A contract the transpiler rejects does not stop
    the batch: when [transpileContract] returns for every contract of
    the batch, with transpiled bytecode or with errors, the loops of
    [compile] go through the batch to its end and [compile] returns
    what [formatOutput] makes of the result.  When [compile] returns,
    the calls it made are those of every contract of the batch, in
    order, and the error records of every rejected contract are in
    the [errors] array of what it returns.  But a contract for which
    [transpileContract] does not return (it throws on a record
    without [evm.bytecode], for one) leaves [compile] without a
    result: nothing is returned for any contract of the batch, the
    rejected ones included. *)
Theorem rejection_does_not_stop_the_batch_but_an_exception_does
    configJsonString callbacks json solcConfig res files :
  transpiling configJsonString callbacks json solcConfig res files ->
  let T := transpilerFor json in
  (workable_batch T res files ->
   exists t res',
     compileContracts T files res = (t, Returned res')
     /\ compile configJsonString callbacks
        = (SolcCompile solcConfig :: t, formatOutput res' json))
  /\ (forall tr s,
         compile configJsonString callbacks = (tr, Returned s) ->
         exists out,
           s = JSON_stringify out
           /\ tr = SolcCompile solcConfig :: calls T files
           /\ forall filename fileJson cs contractName contractJson,
                In (filename, fileJson) files ->
                entries (Some fileJson) = Returned cs ->
                In (contractName, contractJson) cs ->
                exists t0 output,
                  transpileContract T contractJson filename contractName
                  = (t0, Returned output)
                  /\ forall records,
                       output.(errors) = Some (JArr records) ->
                       exists l, own "errors" out = Some (JArr l)
                                 /\ incl records l)
  /\ (forall filename fileJson cs contractName contractJson,
         In (filename, fileJson) files ->
         entries (Some fileJson) = Returned cs ->
         In (contractName, contractJson) cs ->
         (forall t output,
             transpileContract T contractJson filename contractName
             <> (t, Returned output)) ->
         forall tr s, compile configJsonString callbacks <> (tr, Returned s)).
Proof.
  intros R T. split; [| split].
  - intros Bt.
    assert (A : errors_array res)
      by (destruct R as (_ & _ & _ & _ & He & _); now apply hasErrors_false).
    destruct (compileContracts_returns T _ _ Bt A) as (t & res' & L).
    exists t, res'. split; [assumption |].
    rewrite (compile_transpiling _ _ _ _ _ _ R). fold T.
    rewrite L. rewrite bind_emit. cbn [bind lift fst snd].
    now rewrite List.app_nil_r.
  - intros tr s H.
    destruct (compile_returned _ _ _ _ _ _ _ _ R H)
      as (t & res' & out & -> & L & F & ->).
    fold T in L. exists out. split; [reflexivity |]. split.
    + f_equal. now apply (compileContracts_trace _ _ _ _ _ L).
    + intros f fj cs c cj If Ec Ic.
      destruct (compileContracts_errors _ _ _ _ _ _ _ _ _ _ L If Ec Ic)
        as (t0 & output & Tr & Er).
      exists t0, output. split; [assumption |].
      intros records E. destruct (Er _ E) as (l & O & I).
      exists l. split; [| assumption].
      rewrite <- O. apply errorsOf_path.
      apply (formatted_member _ _ _ _ [] F). discriminate.
  - intros f fj cs c cj If Ec Ic N tr s H.
    destruct (compile_returned _ _ _ _ _ _ _ _ R H)
      as (t & res' & out & _ & L & _).
    destruct (compileContracts_each _ _ _ _ _ _ _ _ _ _ L If Ec Ic)
      as (t0 & output & E).
    exact (N _ _ E).
Qed.

(** C10.  Whenever [compile] gets to format its output and returns,
    no contract of what it returns has a [legacyAssembly] under [evm]:
    reading [contracts[f][c].evm.legacyAssembly] gives no value, for
    any names [f] and [c], whatever the [outputSelection] of the input
    lists.  The test made on the selection looks for
    [evm.legacyAssembly] and [*] among the property names of an array,
    where there are none but indices and [length]. *)
Theorem legacyAssembly_always_deleted
    configJsonString callbacks json solcConfig res files tr s :
  transpiling configJsonString callbacks json solcConfig res files ->
  compile configJsonString callbacks = (tr, Returned s) ->
  exists out,
    s = JSON_stringify out
    /\ (forall filename contractName,
           no_legacyAssembly out filename contractName)
    /\ (forall selection : list JS.json,
           has "evm.legacyAssembly" (Some (JArr selection)) = Returned false
           /\ has "*" (Some (JArr selection)) = Returned false).
Proof.
  intros R H.
  destruct (compile_returned _ _ _ _ _ _ _ _ R H)
    as (t & res' & out & _ & _ & F & ->).
  destruct R as (_ & V & _).
  exists out. split; [reflexivity |]. split.
  - intros f c. now apply (formatted_no_legacyAssembly json res').
  - intros l. cbn [has own String.eqb Ascii.eqb Bool.eqb].
    now rewrite !elem_from_named.
Qed.

(* ================================================================== *)
(** ** What the validation lets through                                *)
(* ================================================================== *)

(** The configurations [getInputErrors] is written to accept: the
    settings are an object with a valid execution manager address, and
    [outputSelection] is an object with at least one entry, every
    entry being of the form [{ "contractName": [...], ... }]. *)
Definition well_formed (json : json) : Prop :=
  exists settings outputSelection es,
    addressed json settings
    /\ get "outputSelection" settings = Returned outputSelection
    /\ truthy outputSelection = true /\ typeof_object outputSelection = true
    /\ entries outputSelection = Returned es /\ es <> []
    /\ Forall (fun kv => file_selection (snd kv) = true
                         /\ get (fst kv) outputSelection
                            = Returned (Some (snd kv)))
              es.

Lemma checkFiles_accepts outputSelection es :
  Forall (fun kv => file_selection (snd kv) = true
                    /\ get (fst kv) outputSelection = Returned (Some (snd kv)))
         es ->
  checkFiles outputSelection es = Returned None.
Proof.
  induction 1 as [| [k v] es [Hv Hk] _ IH]; [reflexivity |].
  cbn [checkFiles]. cbn [fst snd] in Hv, Hk.
  destruct v as [| b | n | s | l | o]; try discriminate.
  cbn [typeof_object isArray negb orb]. rewrite Hk.
  cbn [obind values entries]. rewrite forallb_values.
  cbn [file_selection] in Hv. rewrite Hv. exact IH.
Qed.

Lemma getInputErrors_addressed json :
  getInputErrors json = Returned None ->
  exists settings outputSelection es,
    addressed json settings
    /\ get "outputSelection" settings = Returned outputSelection
    /\ truthy outputSelection = true /\ typeof_object outputSelection = true
    /\ entries outputSelection = Returned es /\ es <> []
    /\ checkFiles outputSelection es = Returned None.
Proof.
  unfold getInputErrors. intros H.
  apply obind_Returned in H. destruct H as (settings & Hs & H).
  destruct (truthy settings) eqn:T; [| discriminate].
  destruct (typeof_object settings) eqn:O; [| discriminate].
  cbn [negb orb] in H.
  apply obind_Returned in H. destruct H as (a & Ha & H).
  destruct (truthy a) eqn:Ta; [| discriminate].
  destruct a as [a |]; [| discriminate].
  destruct (isValidHexAddress a) eqn:Va; [| discriminate].
  cbn [negb orb] in H.
  apply obind_Returned in H. destruct H as (os & Hos & H).
  destruct (truthy os) eqn:Tos; [| discriminate].
  destruct (typeof_object os) eqn:Oos; [| discriminate].
  cbn [negb orb] in H.
  apply obind_Returned in H. destruct H as (es & He & H).
  destruct es as [| e es]; [discriminate |].
  cbn [List.length Nat.eqb] in H.
  exists settings, os, (e :: es).
  split; [unfold addressed; eauto 10 |].
  do 4 (split; [assumption |]). split; [discriminate | assumption].
Qed.

Lemma well_formed_accepted json :
  well_formed json -> getInputErrors json = Returned None.
Proof.
  intros (settings & os & es & (Hs & T & O & a & Ha & Ta & Va)
          & Hos & Tos & Oos & He & Ne & F).
  unfold getInputErrors. rewrite Hs. cbn [obind]. rewrite T, O, Ha.
  cbn [negb orb obind]. rewrite Ta, Va, Hos. cbn [negb orb obind].
  rewrite Tos, Oos, He. cbn [negb orb obind].
  destruct es as [| e es]; [contradiction |]. cbn [List.length Nat.eqb].
  now apply checkFiles_accepts.
Qed.

(** X1.  [getInputErrors] returns [undefined] for every well-formed
    configuration, and for no other one: when it returns [undefined]
    (and no name stands for two entries of [outputSelection], as in
    every object), the settings are an object, the execution manager
    address is valid, and [outputSelection] is a populated object
    whose entries are all objects of arrays. *)
Theorem getInputErrors_accepts_the_well_formed (json : json) :
  (well_formed json -> getInputErrors json = Returned None)
  /\ (getInputErrors json = Returned None ->
      (forall outputSelection es,
          path_get ["settings"; "outputSelection"] (Some json)
            = Returned outputSelection ->
          entries outputSelection = Returned es -> NoDup (map fst es)) ->
      well_formed json).
Proof.
  split; [apply well_formed_accepted |].
  - intros H U.
    destruct (getInputErrors_addressed _ H)
      as (settings & os & es & A & Hos & Tos & Oos & He & Ne & C).
    assert (D : NoDup (map fst es)).
    { apply (U os es); [| exact He].
      destruct A as (Hs & _). cbn [path_get]. rewrite Hs. cbn [obind].
      rewrite Hos. reflexivity. }
    exists settings, os, es.
    do 6 (split; [assumption |]).
    apply Forall_forall. intros [k v] I. cbn [fst snd].
    destruct (checkFiles_ok _ _ C k v I) as (Tv & Av & fc & vs & Hk & Hv & All).
    rewrite (entry_lookup _ _ _ _ He D I) in Hk. injection Hk as <-.
    split; [| apply (entry_lookup _ _ _ _ He D I)].
    destruct v as [| b | n | s | l | o]; try discriminate.
    cbn [values entries obind] in Hv. injection Hv as <-.
    cbn [file_selection]. now rewrite <- forallb_values.
Qed.

(** X2.  An entry [null] of [outputSelection] is not answered with an
    error object: [typeof null] is ['object'], so the entry passes the
    test made on it, and [Object.values(null)] throws.  [compile]
    throws with it, before solc is called. *)
Theorem null_file_entry_throws
    (configJsonString : string) (callbacks : option Callbacks)
    (json : JS.json) (settings outputSelection : jsval)
    (good rest : list (string * JS.json)) (filename : string) :
  JSON_parse configJsonString = Some json ->
  addressed json settings ->
  get "outputSelection" settings = Returned outputSelection ->
  truthy outputSelection = true -> typeof_object outputSelection = true ->
  entries outputSelection
    = Returned (good ++ (filename, JNull) :: rest)%list ->
  Forall (fun kv => file_selection (snd kv) = true
                    /\ get (fst kv) outputSelection = Returned (Some (snd kv)))
         good ->
  get filename outputSelection = Returned (Some JNull) ->
  getInputErrors json = Threw TypeError
  /\ compile configJsonString callbacks = ([], Threw TypeError).
Proof.
  intros P (Hs & T & O & a & Ha & Ta & Va) Hos Tos Oos He G L.
  assert (E : getInputErrors json = Threw TypeError).
  { unfold getInputErrors. rewrite Hs. cbn [obind]. rewrite T, O, Ha.
    cbn [negb orb obind]. rewrite Ta, Va, Hos. cbn [negb orb obind].
    rewrite Tos, Oos, He. cbn [negb orb obind].
    replace (List.length _ =? 0)%nat with false by (now destruct good).
    clear He. induction G as [| [k v] good [Hv Hk] G IH].
    - cbn [app checkFiles typeof_object isArray negb orb]. rewrite L.
      reflexivity.
    - cbn [app checkFiles]. cbn [fst snd] in Hv, Hk.
      destruct v as [| b | n | s | l | o]; try discriminate.
      cbn [typeof_object isArray negb orb]. rewrite Hk.
      cbn [obind values entries]. rewrite forallb_values.
      cbn [file_selection] in Hv. rewrite Hv. exact IH. }
  split; [exact E |].
  unfold compile. rewrite P, E. reflexivity.
Qed.

(** X3.  An execution manager address given in the settings is the
    one that counts: when it is not a valid address, [compile]
    answers with the error object of the address and calls nothing,
    whatever [EXECUTION_MANAGER_ADDRESS] holds in the environment. *)
Theorem invalid_settings_address_is_rejected
    (configJsonString : string) (callbacks : option Callbacks)
    (json settings a : JS.json) :
  JSON_parse configJsonString = Some json ->
  (forall v, JSON_stringify v <> EmptyString) ->
  get "settings" (Some json) = Returned (Some settings) ->
  compound settings = true ->
  own "executionManagerAddress" settings = Some a ->
  truthy (Some a) = true -> isValidHexAddress a = false ->
  getExecutionManagerAddress json = Returned (Some a)
  /\ compile configJsonString callbacks
     = ([], Returned (getFormattedSolcErrorOutput address_message)).
Proof.
  intros P N Hs C Ha Ta Va.
  assert (A : getExecutionManagerAddress json = Returned (Some a)).
  { unfold getExecutionManagerAddress. rewrite Hs. cbn [obind].
    destruct settings; try discriminate C; cbn [get obind]; rewrite Ha;
      unfold js_or; rewrite Ta; reflexivity. }
  split; [exact A |].
  assert (E : getInputErrors json
              = Returned (Some (getFormattedSolcErrorOutput address_message))).
  { unfold getInputErrors. rewrite Hs. cbn [obind].
    replace (truthy (Some settings)) with true by (now destruct settings).
    replace (typeof_object (Some settings)) with true by (now destruct settings).
    cbn [negb orb]. rewrite A. cbn [obind]. rewrite Ta, Va. reflexivity. }
  unfold compile. rewrite P, E. rewrite bind_lift. cbn [option_map].
  rewrite truthy_JStr by apply N. reflexivity.
Qed.

(** X4.  When the settings give no execution manager address (none,
    or [null], or the empty string), the one of the environment is
    taken: it is the address validated, and the address the opcode
    replacer of the transpiler is built with. *)
Theorem environment_address_is_the_fallback
    (configJsonString : string) (callbacks : option Callbacks)
    (json : JS.json) (solcConfig : string) (res : JS.json)
    (files : list (string * JS.json)) (settings : JS.json) (env : string) :
  transpiling configJsonString callbacks json solcConfig res files ->
  get "settings" (Some json) = Returned (Some settings) ->
  truthy (own "executionManagerAddress" settings) = false ->
  EXECUTION_MANAGER_ADDRESS = Some env ->
  isValidHexAddress (JStr env) = true
  /\ compile configJsonString callbacks
     = bind (emit (SolcCompile solcConfig))
            (fun _ =>
               bind (compileContracts
                       (TranspilerImpl OpcodeWhitelistImpl
                                       (OpcodeReplacerImpl (Some (JStr env))))
                       files res)
                    (fun res' => lift (formatOutput res' json))).
Proof.
  intros R Hs F Env.
  assert (A : getExecutionManagerAddress json = Returned (Some (JStr env))).
  { unfold getExecutionManagerAddress. rewrite Hs. cbn [obind].
    destruct R as (_ & Hi & _).
    destruct (getInputErrors_address _ Hi) as [a Ha].
    unfold getExecutionManagerAddress in Ha. rewrite Hs in Ha.
    cbn [obind] in Ha. destruct settings; try discriminate Ha;
      cbn [get obind] in *; unfold js_or; rewrite F, Env; reflexivity. }
  split.
  - destruct R as (_ & Hi & _).
    destruct (getInputErrors_addressed _ Hi)
      as (s' & _ & _ & (_ & _ & _ & a & Ha & _ & Va) & _).
    rewrite A in Ha. injection Ha as <-. exact Va.
  - rewrite (compile_transpiling _ _ _ _ _ _ R). unfold transpilerFor.
    rewrite A. reflexivity.
Qed.

(* ================================================================== *)
(** ** Errors reported by solc                                         *)
(* ================================================================== *)

(** [x.severity === 'error'] *)
Definition is_error (x : json) : bool :=
  match own "severity" x with
  | Some (JStr s) => String.eqb s "error"
  | _ => false
  end.

Lemma severityErrors_filter l :
  Forall (fun x => x <> JNull) l ->
  severityErrors l = Returned (filter is_error l).
Proof.
  induction 1 as [| x l Nx _ IH]; [reflexivity |].
  cbn [severityErrors filter]. rewrite IH. unfold is_error.
  destruct x as [| b | n | s | a | o]; [contradiction | ..];
    cbn [get obind];
    match goal with
    | |- context [own ?k ?j] => destruct (own k j) as [[| ? | ? | s' | ? | ?] |]
    end; try reflexivity.
  all: destruct (String.eqb s' "error"); reflexivity.
Qed.

Lemma filter_nonempty A (f : A -> bool) l :
  negb (List.length (filter f l) =? 0)%nat = existsb f l.
Proof.
  induction l as [| x l IH]; [reflexivity |].
  cbn [filter existsb]. destruct (f x); [reflexivity | exact IH].
Qed.

Lemma hasErrors_array res l :
  own "errors" res = Some (JArr l) ->
  Forall (fun x => x <> JNull) l ->
  hasErrors res = Returned (existsb is_error l).
Proof.
  intros O N.
  destruct (own_named "errors" res _ eq_refl eq_refl O) as (o & -> & _).
  unfold hasErrors. cbn [has]. rewrite O. cbn [defined negb obind get].
  rewrite O. cbn [truthy negb]. rewrite (severityErrors_filter _ N).
  cbn [obind]. now rewrite filter_nonempty.
Qed.

(** X5.  When one of the records solc lists under [errors] has the
    severity [error], [compile] returns the string solc returned as it
    is: the transpiler is not called, and nothing is formatted.
    Records of another severity (warnings) do not stop it. *)
Theorem solc_errors_are_returned_untranspiled
    (configJsonString : string) (callbacks : option Callbacks)
    (json : JS.json) (solcConfig : string) (res : JS.json)
    (l : list JS.json) :
  JSON_parse configJsonString = Some json ->
  getInputErrors json = Returned None ->
  getSolcConfig json = Returned solcConfig ->
  JSON_parse (solc_compile solcConfig callbacks) = Some res ->
  own "errors" res = Some (JArr l) ->
  Forall (fun x => x <> JNull) l ->
  (Exists (fun x => own "severity" x = Some (JStr "error")) l ->
   compile configJsonString callbacks
   = ([SolcCompile solcConfig], Returned (solc_compile solcConfig callbacks)))
  /\ (Forall (fun x => own "severity" x <> Some (JStr "error")) l ->
      hasErrors res = Returned false).
Proof.
  intros P I C R O N. pose proof (hasErrors_array _ _ O N) as H. split.
  - intros E.
    assert (X : existsb is_error l = true).
    { apply existsb_exists. apply Exists_exists in E.
      destruct E as (x & Ix & Sx). exists x. split; [exact Ix |].
      unfold is_error. now rewrite Sx. }
    rewrite X in H.
    unfold compile, solc. rewrite P, I, C. rewrite !bind_lift.
    cbn [option_map truthy]. rewrite ?bind_lift.
    unfold emit, ret. cbn [bind app]. rewrite R.
    rewrite ?bind_lift, H. reflexivity.
  - intros A. rewrite H. f_equal.
    apply not_true_is_false. intros X. apply existsb_exists in X.
    destruct X as (x & Ix & Sx). rewrite Forall_forall in A.
    apply (A x Ix). unfold is_error in Sx.
    destruct (own "severity" x) as [[| ? | ? | s | ? | ?] |];
      try discriminate Sx.
    apply String.eqb_eq in Sx. now subst s.
Qed.

(* ================================================================== *)
(** ** The assignments of lines 87 to 98                               *)
(* ================================================================== *)

(** Lines 87 to 92 alone: each bytecode object written once. *)
Definition writeOnce (filename contractName : string)
    (output : TranspilationOutput) (res : json) : outcome json :=
  res <- update ["contracts"; filename; contractName; "evm"; "bytecode"]
           (fun target =>
              x <- remove0x_js (js_or output.(bytecode) (Some (JStr ""))) ;;
              set "object" x target) (Some res) ;;
  update ["contracts"; filename; contractName; "evm"; "deployedBytecode"]
    (fun target =>
       x <- remove0x_js (js_or output.(deployedBytecode) (Some (JStr ""))) ;;
       set "object" x target) (Some res).

Lemma path_get_undefined p t : path_get p None <> Returned (Some t).
Proof. destruct p; cbn; discriminate. Qed.

Lemma update_reads p f v v' :
  update p f v = Returned v' ->
  exists t t', path_get p v = Returned t /\ f t = Returned t'.
Proof.
  revert v v'. induction p as [| k p IH]; intros v v' U.
  - cbn in U. exists v, v'. split; [reflexivity | exact U].
  - cbn [update] in U. cbn [path_get].
    destruct v as [[| b | n | s | l | o] |]; try discriminate U;
      cbn [get obind]; apply obind_Returned in U; destruct U as (x & U & _);
      exact (IH _ _ U).
Qed.

Lemma put_same k x (o : list (string * json)) :
  assoc k o = Some x -> put k x o = o.
Proof.
  induction o as [| [k' v] o IH]; cbn [assoc put]; [discriminate |].
  destruct (String.eqb k k') eqn:E.
  - intros [= ->]. apply String.eqb_eq in E. now subst k'.
  - intros H. now rewrite IH.
Qed.

Lemma put_put k x y (o : list (string * json)) :
  put k x (put k y o) = put k x o.
Proof.
  induction o as [| [k' v] o IH]; cbn [put].
  - now rewrite String.eqb_refl.
  - destruct (String.eqb k k') eqn:E; cbn [put].
    + now rewrite String.eqb_refl.
    + now rewrite E, IH.
Qed.

Lemma put_elem_same i k x l : elem_from i k l = Some x -> put_elem i k x l = l.
Proof.
  revert i. induction l as [| y l IH]; intros i; cbn [elem_from put_elem];
    [reflexivity |].
  destruct (String.eqb k (dec i)).
  - now intros [= ->].
  - intros H. now rewrite IH.
Qed.

Lemma put_elem_absent i k x l : elem_from i k l = None -> put_elem i k x l = l.
Proof.
  revert i. induction l as [| y l IH]; intros i; cbn [elem_from put_elem];
    [reflexivity |].
  destruct (String.eqb k (dec i)); [discriminate |].
  intros H. now rewrite IH.
Qed.

(** A function that leaves the value under [p] as it is leaves the
    whole as it is. *)
Lemma update_fix p f v t :
  path_get p (Some v) = Returned (Some t) -> f (Some t) = Returned t ->
  update p f (Some v) = Returned v.
Proof.
  revert v. induction p as [| k p IH]; intros v G F.
  - cbn in G. injection G as ->. exact F.
  - cbn [path_get] in G. cbn [update].
    destruct v as [| b | n | s | l | o]; try discriminate G;
      cbn [get obind] in G.
    all: try change (own k (JObj o)) with (assoc k o) in G.
    all: match type of G with
         | path_get _ ?w = _ =>
             destruct w as [x |] eqn:O;
               [| now apply path_get_undefined in G]
         end.
    all: rewrite (IH _ G F); cbn [obind]; try reflexivity.
    + f_equal. f_equal. cbn [own] in O.
      destruct (String.eqb k "length") eqn:L.
      * apply put_elem_absent. apply elem_from_named.
        apply String.eqb_eq in L. now subst k.
      * now apply put_elem_same.
    + now rewrite (put_same _ _ _ O).
Qed.

Lemma assign_twice p (rhs : outcome json) v v' w :
  update p (fun target => x <- rhs ;; set "object" x target) (Some v)
    = Returned v' ->
  path_get p (Some w) = path_get p (Some v') ->
  update p (fun target => x <- rhs ;; set "object" x target) (Some w)
    = Returned w.
Proof.
  intros U G.
  destruct (update_reads _ _ _ _ U) as (t & t' & Gt & Ft).
  apply obind_Returned in Ft. destruct Ft as (x & Rx & Sx).
  assert (C : exists j, t = Some j /\ compound j = true).
  { destruct t as [[| b | n | s | l | o] |]; try discriminate Sx; eauto. }
  destruct C as (j & -> & C).
  destruct (update_target _ _ _ _ _ Gt C U) as (t1 & F1 & G1).
  rewrite G1 in G. apply (update_fix _ _ _ _ G).
  rewrite Rx in F1 |- *. cbn [obind] in F1 |- *.
  destruct j as [| b | n | s | l | o]; try discriminate C;
    cbn [set] in F1; injection F1 as <-; cbn [set]; [reflexivity |].
  now rewrite put_put.
Qed.

(** X6.  Lines 93 to 98 repeat the assignments of lines 87 to 92 and
    change nothing: [compile] writes what four assignments write when
    it makes the first two only, and the four fail when the two do. *)
Theorem second_write_is_redundant
    (filename contractName : string) (output : TranspilationOutput)
    (res : json) :
  writeBytecode filename contractName output res
  = writeOnce filename contractName output res.
Proof.
  unfold writeBytecode, writeOnce. cbv zeta.
  destruct (update _ _ (Some res)) as [r1 | |] eqn:E1; cbn [obind];
    try reflexivity.
  destruct (update _ _ (Some r1)) as [r2 | |] eqn:E2; cbn [obind];
    try reflexivity.
  assert (G : path_get ["contracts"; filename; contractName; "evm"; "bytecode"]
                       (Some r2)
              = path_get ["contracts"; filename; contractName; "evm"; "bytecode"]
                         (Some r1)) by (apart E2).
  rewrite (assign_twice _ _ _ _ _ E1 G). cbn [obind].
  exact (assign_twice _ _ _ _ _ E2 eq_refl).
Qed.

(* ================================================================== *)
(** ** Evaluations that return or throw a TypeError                    *)
(* ================================================================== *)

(** The evaluation returned, or threw a [TypeError]: it did not go
    on with a member of a host prototype, and threw nothing else. *)
Definition plain {A} (o : outcome A) : Prop :=
  match o with
  | Returned _ | Threw TypeError => True
  | _ => False
  end.

Lemma plain_obind A B (m : outcome A) (k : A -> outcome B) :
  plain m -> (forall a, plain (k a)) -> plain (obind m k).
Proof. destruct m as [a | [|] |]; cbn; auto. Qed.

Lemma plain_get k v : plain (get k v).
Proof. destruct v as [[| | | | |] |]; exact I. Qed.

Lemma plain_path_get p v : plain (path_get p v).
Proof.
  revert v. induction p as [| k p IH]; intros v; [exact I |].
  cbn [path_get]. apply plain_obind; [apply plain_get | exact IH].
Qed.

Lemma plain_entries v : plain (entries v).
Proof. destruct v as [[| | | | |] |]; exact I. Qed.

Lemma plain_has k v : plain (has k v).
Proof. destruct v as [[| | | | |] |]; exact I. Qed.

Lemma plain_set k x v : plain (set k x v).
Proof. destruct v as [[| | | | |] |]; exact I. Qed.

Lemma plain_delete k v : plain (delete k v).
Proof. destruct v as [[| | | | |] |]; exact I. Qed.

Lemma plain_push items v : plain (push items v).
Proof. destruct v as [[| | | | |] |]; exact I. Qed.

Lemma plain_spread v : plain (spread v).
Proof. destruct v as [[| | | | |] |]; exact I. Qed.

Lemma plain_remove0x_js v : plain (remove0x_js v).
Proof. destruct v as [[| | | | |] |]; exact I. Qed.

Lemma plain_hexStrToBuf_js v : plain (hexStrToBuf_js v).
Proof. destruct v as [[| | | | |] |]; exact I. Qed.

Lemma plain_update p f v : (forall t, plain (f t)) -> plain (update p f v).
Proof.
  intros F. revert v. induction p as [| k p IH]; intros v; [apply F |].
  cbn [update]. destruct v as [[| b | n | s | l | o] |]; try exact I;
    (apply plain_obind; [apply IH | intros; exact I]).
Qed.

Lemma plain_oforEach X S (xs : list X) (body : X -> S -> outcome S) s :
  (forall x s, plain (body x s)) -> plain (oforEach xs body s).
Proof.
  intros B. revert s. induction xs as [| x xs IH]; intros s; [exact I |].
  cbn [oforEach]. apply plain_obind; [apply B | exact IH].
Qed.

Lemma plain_lowerAll l : plain (lowerAll l).
Proof.
  induction l as [| x l IH]; [exact I |].
  destruct x; try exact I. cbn [lowerAll].
  apply plain_obind; [exact IH | intros; exact I].
Qed.

Lemma plain_orUndefined m : plain m -> plain (orUndefined m).
Proof. destruct m as [a | [|] |]; cbn; auto. Qed.

Lemma plain_getAuxData contractSolcOutput : plain (getAuxData contractSolcOutput).
Proof. apply plain_orUndefined, plain_path_get. Qed.

Lemma plain_getBytecode contractSolcOutput isDeployed :
  plain (getBytecode contractSolcOutput isDeployed).
Proof.
  apply plain_orUndefined. apply plain_obind; [apply plain_path_get |].
  intros code. apply plain_obind; [apply plain_getAuxData |].
  intros aux. destruct (truthy aux); [| exact I].
  destruct code as [[| | | | |] |]; try exact I. destruct aux; exact I.
Qed.

Lemma plain_not_returned A (o : outcome A) :
  plain o -> (forall a, o <> Returned a) -> o = Threw TypeError.
Proof.
  destruct o as [a | [|] |]; cbn; intros P N;
    [now destruct (N a) | reflexivity | contradiction | contradiction].
Qed.

(** The same for computations that call out. *)
Lemma plain_bind A B (m : M A) (k : A -> M B) :
  plain (snd m) -> (forall a, plain (snd (k a))) -> plain (snd (bind m k)).
Proof.
  destruct m as [t [a | [|] |]]; cbn; auto.
  intros _ K. specialize (K a). destruct (k a) as [t' r]. exact K.
Qed.

Lemma plain_forEach X S (xs : list X) (body : X -> S -> M S) s :
  (forall x s, plain (snd (body x s))) -> plain (snd (forEach xs body s)).
Proof.
  intros B. revert s. induction xs as [| x xs IH]; intros s; [exact I |].
  cbn [forEach]. apply plain_bind; [apply B | exact IH].
Qed.

Lemma plain_transpileDeployed T filename contractName code deployed :
  plain (snd (transpileDeployed T filename contractName code deployed)).
Proof.
  unfold transpileDeployed. destruct (truthy deployed); [| exact I].
  apply plain_bind; [apply plain_hexStrToBuf_js |]. intros d.
  rewrite bind_emit. cbn [snd].
  destruct (transpileRawBytecode d); exact I.
Qed.

Lemma plain_transpileContract T contractSolcOutput filename contractName :
  plain (snd (transpileContract T contractSolcOutput filename contractName)).
Proof.
  unfold transpileContract.
  apply plain_bind; [apply plain_path_get |]. intros object.
  apply plain_bind; [apply plain_hexStrToBuf_js |]. intros original.
  cbv zeta.
  apply plain_bind; [apply plain_getBytecode |]. intros code.
  apply plain_bind; [apply plain_getBytecode |]. intros deployed.
  destruct (negb (truthy code) && negb (truthy deployed))%bool; [exact I |].
  destruct (truthy code); [| apply plain_transpileDeployed].
  apply plain_bind; [apply plain_hexStrToBuf_js |]. intros b.
  apply plain_bind; [apply plain_hexStrToBuf_js |]. intros d.
  rewrite bind_emit. cbn [snd].
  destruct (transpile b d _); [apply plain_transpileDeployed | exact I].
Qed.

Lemma plain_writeBytecode filename contractName output res :
  plain (writeBytecode filename contractName output res).
Proof.
  unfold writeBytecode. cbv zeta.
  repeat (apply plain_obind; [| intros ?]);
    apply plain_update; intros t;
    (apply plain_obind; [apply plain_remove0x_js | intros; apply plain_set]).
Qed.

Lemma plain_collectErrors output res : plain (collectErrors output res).
Proof.
  unfold collectErrors. destruct (truthy _); [| exact I].
  apply plain_obind; [apply plain_get |]. intros e.
  apply plain_obind; [destruct (negb _); [apply plain_set | exact I] |].
  intros r. apply plain_obind; [apply plain_spread |]. intros items.
  apply plain_update. intros t. apply plain_push.
Qed.

Lemma plain_compileContract T filename contractName contractJson res :
  plain (snd (compileContract T filename contractName contractJson res)).
Proof.
  unfold compileContract.
  apply plain_bind; [apply plain_transpileContract |]. intros output.
  apply plain_bind; [apply plain_writeBytecode |]. intros r.
  apply plain_collectErrors.
Qed.

Lemma plain_compileContracts T files res :
  plain (snd (compileContracts T files res)).
Proof.
  unfold compileContracts. apply plain_forEach. intros [filename fileJson] s.
  apply plain_bind; [apply plain_entries |]. intros cs.
  apply plain_forEach. intros [contractName contractJson] s'.
  apply plain_compileContract.
Qed.

Lemma plain_getSolcConfig config : plain (getSolcConfig config).
Proof.
  unfold getSolcConfig.
  apply plain_obind; [apply plain_update; intros; apply plain_delete |].
  intros s0. apply plain_obind; [apply plain_path_get |]. intros sel.
  apply plain_obind; [apply plain_entries |]. intros files.
  apply plain_obind; [| intros; exact I].
  apply plain_oforEach. intros [filename fileConfig] s.
  apply plain_obind; [apply plain_entries |]. intros cs.
  apply plain_oforEach. intros [contractName contractConfig] s'.
  apply plain_obind;
    [destruct contractConfig; try exact I; apply plain_lowerAll |].
  intros lowerConfig. apply plain_obind; [apply plain_has |]. intros l1.
  destruct (negb l1); [| exact I].
  apply plain_obind; [apply plain_has |]. intros l2.
  destruct (negb l2); [| exact I].
  apply plain_update. intros t. apply plain_push.
Qed.

(* ================================================================== *)
(** ** The errors array of the result                                  *)
(* ================================================================== *)

(** What lines 100 to 106 add to [res.errors] for one output. *)
Definition reported (output : TranspilationOutput) : list json :=
  if truthy output.(errors) then
    match spread output.(errors) with
    | Returned items => items
    | _ => []
    end
  else [].

(** The same for the contract [contractName] of [filename]. *)
Definition contractErrors (T : Transpiler) (filename : string)
    (c : string * json) : list json :=
  match snd (transpileContract T (snd c) filename (fst c)) with
  | Returned output => reported output
  | _ => []
  end.

(** And for a batch, in the order of the files and of their
    contracts. *)
Definition batchErrors (T : Transpiler) (files : list (string * json))
  : list json :=
  flat_map
    (fun f =>
       flat_map (contractErrors T (fst f))
                (match entries (Some (snd f)) with
                 | Returned cs => cs
                 | _ => []
                 end))
    files.

Lemma forEach_flat X S (m : S -> list json) (g : X -> list json)
      (xs : list X) body (s : S) t s' :
  (forall x s t s', In x xs -> body x s = (t, Returned s') ->
                    m s' = (m s ++ g x)%list) ->
  forEach xs body s = (t, Returned s') ->
  m s' = (m s ++ flat_map g xs)%list.
Proof.
  revert s t. induction xs as [| x xs IH]; intros s t B H.
  - cbn in H. injection H as _ <-. cbn. now rewrite List.app_nil_r.
  - apply forEach_cons in H. destruct H as (t1 & s1 & t2 & H1 & H2 & _).
    cbn [flat_map]. rewrite List.app_assoc.
    rewrite <- (B x s t1 s1 (or_introl eq_refl) H1).
    apply (IH s1 t2); [| exact H2].
    intros y u tu u' I. apply B. now right.
Qed.

Lemma compileContract_reported T filename contractName contractJson res t res' :
  compileContract T filename contractName contractJson res = (t, Returned res') ->
  errorsOf res'
  = (errorsOf res
     ++ contractErrors T filename (contractName, contractJson))%list.
Proof.
  intros H. destruct (compileContract_inv _ _ _ _ _ _ _ H)
    as (output & r1 & Ht & Hw & Hc).
  unfold contractErrors. cbn [fst snd]. rewrite Ht. cbn [snd].
  assert (E : errorsOf r1 = errorsOf res).
  { unfold errorsOf. rewrite (errorsOf_path r1 res); [reflexivity |].
    apply (writeBytecode_other_member _ _ _ _ _ "errors" [] Hw). discriminate. }
  unfold reported.
  destruct (collectErrors_inv _ _ _ Hc)
    as [[F ->] | (Tr & items & Sp & O & _)].
  - rewrite F, List.app_nil_r. exact E.
  - rewrite Tr, Sp. unfold errorsOf at 1. rewrite O. now rewrite E.
Qed.

Lemma compileContracts_reported T files res t out :
  compileContracts T files res = (t, Returned out) ->
  errorsOf out = (errorsOf res ++ batchErrors T files)%list.
Proof.
  unfold compileContracts, batchErrors. intros H.
  refine (forEach_flat _ _ errorsOf _ files _ res t out _ H).
  intros [filename fileJson] s ts s' _ B. cbn [fst snd].
  rewrite bind_lift in B.
  destruct (entries (Some fileJson)) as [cs | |]; try discriminate B.
  refine (forEach_flat _ _ errorsOf _ cs _ s ts s' _ B).
  intros [contractName contractJson] u tu u' _ C.
  exact (compileContract_reported _ _ _ _ _ _ _ C).
Qed.

(** X7.  The [errors] array of what [compile] returns is the one solc
    made, followed by the error records of the contracts in the order
    of the batch (files in the order of [contracts], contracts in the
    order of their file): nothing is dropped, added or reordered. *)
Theorem errors_are_appended_in_batch_order
    (configJsonString : string) (callbacks : option Callbacks)
    (json : JS.json) (solcConfig : string) (res : JS.json)
    (files : list (string * JS.json)) (tr : list event) (s : string) :
  transpiling configJsonString callbacks json solcConfig res files ->
  compile configJsonString callbacks = (tr, Returned s) ->
  exists out,
    s = JSON_stringify out
    /\ errorsOf out
       = (errorsOf res ++ batchErrors (transpilerFor json) files)%list.
Proof.
  intros R H.
  destruct (compile_returned _ _ _ _ _ _ _ _ R H)
    as (t & res' & out & _ & L & F & E).
  exists out. split; [exact E |].
  rewrite <- (compileContracts_reported _ _ _ _ _ L).
  unfold errorsOf. rewrite (errorsOf_path out res'); [reflexivity |].
  apply (formatted_member _ _ _ "errors" [] F). discriminate.
Qed.

(* ================================================================== *)
(** ** A record without bytecode                                       *)
(* ================================================================== *)

(** X8.  A contract of the batch whose record has no [evm], or no
    [bytecode] under [evm] (solc was not asked for it), stops the
    whole batch: reading [evm.bytecode.object] on line 349 is outside
    the [try] of [getBytecode], and the [TypeError] leaves [compile]
    without a result for any contract. *)
Theorem missing_bytecode_object_aborts_the_batch
    (configJsonString : string) (callbacks : option Callbacks)
    (json : JS.json) (solcConfig : string) (res : JS.json)
    (files : list (string * JS.json)) (filename contractName : string)
    (fileJson contractJson : JS.json) (cs : list (string * JS.json)) :
  transpiling configJsonString callbacks json solcConfig res files ->
  In (filename, fileJson) files ->
  entries (Some fileJson) = Returned cs ->
  In (contractName, contractJson) cs ->
  path_get ["evm"; "bytecode"; "object"] (Some contractJson) = Threw TypeError ->
  transpileContract (transpilerFor json) contractJson filename contractName
  = ([], Threw TypeError)
  /\ exists tr, compile configJsonString callbacks = (tr, Threw TypeError).
Proof.
  intros R If Hc Ic G.
  assert (E : transpileContract (transpilerFor json) contractJson
                                filename contractName = ([], Threw TypeError)).
  { unfold transpileContract. rewrite G. reflexivity. }
  split; [exact E |].
  rewrite (compile_transpiling _ _ _ _ _ _ R). rewrite bind_emit.
  pose proof (plain_compileContracts (transpilerFor json) files res) as P.
  destruct (compileContracts (transpilerFor json) files res) as [t o] eqn:L.
  cbn [snd] in P.
  assert (O : o = Threw TypeError).
  { apply plain_not_returned; [exact P |]. intros out ->.
    destruct (compileContracts_each _ _ _ _ _ _ _ _ _ _ L If Hc Ic)
      as (t0 & output & E'). rewrite E in E'. discriminate E'. }
  subst o. eexists. cbn. reflexivity.
Qed.

(* ================================================================== *)
(** ** The calls compile makes                                         *)
(* ================================================================== *)

(** A call to one of the two methods of the transpiler. *)
Definition transpiler_call (e : event) : bool :=
  match e with
  | SolcCompile _ => false
  | Transpile _ _ _ | TranspileRawBytecode _ => true
  end.

Lemma events_bind A B (P : event -> Prop) (m : M A) (k : A -> M B) :
  Forall P (fst m) -> (forall a, Forall P (fst (k a))) ->
  Forall P (fst (bind m k)).
Proof.
  destruct m as [t [a | e |]]; cbn [bind fst]; auto.
  intros Pt K. specialize (K a). destruct (k a) as [t' r]. cbn [fst] in *.
  apply Forall_app. auto.
Qed.

Lemma events_lift A (P : event -> Prop) (o : outcome A) :
  Forall P (fst (lift o)).
Proof. constructor. Qed.

Lemma events_forEach X S (P : event -> Prop) (xs : list X)
      (body : X -> S -> M S) s :
  (forall x s, Forall P (fst (body x s))) -> Forall P (fst (forEach xs body s)).
Proof.
  intros B. revert s. induction xs as [| x xs IH]; intros s; [constructor |].
  cbn [forEach]. apply events_bind; [apply B | exact IH].
Qed.

Lemma events_transpileContract T contractSolcOutput filename contractName :
  Forall (fun e => transpiler_call e = true)
         (fst (transpileContract T contractSolcOutput filename contractName)).
Proof.
  apply Forall_forall. intros e I.
  destruct (transpileContract_calls _ _ _ _ _ I)
    as [(c & d & size & _ & _ & ->) | (d & _ & ->)]; reflexivity.
Qed.

Lemma events_compileContracts T files res :
  Forall (fun e => transpiler_call e = true)
         (fst (compileContracts T files res)).
Proof.
  unfold compileContracts. apply events_forEach. intros [filename fileJson] s.
  apply events_bind; [apply events_lift |]. intros cs.
  apply events_forEach. intros [contractName contractJson] s'.
  unfold compileContract.
  apply events_bind; [apply events_transpileContract |]. intros output.
  apply events_bind; [apply events_lift |]. intros r. apply events_lift.
Qed.

(** X9.  Whatever its input and however it ends, [compile] calls solc
    at most once, and as the first thing it calls: either it calls
    nothing, or its calls are one call to [solc.compile] followed by
    calls to the transpiler only. *)
Theorem solc_is_called_once_and_first
    (configJsonString : string) (callbacks : option Callbacks) :
  fst (compile configJsonString callbacks) = []
  \/ exists input calls,
       fst (compile configJsonString callbacks) = SolcCompile input :: calls
       /\ Forall (fun e => transpiler_call e = true) calls.
Proof.
  unfold compile.
  destruct (JSON_parse configJsonString) as [json |];
    [| right; exists configJsonString, []; split; [reflexivity | constructor]].
  rewrite bind_lift.
  destruct (getInputErrors json) as [inputErrors | e |];
    [| left; reflexivity | left; reflexivity].
  destruct (truthy (option_map JStr inputErrors)); [left; reflexivity |].
  rewrite bind_lift.
  destruct (getSolcConfig json) as [solcConfig | e |];
    [| left; reflexivity | left; reflexivity].
  right. exists solcConfig. unfold solc, emit, ret. cbn [bind app].
  match goal with
  | |- context [let (t', r) := ?m in (SolcCompile solcConfig :: t', r)] =>
      exists (fst m); split; [now destruct m |]
  end.
  destruct (JSON_parse _) as [res |]; [| constructor].
  apply events_bind; [apply events_lift |]. intros failed.
  destruct failed; [constructor |].
  apply events_bind; [apply events_lift |]. intros address. cbv zeta.
  apply events_bind; [apply events_lift |]. intros contracts.
  apply events_bind; [apply events_lift |]. intros files.
  apply events_bind; [apply events_compileContracts |]. intros res'.
  apply events_lift.
Qed.

(* ================================================================== *)
(** ** What compile leaves as solc made it                             *)
(* ================================================================== *)

(** The paths of solc's answer [compile] does not write to: all but
    [errors], [contracts[f][c].evm.bytecode.object],
    [contracts[f][c].evm.deployedBytecode.object] and
    [contracts[f][c].evm.legacyAssembly], and what holds them. *)
Definition untouched (path : list string) : bool :=
  match path with
  | [] => false
  | k :: rest =>
      if String.eqb k "contracts" then
        match rest with
        | _ :: _ :: m :: rest =>
            if String.eqb m "evm" then
              match rest with
              | [] => false
              | b :: rest =>
                  if (String.eqb b "bytecode"
                      || String.eqb b "deployedBytecode")%bool
                  then
                    match rest with
                    | [] => false
                    | o :: _ => negb (String.eqb o "object")
                    end
                  else negb (String.eqb b "legacyAssembly")
              end
            else true
        | _ => false
        end
      else negb (String.eqb k "errors")
  end.

Lemma negb_eqb a b : negb (String.eqb a b) = true -> a <> b.
Proof.
  intros H E. subst b. now rewrite String.eqb_refl in H.
Qed.

(** Splits [untouched path] into the cases of its definition. *)
Ltac untouched_cases path H :=
  let k := fresh "k" in
  let f0 := fresh "f0" in
  let c0 := fresh "c0" in
  let m := fresh "m" in
  let b := fresh "b" in
  let o := fresh "o" in
  let rest := fresh "rest" in
  destruct path as [| k [| f0 [| c0 [| m [| b [| o rest]]]]]];
  cbn [untouched] in H; try discriminate H;
  repeat match type of H with
         | context [String.eqb ?x ?y] =>
             let E := fresh "E" in
             destruct (String.eqb_spec x y) as [E | E];
             [try subst x | ]; cbn [orb negb] in H; try discriminate H
         end.

Lemma assign_untouched filename contractName b x v v' path :
  update (target filename contractName b) (set "object" x) v = Returned v' ->
  b = "bytecode" \/ b = "deployedBytecode" ->
  untouched path = true ->
  path_get path (Some v') = path_get path v.
Proof.
  unfold target. intros U B H.
  untouched_cases path H.
  all: try (apart U).
  all: destruct (String.eqb_spec f0 filename) as [-> | Nf]; [| apart U].
  all: destruct (String.eqb_spec c0 contractName) as [-> | Nc]; [| apart U].
  all: try (apart U).
  all: try (destruct B as [-> | ->]; apart U).
  all: destruct B as [-> | ->]; try (apart U).
  all: match goal with
       | |- path_get (_ :: _ :: _ :: _ :: ?m :: ?o :: ?rest) _ = _ =>
           refine (update_preserves ["contracts"; filename; contractName; "evm"; m]
                                    _ o rest _ _ U _);
           apply preserves_set; congruence
       end.
Qed.

Lemma writeBytecode_untouched filename contractName output res res' path :
  writeBytecode filename contractName output res = Returned res' ->
  untouched path = true ->
  path_get path (Some res') = path_get path (Some res).
Proof.
  intros H U.
  destruct (writeBytecode_inv _ _ _ _ _ H)
    as (x1 & x2 & r1 & r2 & r3 & _ & _ & U1 & U2 & U3 & U4).
  rewrite (assign_untouched _ _ _ _ _ _ _ U4 (or_intror eq_refl) U).
  rewrite (assign_untouched _ _ _ _ _ _ _ U3 (or_introl eq_refl) U).
  rewrite (assign_untouched _ _ _ _ _ _ _ U2 (or_intror eq_refl) U).
  exact (assign_untouched _ _ _ _ _ _ _ U1 (or_introl eq_refl) U).
Qed.

Lemma untouched_not_errors k rest : untouched (k :: rest) = true -> k <> "errors".
Proof.
  cbn [untouched]. destruct (String.eqb_spec k "contracts") as [-> | _];
    [discriminate | apply negb_eqb].
Qed.

Lemma compileContract_untouched T filename contractName contractJson res t res'
      path :
  compileContract T filename contractName contractJson res = (t, Returned res') ->
  untouched path = true ->
  path_get path (Some res') = path_get path (Some res).
Proof.
  intros H U. destruct (compileContract_inv _ _ _ _ _ _ _ H)
    as (output & r1 & _ & Hw & Hc).
  rewrite <- (writeBytecode_untouched _ _ _ _ _ _ Hw U).
  destruct (collectErrors_inv _ _ _ Hc) as [[_ ->] | (_ & items & _ & _ & K)];
    [reflexivity |].
  destruct path as [| k rest]; [discriminate U |].
  apply K. exact (untouched_not_errors _ _ U).
Qed.

Lemma compileContracts_untouched T files res t out path :
  compileContracts T files res = (t, Returned out) ->
  untouched path = true ->
  path_get path (Some out) = path_get path (Some res).
Proof.
  unfold compileContracts. intros H U.
  refine (forEach_preserve _ _
            (fun s => path_get path (Some s) = path_get path (Some res))
            files _ res t out _ H eq_refl).
  intros [filename fileJson] s ts s' _ B Ps. rewrite bind_lift in B.
  destruct (entries (Some fileJson)) as [cs | |]; try discriminate B.
  refine (forEach_preserve _ _
            (fun s => path_get path (Some s) = path_get path (Some res))
            cs _ s ts s' _ B Ps).
  intros [contractName contractJson] u tu u' _ C Pu.
  now rewrite (compileContract_untouched _ _ _ _ _ _ _ _ C U).
Qed.

Lemma formatContract_untouched inputConfig filename contractName s s' path :
  formatContract inputConfig filename contractName s = Returned s' ->
  untouched path = true ->
  path_get path (Some s') = path_get path (Some s).
Proof.
  intros F H.
  destruct (formatContract_inv _ _ _ _ _ F) as [-> | U]; [reflexivity |].
  untouched_cases path H.
  all: try (apart U).
  all: destruct (String.eqb_spec f0 filename) as [-> | Nf]; [| apart U].
  all: destruct (String.eqb_spec c0 contractName) as [-> | Nc]; [| apart U].
  all: try (apart U).
  all: match goal with
       | |- path_get (_ :: _ :: _ :: _ :: ?m :: ?rest) _ = _ =>
           refine (update_preserves ["contracts"; filename; contractName; "evm"]
                                    _ m rest _ _ U _);
           apply preserves_delete; congruence
       end.
Qed.

(** X10.  [compile] changes four things in the answer of solc: the
    [errors] array, and for each contract [evm.bytecode.object],
    [evm.deployedBytecode.object] and [evm.legacyAssembly].  All the
    rest is returned as solc made it: the sources, the [abi] and the
    metadata of each contract, and also what solc says of the bytecode
    before its transpilation ([opcodes], [sourceMap],
    [linkReferences], [methodIdentifiers], [gasEstimates]). *)
Theorem rest_of_solc_output_is_unchanged
    (configJsonString : string) (callbacks : option Callbacks)
    (json : JS.json) (solcConfig : string) (res : JS.json)
    (files : list (string * JS.json)) (tr : list event) (s : string) :
  transpiling configJsonString callbacks json solcConfig res files ->
  compile configJsonString callbacks = (tr, Returned s) ->
  exists out,
    s = JSON_stringify out
    /\ forall path,
         untouched path = true ->
         path_get path (Some out) = path_get path (Some res).
Proof.
  intros R H.
  destruct (compile_returned _ _ _ _ _ _ _ _ R H)
    as (t & res' & out & _ & L & F & E).
  exists out. split; [exact E |]. intros path U.
  rewrite <- (compileContracts_untouched _ _ _ _ _ _ L U).
  refine (formatted_preserve
            (fun s => path_get path (Some s) = path_get path (Some res'))
            _ _ _ _ F eq_refl).
  intros filename contractName u u' Fc Pu.
  now rewrite (formatContract_untouched _ _ _ _ _ _ Fc U).
Qed.

(* ================================================================== *)
(** ** What solc is handed                                             *)
(* ================================================================== *)

Definition is_string (j : json) : bool :=
  match j with JStr _ => true | _ => false end.

(** Where the configuration keeps the selection made for a contract. *)
Definition selectionOf (filename contractName : string) : list string :=
  ["settings"; "outputSelection"; filename; contractName].

(** The body of the loops of [getSolcConfig], for one contract. *)
Definition selectContract (filename contractName : string)
    (contractConfig solcConfig : json) : outcome json :=
  lowerConfig <-
    match contractConfig with
    | JArr l => lowerAll l
    | _ => Threw TypeError
    end ;;
  l1 <- has "evm.legacyAssembly" (Some (JArr lowerConfig)) ;;
  if negb l1 then
    l2 <- has "*" (Some (JArr lowerConfig)) ;;
    if negb l2 then
      update ["settings"; "outputSelection"; filename; contractName]
             (push [JStr "evm.legacyAssembly"]) (Some solcConfig)
    else Returned solcConfig
  else Returned solcConfig.

(** The inner loop, over the contracts of one file. *)
Definition selectLoop (filename : string) (cs : list (string * json))
    (solcConfig : json) : outcome json :=
  oforEach cs (fun '(contractName, contractConfig) solcConfig =>
                 selectContract filename contractName contractConfig solcConfig)
          solcConfig.

(** The outer loop, over the files. *)
Definition selectFiles (files : list (string * json)) (solcConfig : json)
  : outcome json :=
  oforEach files (fun '(filename, fileConfig) solcConfig =>
                    contracts <- entries (Some fileConfig) ;;
                    selectLoop filename contracts solcConfig)
          solcConfig.

(** The elements of all the selections of a configuration, as
    [getSolcConfig] goes through them. *)
Definition selected (config : json) : list json :=
  match path_get ["settings"; "outputSelection"] (Some config) with
  | Returned outputSelection =>
      match entries outputSelection with
      | Returned files =>
          flat_map
            (fun f =>
               match entries (Some (snd f)) with
               | Returned cs =>
                   flat_map (fun c => match snd c with
                                      | JArr l => l
                                      | _ => []
                                      end) cs
               | _ => []
               end)
            files
      | _ => []
      end
  | _ => []
  end.

(** The selection [l] is the one made for the contract [contractName]
    of [filename] in the entries [files] of [outputSelection], no
    name standing for two entries (as in every object). *)
Definition selects (files : list (string * json))
    (filename contractName : string) (l : list json) : Prop :=
  exists fileConfig cs,
    In (filename, fileConfig) files
    /\ entries (Some fileConfig) = Returned cs
    /\ In (contractName, JArr l) cs
    /\ NoDup (map fst files) /\ NoDup (map fst cs).

Lemma getSolcConfig_loops config :
  getSolcConfig config
  = (solcConfig <- update ["settings"] (delete "executionManagerAddress")
                          (Some config) ;;
     outputSelection <- path_get ["settings"; "outputSelection"]
                                 (Some solcConfig) ;;
     files <- entries outputSelection ;;
     solcConfig <- selectFiles files solcConfig ;;
     Returned (JSON_stringify solcConfig)).
Proof. reflexivity. Qed.

Lemma lowerAll_returned l l' :
  lowerAll l = Returned l' -> Forall (fun x => is_string x = true) l.
Proof.
  revert l'. induction l as [| x l IH]; intros l' H; [constructor |].
  destruct x; try discriminate H. cbn [lowerAll] in H.
  apply obind_Returned in H. destruct H as (r & H & _).
  constructor; [reflexivity | exact (IH _ H)].
Qed.

Lemma lowerAll_strings l :
  Forall (fun x => is_string x = true) l -> exists l', lowerAll l = Returned l'.
Proof.
  induction 1 as [| x l Sx _ [l' IH]]; [now exists [] |].
  destruct x; try discriminate Sx. cbn [lowerAll]. rewrite IH.
  cbn [obind]. eauto.
Qed.

Lemma never_listed l :
  has "evm.legacyAssembly" (Some (JArr l)) = Returned false
  /\ has "*" (Some (JArr l)) = Returned false.
Proof.
  cbn [has own String.eqb Ascii.eqb Bool.eqb].
  now rewrite !elem_from_named.
Qed.

Lemma selectContract_push filename contractName l l' solcConfig :
  lowerAll l = Returned l' ->
  selectContract filename contractName (JArr l) solcConfig
  = update (selectionOf filename contractName)
           (push [JStr "evm.legacyAssembly"]) (Some solcConfig).
Proof.
  intros L. unfold selectContract. rewrite L. cbn [obind].
  destruct (never_listed l') as [-> ->]. reflexivity.
Qed.

Lemma selectContract_inv filename contractName contractConfig s s' :
  selectContract filename contractName contractConfig s = Returned s' ->
  exists l,
    contractConfig = JArr l
    /\ Forall (fun x => is_string x = true) l
    /\ update (selectionOf filename contractName)
              (push [JStr "evm.legacyAssembly"]) (Some s) = Returned s'.
Proof.
  intros H. destruct contractConfig as [| | | | l |]; try discriminate H.
  destruct (lowerAll l) as [l' | |] eqn:L;
    try (unfold selectContract in H; rewrite L in H; discriminate H).
  rewrite (selectContract_push _ _ _ _ _ L) in H.
  exists l. split; [reflexivity |]. split; [exact (lowerAll_returned _ _ L) |].
  exact H.
Qed.

Lemma selectFiles_preserve (P : json -> Prop) files s s' :
  (forall filename contractName contractConfig u u',
      selectContract filename contractName contractConfig u = Returned u' ->
      P u -> P u') ->
  selectFiles files s = Returned s' -> P s -> P s'.
Proof.
  intros Step H. unfold selectFiles in H.
  refine (oforEach_preserve _ _ P files _ s s' _ H).
  intros [f fc] u u' _ B Pu.
  apply obind_Returned in B. destruct B as (cs & _ & B).
  refine (oforEach_preserve _ _ P cs _ u u' _ B Pu).
  intros [c cc] w w' _ C Pw. exact (Step _ _ _ _ _ C Pw).
Qed.

Lemma selectContract_other filename contractName contractConfig s s' f0 c0 rest :
  selectContract filename contractName contractConfig s = Returned s' ->
  f0 <> filename \/ c0 <> contractName ->
  path_get ("settings" :: "outputSelection" :: f0 :: c0 :: rest) (Some s')
  = path_get ("settings" :: "outputSelection" :: f0 :: c0 :: rest) (Some s).
Proof.
  intros H N. destruct (selectContract_inv _ _ _ _ _ H) as (l & _ & _ & U).
  unfold selectionOf in U.
  destruct N as [N | N]; [apart U |].
  destruct (String.eqb_spec f0 filename) as [-> | Nf]; apart U.
Qed.

Lemma selectLoop_other filename cs s s' f0 c0 rest :
  selectLoop filename cs s = Returned s' ->
  f0 <> filename \/ ~ In c0 (map fst cs) ->
  path_get ("settings" :: "outputSelection" :: f0 :: c0 :: rest) (Some s')
  = path_get ("settings" :: "outputSelection" :: f0 :: c0 :: rest) (Some s).
Proof.
  intros H N. unfold selectLoop in H.
  refine (oforEach_preserve _ _
            (fun u => path_get ("settings" :: "outputSelection" :: f0 :: c0 :: rest)
                               (Some u)
                      = path_get ("settings" :: "outputSelection" :: f0 :: c0 :: rest)
                                 (Some s))
            cs _ s s' _ H eq_refl).
  intros [c cc] u u' I B Pu. rewrite <- Pu.
  apply (selectContract_other _ _ _ _ _ _ _ _ B).
  destruct N as [N | N]; [now left | right].
  intros ->. apply N. apply (in_map fst) in I. exact I.
Qed.

Lemma selectFiles_other files s s' f0 c0 rest :
  selectFiles files s = Returned s' ->
  ~ In f0 (map fst files) ->
  path_get ("settings" :: "outputSelection" :: f0 :: c0 :: rest) (Some s')
  = path_get ("settings" :: "outputSelection" :: f0 :: c0 :: rest) (Some s).
Proof.
  intros H N. unfold selectFiles in H.
  refine (oforEach_preserve _ _
            (fun u => path_get ("settings" :: "outputSelection" :: f0 :: c0 :: rest)
                               (Some u)
                      = path_get ("settings" :: "outputSelection" :: f0 :: c0 :: rest)
                                 (Some s))
            files _ s s' _ H eq_refl).
  intros [f fc] u u' I B Pu. rewrite <- Pu.
  apply obind_Returned in B. destruct B as (cs & _ & B).
  apply (selectLoop_other _ _ _ _ _ _ _ B). left.
  intros ->. apply N. apply (in_map fst) in I. exact I.
Qed.

(** The clone without the address keeps the selections. *)
Lemma stripped_selection config s0 rest :
  update ["settings"] (delete "executionManagerAddress") (Some config)
    = Returned s0 ->
  path_get ("settings" :: "outputSelection" :: rest) (Some s0)
  = path_get ("settings" :: "outputSelection" :: rest) (Some config).
Proof.
  intros U.
  refine (update_preserves ["settings"] _ "outputSelection" rest _ _ U _).
  apply preserves_delete. discriminate.
Qed.

Lemma getSolcConfig_inv config s :
  getSolcConfig config = Returned s ->
  exists s0 outputSelection files out,
    update ["settings"] (delete "executionManagerAddress") (Some config)
      = Returned s0
    /\ path_get ["settings"; "outputSelection"] (Some config)
       = Returned outputSelection
    /\ entries outputSelection = Returned files
    /\ selectFiles files s0 = Returned out
    /\ s = JSON_stringify out.
Proof.
  rewrite getSolcConfig_loops. intros H.
  apply obind_Returned in H. destruct H as (s0 & U & H).
  apply obind_Returned in H. destruct H as (sel & G & H).
  apply obind_Returned in H. destruct H as (files & E & H).
  apply obind_Returned in H. destruct H as (out & L & H).
  injection H as <-. rewrite (stripped_selection _ _ [] U) in G.
  exists s0, sel, files, out. auto.
Qed.

(** X11.  What [getSolcConfig] hands to solc is the configuration
    without the [executionManagerAddress] of its settings, which solc
    does not know.  But for [outputSelection], every other setting
    and every other member of the configuration (the sources, the
    language) is handed over as it was given. *)
Theorem getSolcConfig_strips_the_address (config : json) (s : string) :
  getSolcConfig config = Returned s ->
  exists out,
    s = JSON_stringify out
    /\ path_get ["settings"; "executionManagerAddress"] (Some out)
       = Returned None
    /\ (forall k rest,
           k <> "settings" ->
           path_get (k :: rest) (Some out) = path_get (k :: rest) (Some config))
    /\ (forall k rest,
           k <> "executionManagerAddress" -> k <> "outputSelection" ->
           path_get ("settings" :: k :: rest) (Some out)
           = path_get ("settings" :: k :: rest) (Some config)).
Proof.
  intros H.
  destruct (getSolcConfig_inv _ _ H) as (s0 & sel & files & out & U & _ & _ & L & ->).
  exists out. split; [reflexivity |].
  assert (Step : forall path,
             (exists k rest, path = k :: rest /\ k <> "settings")
             \/ (exists k rest, path = "settings" :: k :: rest
                                /\ k <> "outputSelection") ->
             path_get path (Some out) = path_get path (Some s0)).
  { intros path Hp.
    refine (selectFiles_preserve
              (fun u => path_get path (Some u) = path_get path (Some s0))
              _ _ _ _ L eq_refl).
    intros f c cc u u' C Pu. rewrite <- Pu.
    destruct (selectContract_inv _ _ _ _ _ C) as (l & _ & _ & W).
    unfold selectionOf in W.
    destruct Hp as [(k & rest & -> & N) | (k & rest & -> & N)]; apart W. }
  split; [| split].
  - rewrite Step by (right; exists "executionManagerAddress", []; split;
                     [reflexivity | discriminate]).
    clear Step L. cbn [update] in U.
    destruct config as [| b | n | c | l | o]; try discriminate U;
      apply obind_Returned in U; destruct U as (x & D & U);
      injection U as <-.
    + cbn [own String.eqb Ascii.eqb Bool.eqb] in D.
      rewrite elem_from_named in D by reflexivity. discriminate D.
    + cbn [own String.eqb Ascii.eqb Bool.eqb] in D.
      rewrite elem_from_named in D by reflexivity. discriminate D.
    + cbn [path_get get own obind]. rewrite assoc_put_same. cbn [obind].
      destruct (assoc "settings" o) as [[| b | n | c | l | o'] |];
        try discriminate D; cbn [delete] in D; injection D as <-;
        cbn [get own String.eqb Ascii.eqb Bool.eqb];
        rewrite ?elem_from_named by reflexivity; try reflexivity.
      now rewrite assoc_remove_same.
  - intros k rest N.
    rewrite Step by (left; eauto).
    refine (@update_disjoint [] _ _ _ _ _ _ _ U _). congruence.
  - intros k rest N1 N2.
    rewrite Step by (right; eauto).
    refine (update_preserves ["settings"] _ k rest _ _ U _).
    apply preserves_delete. congruence.
Qed.

(** A name that stands for one entry splits the entries in two. *)
Lemma split_name (es : list (string * json)) k v :
  NoDup (map fst es) -> In (k, v) es ->
  exists pre post,
    es = (pre ++ (k, v) :: post)%list
    /\ ~ In k (map fst pre) /\ ~ In k (map fst post).
Proof.
  intros N I. destruct (in_split _ _ I) as (pre & post & ->).
  exists pre, post. split; [reflexivity |].
  rewrite map_app in N. cbn [map fst] in N.
  apply NoDup_remove_2 in N. rewrite in_app_iff in N.
  split; intros H; apply N; [now left | now right].
Qed.

Lemma selection_lookup config sel files filename contractName l rest :
  path_get ["settings"; "outputSelection"] (Some config) = Returned sel ->
  entries sel = Returned files ->
  selects files filename contractName l ->
  path_get ("settings" :: "outputSelection" :: filename :: contractName :: rest)
           (Some config)
  = path_get rest (Some (JArr l)).
Proof.
  intros G E (fc & cs & If & Ec & Ic & Nf & Nc).
  change ("settings" :: "outputSelection" :: filename :: contractName :: rest)
    with (["settings"; "outputSelection"] ++ filename :: contractName :: rest)%list.
  rewrite path_get_app, G. cbn [obind path_get].
  rewrite (entry_lookup _ _ _ _ E Nf If). cbn [obind].
  rewrite (entry_lookup _ _ _ _ Ec Nc Ic). reflexivity.
Qed.

(** X12.  [getSolcConfig] adds ['evm.legacyAssembly'] at the end of
    the selection of every contract, and leaves what the selection
    held before it, in its order and spelling.  It does so whether or
    not the selection lists ['evm.legacyAssembly'] or ['*'] already:
    the test made before looks for these among the indices of the
    array. *)
Theorem getSolcConfig_appends_legacyAssembly
    (config : json) (s : string) (outputSelection : jsval)
    (files : list (string * json)) (filename contractName : string)
    (l : list json) :
  getSolcConfig config = Returned s ->
  path_get ["settings"; "outputSelection"] (Some config)
    = Returned outputSelection ->
  entries outputSelection = Returned files ->
  selects files filename contractName l ->
  exists out,
    s = JSON_stringify out
    /\ path_get (selectionOf filename contractName) (Some out)
       = Returned (Some (JArr (l ++ [JStr "evm.legacyAssembly"])%list)).
Proof.
  intros H G E Sel.
  destruct (getSolcConfig_inv _ _ H)
    as (s0 & sel' & files' & out & U & G' & E' & L & ->).
  rewrite G in G'. injection G' as <-. rewrite E in E'. injection E' as <-.
  exists out. split; [reflexivity |].
  assert (G0 : path_get (selectionOf filename contractName) (Some s0)
               = Returned (Some (JArr l))).
  { unfold selectionOf. rewrite (stripped_selection _ _ _ U).
    now rewrite (selection_lookup _ _ _ _ _ _ [] G E Sel). }
  destruct Sel as (fc & cs & If & Ec & Ic & Nf & Nc).
  destruct (split_name _ _ _ Nf If) as (fpre & fpost & -> & Npre & Npost).
  unfold selectFiles in L. apply oforEach_split in L.
  destruct L as (s1 & s2 & Hpre & Hfile & Hpost).
  fold (selectFiles fpre s0) in Hpre. fold (selectFiles fpost s2) in Hpost.
  rewrite Ec in Hfile. cbn [obind] in Hfile.
  destruct (split_name _ _ _ Nc Ic) as (cpre & cpost & -> & Mpre & Mpost).
  unfold selectLoop in Hfile. apply oforEach_split in Hfile.
  destruct Hfile as (r1 & r2 & Cpre & Cstep & Cpost).
  fold (selectLoop filename cpre s1) in Cpre.
  fold (selectLoop filename cpost r2) in Cpost.
  assert (G1 : path_get (selectionOf filename contractName) (Some r1)
               = Returned (Some (JArr l))).
  { rewrite <- G0. unfold selectionOf.
    rewrite (selectLoop_other _ _ _ _ _ _ _ Cpre (or_intror Mpre)).
    apply (selectFiles_other _ _ _ _ _ _ Hpre Npre). }
  destruct (selectContract_inv _ _ _ _ _ Cstep) as (l0 & _ & _ & W).
  destruct (update_target _ _ _ _ _ G1 eq_refl W) as (t' & Pt & Gt).
  cbn [push] in Pt. injection Pt as <-.
  rewrite <- Gt. unfold selectionOf.
  rewrite (selectFiles_other _ _ _ _ _ _ Hpost Npost).
  apply (selectLoop_other _ _ _ _ _ _ _ Cpost (or_intror Mpost)).
Qed.

Lemma selected_In config sel files x :
  path_get ["settings"; "outputSelection"] (Some config) = Returned sel ->
  entries sel = Returned files ->
  In x (selected config) ->
  exists f fc cs c l,
    In (f, fc) files /\ entries (Some fc) = Returned cs
    /\ In (c, JArr l) cs /\ In x l.
Proof.
  intros G E I. unfold selected in I. rewrite G, E in I.
  apply in_flat_map in I. destruct I as ([f fc] & If & I). cbn [snd] in I.
  destruct (entries (Some fc)) as [cs | |] eqn:Ec; try contradiction.
  apply in_flat_map in I. destruct I as ([c cc] & Ic & I). cbn [snd] in I.
  destruct cc as [| | | | l |]; try contradiction.
  exists f, fc, cs, c, l. auto.
Qed.

Lemma In_selected config sel files f fc cs c l x :
  path_get ["settings"; "outputSelection"] (Some config) = Returned sel ->
  entries sel = Returned files ->
  In (f, fc) files -> entries (Some fc) = Returned cs ->
  In (c, JArr l) cs -> In x l ->
  In x (selected config).
Proof.
  intros G E If Ec Ic Ix. unfold selected. rewrite G, E.
  apply in_flat_map. exists (f, fc). split; [exact If |].
  cbn [snd]. rewrite Ec. apply in_flat_map. exists (c, JArr l).
  split; [exact Ic | exact Ix].
Qed.

Lemma selectFiles_strings files s s' f fc cs c cc :
  selectFiles files s = Returned s' ->
  In (f, fc) files -> entries (Some fc) = Returned cs -> In (c, cc) cs ->
  exists l, cc = JArr l /\ Forall (fun x => is_string x = true) l.
Proof.
  intros H If Ec Ic.
  destruct (in_split _ _ If) as (fpre & fpost & ->).
  unfold selectFiles in H. apply oforEach_split in H.
  destruct H as (s1 & s2 & _ & Hfile & _).
  rewrite Ec in Hfile. cbn [obind] in Hfile.
  destruct (in_split _ _ Ic) as (cpre & cpost & ->).
  unfold selectLoop in Hfile. apply oforEach_split in Hfile.
  destruct Hfile as (r1 & r2 & _ & Cstep & _).
  destruct (selectContract_inv _ _ _ _ _ Cstep) as (l & -> & S & _).
  eauto.
Qed.

(** X13.  The validation looks at the form of [outputSelection], not
    at what the selections hold: a selection with an element that is
    not a string passes [getInputErrors], and [getSolcConfig] then
    throws when it calls [toLowerCase] on the element.  [compile]
    throws with it, before solc is called. *)
Theorem non_string_selection_throws
    (configJsonString : string) (callbacks : option Callbacks)
    (json x : JS.json) :
  JSON_parse configJsonString = Some json ->
  getInputErrors json = Returned None ->
  In x (selected json) -> is_string x = false ->
  getSolcConfig json = Threw TypeError
  /\ compile configJsonString callbacks = ([], Threw TypeError).
Proof.
  intros P V I N.
  assert (E : getSolcConfig json = Threw TypeError).
  { apply plain_not_returned; [apply plain_getSolcConfig |].
    intros s H.
    destruct (getSolcConfig_inv _ _ H)
      as (s0 & sel & files & out & _ & G & Ef & L & _).
    destruct (selected_In _ _ _ _ G Ef I) as (f & fc & cs & c & l & If & Ec & Ic & Ix).
    destruct (selectFiles_strings _ _ _ _ _ _ _ _ L If Ec Ic) as (l' & [= <-] & S).
    rewrite Forall_forall in S. rewrite (S x Ix) in N. discriminate N. }
  split; [exact E |].
  unfold compile. rewrite P, V. rewrite bind_lift. cbn [option_map truthy].
  rewrite E. reflexivity.
Qed.

Lemma oforEach_returns X S (Inv : S -> Prop) (xs : list X) body (s : S) :
  (forall x s, In x xs -> Inv s -> exists s', body x s = Returned s' /\ Inv s') ->
  Inv s ->
  exists s', oforEach xs body s = Returned s' /\ Inv s'.
Proof.
  revert s. induction xs as [| x xs IH]; intros s B I.
  - exists s. split; [reflexivity | exact I].
  - destruct (B x s (or_introl eq_refl) I) as (s1 & B1 & I1).
    destruct (IH s1) as (s' & H & I'); [| exact I1 |].
    + intros y u Iy. apply B. now right.
    + exists s'. cbn [oforEach]. rewrite B1. cbn [obind]. auto.
Qed.

Lemma In_assoc k v (o : list (string * json)) :
  In (k, v) o -> exists v', assoc k o = Some v' /\ In (k, v') o.
Proof.
  induction o as [| [k' w] o IH]; [contradiction |].
  cbn [In assoc]. destruct (String.eqb_spec k k') as [-> | N].
  - intros _. exists w. auto.
  - intros [[= -> ->] | I]; [contradiction |].
    destruct (IH I) as (v' & A & I'). eauto.
Qed.

(** The selection of the contract is an array. *)
Definition selection_array (s : json) (filename contractName : string) : Prop :=
  exists l, path_get (selectionOf filename contractName) (Some s)
            = Returned (Some (JArr l)).

Lemma selectContract_returns filename contractName l s :
  Forall (fun x => is_string x = true) l ->
  selection_array s filename contractName ->
  exists s',
    selectContract filename contractName (JArr l) s = Returned s'
    /\ forall f0 c0, selection_array s f0 c0 -> selection_array s' f0 c0.
Proof.
  intros S [l1 G]. destruct (lowerAll_strings _ S) as [l' L].
  rewrite (selectContract_push _ _ _ _ _ L).
  destruct (update_returns (selectionOf filename contractName)
              (push [JStr "evm.legacyAssembly"]) _ _ _ G eq_refl) as [s' U].
  exists s'. split; [exact U |]. intros f0 c0 [l0 G0].
  destruct (String.eqb_spec f0 filename) as [-> | Nf];
    [destruct (String.eqb_spec c0 contractName) as [-> | Nc] |].
  - destruct (update_target _ _ _ _ _ G eq_refl U) as (t' & Pt & Gt).
    cbn [push] in Pt. injection Pt as <-. eexists. exact Gt.
  - exists l0. rewrite <- G0. unfold selectionOf in *. apart U.
  - exists l0. rewrite <- G0. unfold selectionOf in *. apart U.
Qed.

Lemma file_selection_arrays fc :
  file_selection fc = true ->
  exists o, fc = JObj o
            /\ forall c cc, In (c, cc) o -> exists l, cc = JArr l.
Proof.
  destruct fc as [| | | | | o]; try discriminate. cbn [file_selection].
  intros F. exists o. split; [reflexivity |]. intros c cc I.
  rewrite forallb_forall in F. specialize (F _ I). cbn [snd] in F.
  destruct cc; try discriminate F. eauto.
Qed.

(** X14.  A well-formed configuration whose selections hold strings
    only gets to solc: [getSolcConfig] returns for it, and the first
    thing [compile] calls is solc, with what [getSolcConfig]
    returned. *)
Theorem well_formed_configuration_reaches_solc
    (configJsonString : string) (callbacks : option Callbacks)
    (json : JS.json) :
  JSON_parse configJsonString = Some json ->
  well_formed json ->
  Forall (fun x => is_string x = true) (selected json) ->
  exists solcConfig calls,
    getSolcConfig json = Returned solcConfig
    /\ fst (compile configJsonString callbacks)
       = SolcCompile solcConfig :: calls.
Proof.
  intros P W S. pose proof (well_formed_accepted _ W) as V.
  destruct W as (settings & os & es & (Hs & T & O & _)
                 & Hos & Tos & Oos & He & Ne & F).
  assert (G : path_get ["settings"; "outputSelection"] (Some json)
              = Returned os).
  { cbn [path_get]. rewrite Hs. cbn [obind]. rewrite Hos. reflexivity. }
  (* the clone without the address *)
  destruct settings as [settings |]; [| discriminate T].
  assert (U : exists s0,
             update ["settings"] (delete "executionManagerAddress") (Some json)
             = Returned s0).
  { refine (update_returns ["settings"] _ _ (Some settings)
              (match settings with
               | JObj o => JObj (remove "executionManagerAddress" o)
               | j => j
               end) _ _).
    - cbn [path_get]. rewrite Hs. reflexivity.
    - destruct settings; try reflexivity. discriminate T. }
  destruct U as [s0 U].
  (* every selection is an array of strings, found where it is looked for *)
  assert (Reach : forall f fc, In (f, fc) es ->
             exists o, fc = JObj o
                       /\ forall c cc, In (c, cc) o ->
                            (exists l, cc = JArr l
                                       /\ Forall (fun x => is_string x = true) l)
                            /\ selection_array s0 f c).
  { intros f fc If. rewrite Forall_forall in F.
    destruct (F _ If) as [Fs Fg]. cbn [fst snd] in Fs, Fg.
    destruct (file_selection_arrays _ Fs) as (o & -> & A).
    exists o. split; [reflexivity |]. intros c cc Ic. split.
    - destruct (A _ _ Ic) as [l ->]. exists l. split; [reflexivity |].
      apply Forall_forall. intros x Ix. rewrite Forall_forall in S. apply S.
      exact (In_selected _ _ _ _ _ _ _ _ _ G He If eq_refl Ic Ix).
    - destruct (In_assoc _ _ _ Ic) as (cc' & Ac & Ic').
      destruct (A _ _ Ic') as [l ->]. exists l. unfold selectionOf.
      rewrite (stripped_selection _ _ _ U).
      change ["settings"; "outputSelection"; f; c]
        with (["settings"; "outputSelection"] ++ [f; c])%list.
      rewrite path_get_app, G. cbn [obind path_get]. rewrite Fg.
      cbn [obind get own]. now rewrite Ac. }
  (* the loops *)
  assert (L : exists out, selectFiles es s0 = Returned out).
  { destruct (oforEach_returns _ _
                (fun s => forall f fc o c cc,
                     In (f, fc) es -> fc = JObj o -> In (c, cc) o ->
                     selection_array s f c)
                es
                (fun '(filename, fileConfig) solcConfig =>
                   contracts <- entries (Some fileConfig) ;;
                   selectLoop filename contracts solcConfig) s0)
      as (out & H & _).
    - intros [f fc] s If Inv.
      destruct (Reach _ _ If) as (o & -> & R). cbn [entries obind].
      unfold selectLoop.
      refine (oforEach_returns _ _ _ o _ s _ Inv).
      intros [c cc] u Ic Iu.
      destruct (R _ _ Ic) as [(l & -> & Sl) _].
      destruct (selectContract_returns f c l u Sl (Iu _ _ _ _ _ If eq_refl Ic))
        as (u' & C & K).
      exists u'. split; [exact C |].
      intros f1 fc1 o1 c1 cc1 If1 E1 Ic1. apply K. eauto.
    - intros f fc o c cc If -> Ic.
      destruct (Reach _ _ If) as (o' & [= <-] & R). exact (proj2 (R _ _ Ic)).
    - eauto. }
  destruct L as [out L].
  assert (E : getSolcConfig json = Returned (JSON_stringify out)).
  { rewrite getSolcConfig_loops, U. cbn [obind].
    rewrite (stripped_selection _ _ [] U), G. cbn [obind].
    rewrite He. cbn [obind]. rewrite L. reflexivity. }
  exists (JSON_stringify out).
  unfold compile. rewrite P, V. rewrite bind_lift. cbn [option_map truthy].
  rewrite E. rewrite bind_lift. unfold solc, emit, ret. cbn [bind app].
  match goal with
  | |- context [let (t', r) := ?m in (SolcCompile _ :: t', r)] =>
      exists (fst m); split; [reflexivity | now destruct m]
  end.
Qed.

(* ================================================================== *)
(** ** Contracts without a bytecode                                    *)
(* ================================================================== *)

(** X15.  A contract that has only one of the two bytecodes is
    transpiled on that side alone.  Without a constructor bytecode
    [transpile] is not called: the deployed bytecode goes to
    [transpileRawBytecode], and the constructor bytecode stays empty.
    Without a deployed bytecode [transpile] is called with an empty
    deployed bytecode, [transpileRawBytecode] is not called, and the
    deployed bytecode stays empty.  Without either, nothing is called
    and the record solc made is returned in the place of an output. *)
Theorem one_sided_contract_is_transpiled_on_one_side
    (T : Transpiler) (contractSolcOutput : json) (filename contractName : string)
    (object code deployed : string) :
  path_get ["evm"; "bytecode"; "object"] (Some contractSolcOutput)
    = Returned (Some (JStr object)) ->
  getBytecode contractSolcOutput false = Returned (Some (JStr code)) ->
  getBytecode contractSolcOutput true = Returned (Some (JStr deployed)) ->
  let size := List.length (hexStrToBuf object) in
  (code = EmptyString -> deployed <> EmptyString ->
   let d := hexStrToBuf deployed in
   transpileContract T contractSolcOutput filename contractName =
   match transpileRawBytecode d with
   | Errored errs =>
       ([TranspileRawBytecode d],
        Returned (rejection (getSolcErrorsFromTranspilerErrors
                               errs filename contractName true)))
   | Successful d' =>
       ([TranspileRawBytecode d],
        Returned {| bytecode := Some (JStr EmptyString);
                    deployedBytecode := Some (JStr (bufToHexString d'));
                    errors := None |})
   end)
  /\ (code <> EmptyString -> deployed = EmptyString ->
      let b := hexStrToBuf code in
      let d := hexStrToBuf EmptyString in
      transpileContract T contractSolcOutput filename contractName =
      match transpile b d size with
      | Errored errs =>
          ([Transpile b d size],
           Returned (rejection (getSolcErrorsFromTranspilerErrors
                                  errs filename contractName false)))
      | Successful b' =>
          ([Transpile b d size],
           Returned {| bytecode := Some (JStr (bufToHexString b'));
                       deployedBytecode := Some (JStr EmptyString);
                       errors := None |})
      end)
  /\ (code = EmptyString -> deployed = EmptyString ->
      transpileContract T contractSolcOutput filename contractName
      = ([], Returned {| bytecode := own "bytecode" contractSolcOutput;
                         deployedBytecode := own "deployedBytecode" contractSolcOutput;
                         errors := own "errors" contractSolcOutput |})).
Proof.
  intros Ho Hc Hd size. repeat split.
  - intros -> Nd d.
    unfold transpileContract, transpileDeployed. rewrite Ho, Hc, Hd.
    run_M. rewrite (truthy_JStr _ Nd). cbn [truthy String.eqb negb andb].
    run_M. fold d. destruct (transpileRawBytecode d); reflexivity.
  - intros Nc -> b d.
    unfold transpileContract, transpileDeployed. rewrite Ho, Hc, Hd.
    run_M. rewrite (truthy_JStr _ Nc). cbn [truthy String.eqb negb andb].
    run_M. fold b d size.
    destruct (transpile b d size); reflexivity.
  - intros -> ->.
    unfold transpileContract. rewrite Ho, Hc, Hd. run_M. reflexivity.
Qed.

Lemma getAuxData_returns contractSolcOutput :
  exists a, getAuxData contractSolcOutput = Returned a.
Proof.
  unfold getAuxData.
  pose proof (plain_path_get ["evm"; "legacyAssembly"; ".data"; "0"; ".auxdata"]
                             (Some contractSolcOutput)) as P.
  destruct (path_get _ _) as [a | [|] |]; cbn [orUndefined plain] in *;
    try contradiction; eauto.
Qed.

(** An empty bytecode is no bytecode, with or without auxdata. *)
Lemma getBytecode_empty contractSolcOutput isDeployed :
  path_get ["evm"; member isDeployed; "object"] (Some contractSolcOutput)
    = Returned (Some (JStr EmptyString)) ->
  exists v, getBytecode contractSolcOutput isDeployed = Returned v
            /\ truthy v = false.
Proof.
  intros G. unfold getBytecode. fold (member isDeployed). rewrite G.
  cbn [obind]. destruct (getAuxData_returns contractSolcOutput) as [a ->].
  cbn [obind]. destruct (truthy a) eqn:Ta.
  - destruct a as [a |]; [| discriminate Ta]. unfold split0.
    destruct (String.eqb (ToString a) ""); cbn [orUndefined]; eauto.
  - cbn [orUndefined]. eauto.
Qed.

(** X16.  A contract for which solc made no code (an interface, an
    abstract contract: both bytecodes are the empty string) goes
    through [compile] without a call to the transpiler, and what
    [compile] returns for it has both bytecodes empty still. *)
Theorem contract_without_code_is_passed_through
    (configJsonString : string) (callbacks : option Callbacks)
    (json : JS.json) (solcConfig : string) (res : JS.json)
    (files : list (string * JS.json)) (tr : list event) (s : string)
    (filename contractName : string) (contractJson : JS.json) :
  transpiling configJsonString callbacks json solcConfig res files ->
  compile configJsonString callbacks = (tr, Returned s) ->
  the_contract files filename contractName contractJson ->
  path_get ["evm"; "bytecode"; "object"] (Some contractJson)
    = Returned (Some (JStr EmptyString)) ->
  path_get ["evm"; "deployedBytecode"; "object"] (Some contractJson)
    = Returned (Some (JStr EmptyString)) ->
  own "bytecode" contractJson = None ->
  own "deployedBytecode" contractJson = None ->
  fst (transpileContract (transpilerFor json) contractJson filename contractName)
  = []
  /\ exists out,
       s = JSON_stringify out
       /\ path_get (field filename contractName "bytecode") (Some out)
          = Returned (Some (JStr EmptyString))
       /\ path_get (field filename contractName "deployedBytecode") (Some out)
          = Returned (Some (JStr EmptyString)).
Proof.
  intros R H C Hb Hd Ob Od.
  destruct (getBytecode_empty contractJson false Hb) as (vb & Eb & Fb).
  destruct (getBytecode_empty contractJson true Hd) as (vd & Ed & Fd).
  assert (E : transpileContract (transpilerFor json) contractJson
                                filename contractName
              = ([], Returned {| bytecode := None; deployedBytecode := None;
                                 errors := own "errors" contractJson |})).
  { unfold transpileContract. rewrite Hb, Eb, Ed. run_M.
    rewrite Fb, Fd. cbn [negb andb]. rewrite Ob, Od. reflexivity. }
  split; [now rewrite E |].
  destruct (compile_returned _ _ _ _ _ _ _ _ R H)
    as (t & res' & out & _ & L & F & ->).
  destruct R as (_ & _ & _ & _ & _ & contracts & Hg & He).
  destruct (object_holder ["evm"; "bytecode"] _ _ Hb) as [ob Gb].
  destruct (object_holder ["evm"; "deployedBytecode"] _ _ Hd) as [od Gd].
  pose proof (the_contract_lookup _ _ _ _ _ _ ["evm"; "bytecode"] Hg He C) as Pb.
  pose proof (the_contract_lookup _ _ _ _ _ _ ["evm"; "deployedBytecode"]
                Hg He C) as Pd.
  rewrite Gb in Pb. rewrite Gd in Pd.
  destruct C as (fj & cs & If & Ec & Ic & Nf & Nc).
  destruct (compileContracts_fields _ _ _ _ _ _ _ _ _ _ _ _
              L Nf If Ec Nc Ic Pb Pd)
    as (t0 & output & x1 & x2 & Tr & R1 & R2 & F1 & F2).
  rewrite E in Tr. injection Tr as <- <-. cbn [bytecode deployedBytecode] in R1, R2.
  rewrite remove0x_empty in R1, R2. injection R1 as <-. injection R2 as <-.
  exists out. split; [reflexivity |]. unfold field in *.
  rewrite !(formatted_evm _ _ _ _ _ _ _ F) by discriminate. auto.
Qed.

(* ================================================================== *)
(** ** Where the bytecode is cut                                       *)
(* ================================================================== *)

Lemma before_absent sep code : ~ Embeds sep code -> before sep code = code.
Proof.
  induction code as [| c r IH]; intros N; [reflexivity |].
  cbn [before]. destruct (String.prefix sep (String c r)) eqn:P.
  - exfalso. apply N. apply prefix_inv in P. destruct P as [rest ->].
    apply Embeds_here.
  - f_equal. apply IH. intros E. apply N.
    exact (Embeds_later (String c EmptyString) _ _ E).
Qed.

Lemma before_occurrence sep code pre post :
  code = pre ++ sep ++ post ->
  (forall pre' post', code = pre' ++ sep ++ post' ->
                      (String.length pre <= String.length pre')%nat) ->
  before sep code = pre.
Proof.
  intros E Min.
  destruct (before_found _ _ _ _ E) as [post' E'].
  pose proof (before_first _ _ _ _ E) as L1.
  pose proof (Min _ _ E') as L2.
  apply (append_same_length _ (sep ++ post') _ (sep ++ post)).
  - now rewrite <- E'.
  - lia.
Qed.

(** X17.  With an auxdata, [getBytecode] cuts the bytecode at the
    first place the auxdata occurs in it, wherever that is: what
    follows the auxdata is dropped with it.  A bytecode in which the
    auxdata does not occur is returned whole. *)
Theorem getBytecode_cuts_at_the_first_auxdata
    (contractSolcOutput : json) (isDeployed : bool) (code aux : string) :
  path_get ["evm"; member isDeployed; "object"] (Some contractSolcOutput)
    = Returned (Some (JStr code)) ->
  getAuxData contractSolcOutput = Returned (Some (JStr aux)) ->
  aux <> EmptyString ->
  (~ Embeds aux code ->
   getBytecode contractSolcOutput isDeployed = Returned (Some (JStr code)))
  /\ (forall pre post,
         code = pre ++ aux ++ post ->
         (forall pre' post', code = pre' ++ aux ++ post' ->
                             (String.length pre <= String.length pre')%nat) ->
         getBytecode contractSolcOutput isDeployed
         = Returned (Some (JStr pre))).
Proof.
  intros G A N.
  rewrite (getBytecode_with_auxdata _ _ _ _ G A N). split.
  - intros Absent. now rewrite before_absent.
  - intros pre post E Min. now rewrite (before_occurrence _ _ _ _ E Min).
Qed.

(* ================================================================== *)
(** ** A file the selection does not cover                             *)
(* ================================================================== *)

Lemma formatted_each transpiledOutput inputConfig out contracts files
      filename fileObj cs contractName contractObj :
  formatted transpiledOutput inputConfig = Returned out ->
  get "contracts" (Some transpiledOutput) = Returned contracts ->
  entries contracts = Returned files ->
  In (filename, fileObj) files ->
  entries (Some fileObj) = Returned cs ->
  In (contractName, contractObj) cs ->
  exists s s', formatContract inputConfig filename contractName s = Returned s'.
Proof.
  intros F G E If Ec Ic. unfold formatted in F. rewrite G in F.
  cbn [obind] in F. rewrite E in F. cbn [obind] in F.
  destruct (in_split _ _ If) as (fpre & fpost & ->).
  apply oforEach_split in F. destruct F as (s1 & s2 & _ & Hfile & _).
  rewrite Ec in Hfile. cbn [obind] in Hfile.
  destruct (in_split _ _ Ic) as (cpre & cpost & ->).
  apply oforEach_split in Hfile. destruct Hfile as (r1 & r2 & _ & Cstep & _).
  eauto.
Qed.

(** X18.  [formatOutput] looks up the selection of a contract under
    the name of its file, or under ['*'] when the file is not listed.
    When solc returns a contract of a file that [outputSelection]
    lists neither by its name nor under ['*'], the lookup gives
    [undefined], the test [contractName in undefined] throws, and
    [formatOutput] returns nothing, for any contract. *)
Theorem formatOutput_needs_a_selection_for_every_file
    (transpiledOutput inputConfig : json) (contracts : jsval)
    (files : list (string * json)) (filename : string) (fileObj : json)
    (cs : list (string * json)) (contractName : string) (contractObj : json)
    (outputSelection : list (string * json)) :
  get "contracts" (Some transpiledOutput) = Returned contracts ->
  entries contracts = Returned files ->
  In (filename, fileObj) files ->
  entries (Some fileObj) = Returned cs ->
  In (contractName, contractObj) cs ->
  path_get ["settings"; "outputSelection"] (Some inputConfig)
    = Returned (Some (JObj outputSelection)) ->
  assoc filename outputSelection = None ->
  inherited (JObj outputSelection) filename = false ->
  assoc "*" outputSelection = None ->
  inherited (JObj outputSelection) "*" = false ->
  outputConfigFor inputConfig filename contractName = Threw TypeError
  /\ forall s, formatOutput transpiledOutput inputConfig <> Returned s.
Proof.
  intros G E If Ec Ic Sel Af If' As Is.
  assert (O : outputConfigFor inputConfig filename contractName
              = Threw TypeError).
  { unfold outputConfigFor. rewrite Sel. cbn [obind has_dyn own].
    rewrite Af, If'. cbn [defined orb obind get_dyn own].
    rewrite As, Is. reflexivity. }
  split; [exact O |].
  intros s H. unfold formatOutput in H.
  apply obind_Returned in H. destruct H as (out & F & _).
  destruct (formatted_each _ _ _ _ _ _ _ _ _ _ F G E If Ec Ic) as (u & u' & C).
  unfold formatContract in C. rewrite O in C. discriminate C.
Qed.
End Compiler.

(* ================================================================== *)
(** ** The samples, run                                                *)
(* ================================================================== *)

Module Run.

(** [compile] and its parts with the stand-ins of [Sample], in a
    process without [EXECUTION_MANAGER_ADDRESS]. *)
Definition compile : string -> option unit -> M string :=
  compile Sample.solc_compile Sample.JSON_parse Sample.stringify
          Sample.isValidHexAddress Sample.hexStrToBuf Sample.inherited
          tt (fun address : jsval => address) (fun _ _ => Sample.picky) None.

Definition transpileContract : json -> string -> string -> M TranspilationOutput :=
  transpileContract Sample.hexStrToBuf Sample.picky.

Definition getInputErrors : json -> outcome (option string) :=
  getInputErrors Sample.stringify Sample.isValidHexAddress None.

(** What [compile] hands to solc for [Sample.input]. *)
Definition solcInput : string :=
  Eval vm_compute in
    match getSolcConfig Sample.stringify Sample.input with
    | Returned s => s
    | _ => EmptyString
    end.

Definition files : list (string * json) :=
  Eval vm_compute in
    match entries (own "contracts" Sample.batch) with
    | Returned fs => fs
    | _ => []
    end.

(** What [compile] returns for [Sample.input]. *)
Definition returned : string :=
  Eval vm_compute in
    match snd (compile (Sample.stringify Sample.input) None) with
    | Returned s => s
    | _ => EmptyString
    end.

End Run.

(* ================================================================== *)
(** ** The properties at the samples                                   *)
(* ================================================================== *)

Lemma sample_transpiling :
  transpiling Sample.solc_compile Sample.JSON_parse Sample.stringify
              Sample.isValidHexAddress None
              (Sample.stringify Sample.input) None Sample.input
              Run.solcInput Sample.batch Run.files.
Proof.
  repeat split; try (vm_compute; reflexivity).
  eexists. split; vm_compute; reflexivity.
Qed.

Lemma sample_returned :
  Run.compile (Sample.stringify Sample.input) None
  = (fst (Run.compile (Sample.stringify Sample.input) None),
     Returned Run.returned).
Proof. vm_compute. reflexivity. Qed.

(** Picks the member of a list of two that fits. *)
Ltac pick := first [ left; reflexivity | right; left; reflexivity ].

Lemma sample_contract filename contractName contractJson :
  In (filename, contractName, contractJson)
     [("a.sol", "First", Sample.contract "6001" "60" "a165");
      ("a.sol", "Second", Sample.contract "6002ff" "ff" "a165");
      ("b.sol", "Third", Sample.contract "6003" "60ff" "a165");
      ("b.sol", "Fourth", Sample.contract "6004" "6004" "a165")] ->
  the_contract Run.files filename contractName contractJson.
Proof.
  intros I. cbn [In] in I.
  assert (N2 : forall a b : string, a <> b -> NoDup [a; b]).
  { intros a b D. repeat constructor; cbn; intuition congruence. }
  repeat (destruct I as [[= <- <- <-] | I]); [.. | contradiction].
  all: eexists; eexists;
    (split; [unfold Run.files; cbn [In]; pick |]);
    (split; [reflexivity |]);
    (split; [cbn [In]; pick |]);
    split; apply N2; discriminate.
Qed.

(** C6 at two errors of a deployed bytecode. *)
Lemma solc_errors_witness :
  getSolcErrorsFromTranspilerErrors
    [{| index := 2; message := "disallowed opcode" |};
     {| index := 17; message := "disallowed opcode" |}] "a.sol" "Second" true
  = [errorRecord
       "a.sol:Second error [disallowed opcode] at index 2 of deployed bytecode";
     errorRecord
       "a.sol:Second error [disallowed opcode] at index 17 of deployed bytecode"]
  /\ List.length
       (getSolcErrorsFromTranspilerErrors
          [{| index := 2; message := "disallowed opcode" |};
           {| index := 17; message := "disallowed opcode" |}]
          "a.sol" "Second" true) = 2%nat.
Proof.
  split; [reflexivity |].
  exact (proj1 (solc_errors_one_per_transpilation_error
                  [{| index := 2; message := "disallowed opcode" |};
                   {| index := 17; message := "disallowed opcode" |}]
                  "a.sol" "Second" true)).
Defined.

(** C1 at the second contract of the samples, whose constructor
    bytecode holds the byte the transpiler rejects. *)
Lemma rejected_contract_witness :
  exists out,
    Run.returned = Sample.stringify out
    /\ path_get (field "a.sol" "Second" "bytecode") (Some out)
       = Returned (Some (JStr ""))
    /\ path_get (field "a.sol" "Second" "deployedBytecode") (Some out)
       = Returned (Some (JStr "")).
Proof.
  refine (proj2 (rejected_contract_has_no_bytecode
                   unit Sample.solc_compile Sample.JSON_parse Sample.stringify
                   Sample.isValidHexAddress Sample.hexStrToBuf Sample.inherited
                   unit jsval tt (fun address => address)
                   (fun _ _ => Sample.picky) None
                   (Sample.stringify Sample.input) None Sample.input
                   Run.solcInput Sample.batch Run.files _ Run.returned
                   "a.sol" "Second" (Sample.contract "6002ff" "ff" "a165")
                   sample_transpiling sample_returned _ _)).
  - apply sample_contract. cbn. auto.
  - eexists. eexists. split; [vm_compute; left; reflexivity |].
    vm_compute. reflexivity.
Defined.

(** C8 at the first contract of the samples. *)
Lemma transpiled_bytecode_witness :
  exists out,
    Run.returned = Sample.stringify out
    /\ path_get (field "a.sol" "First" "bytecode") (Some out)
       = Returned (Some (JStr "6001"))
    /\ path_get (field "a.sol" "First" "deployedBytecode") (Some out)
       = Returned (Some (JStr "60")).
Proof.
  destruct (transpiled_bytecode_is_returned_as_hex
              unit Sample.solc_compile Sample.JSON_parse Sample.stringify
              Sample.isValidHexAddress Sample.hexStrToBuf Sample.inherited
              unit jsval tt (fun address => address)
              (fun _ _ => Sample.picky) None
              (Sample.stringify Sample.input) None Sample.input
              Run.solcInput Sample.batch Run.files _ Run.returned
              "a.sol" "First" (Sample.contract "6001" "60" "a165")
              sample_transpiling sample_returned)
    as (out & code & deployed & E & Fb & Fd & Hb & _ & Hd & _).
  - apply sample_contract. cbn. auto.
  - split; [vm_compute; discriminate |].
    vm_compute. intros e [<- | [<- | []]]; eexists; reflexivity.
  - exists out. split; [exact E |].
    destruct (Hb [x60; x01]%byte [x60]%byte 4%nat) as (b' & Eb & ->);
      [vm_compute; auto |].
    destruct (Hd [x60]%byte) as (d' & Ed & ->); [vm_compute; auto |].
    vm_compute in Eb, Ed. injection Eb as <-. injection Ed as <-.
    split; assumption.
Defined.

(** C2, as amended, at the samples: four contracts, of which the
    second and the third are rejected. *)
Lemma batch_witness :
  (exists t res',
      Run.compile (Sample.stringify Sample.input) None
      = (SolcCompile Run.solcInput :: t,
         formatOutput Sample.stringify Sample.inherited res' Sample.input))
  /\ exists out l,
       Run.returned = Sample.stringify out
       /\ own "errors" out = Some (JArr l)
       /\ In (errorRecord
                "a.sol:Second error [disallowed opcode] at index 2 of bytecode") l
       /\ In (errorRecord
                "b.sol:Third error [disallowed opcode] at index 1 of deployed bytecode")
             l.
Proof.
  pose proof (rejection_does_not_stop_the_batch_but_an_exception_does
                unit Sample.solc_compile Sample.JSON_parse Sample.stringify
                Sample.isValidHexAddress Sample.hexStrToBuf Sample.inherited
                unit jsval tt (fun address => address)
                (fun _ _ => Sample.picky) None
                (Sample.stringify Sample.input) None Sample.input
                Run.solcInput Sample.batch Run.files sample_transpiling)
    as (Ends & Errors & _).
  cbv zeta in Ends, Errors. split.
  - destruct Ends as (t & res' & _ & E); [| eauto].
    intros f fj If. cbn [In Run.files] in If.
    repeat (destruct If as [[= <- <-] | If]); [.. | contradiction].
    all: eexists; split; [reflexivity |];
      intros c cj Ic; cbn [In] in Ic;
      repeat (destruct Ic as [[= <- <-] | Ic]); [.. | contradiction].
    all: split; [| vm_compute; reflexivity].
    all: unfold workable;
      (split; [eexists; eexists; vm_compute; reflexivity |]);
      (split; [eexists; reflexivity |]);
      (split; [eexists; reflexivity |]);
      repeat split; reflexivity.
  - destruct (Errors _ _ sample_returned) as (out & E & _ & Each).
    destruct (Each "a.sol" _ _ "Second" (Sample.contract "6002ff" "ff" "a165")
                ltac:(cbn; eauto) eq_refl ltac:(cbn; eauto))
      as (t2 & o2 & T2 & E2).
    destruct (Each "b.sol" _ _ "Third" (Sample.contract "6003" "60ff" "a165")
                ltac:(cbn; eauto) eq_refl ltac:(cbn; eauto))
      as (t3 & o3 & T3 & E3).
    vm_compute in T2, T3. injection T2 as _ <-. injection T3 as _ <-.
    destruct (E2 _ eq_refl) as (l & O & I2).
    destruct (E3 _ eq_refl) as (l' & O' & I3).
    rewrite O in O'. injection O' as <-.
    exists out, l. repeat split; auto.
    + apply I2. now left.
    + apply I3. now left.
Defined.

(** C2: the transpiler rejects the first contract of the batch, and
    the record of the second has no bytecode.  [compile] throws when
    it gets to the second: nothing is returned, and the errors of the
    first contract with it. *)
Lemma rejected_contract_is_lost_when_the_batch_aborts :
  transpileContract Sample.hexStrToBuf Sample.thorough
                    (Sample.contract "6002ff" "60" "a165") "a.sol" "First"
  = ([Transpile [x60; x02; xff]%byte [x60]%byte 5],
     Returned
       (rejection
          [errorRecord
             "a.sol:First error [disallowed opcode] at index 2 of bytecode"]))
  /\ exists solcConfig,
       compile (fun _ (_ : option unit) => Sample.stringify Sample.partial)
               (Sample.parse [Sample.perContract; Sample.partial])
               Sample.stringify Sample.isValidHexAddress Sample.hexStrToBuf
               Sample.inherited tt (fun address : jsval => address)
               (fun _ _ => Sample.thorough) None
               (Sample.stringify Sample.perContract) None
       = ([SolcCompile solcConfig;
           Transpile [x60; x02; xff]%byte [x60]%byte 5],
          Threw TypeError).
Proof.
  split; [vm_compute; reflexivity |].
  eexists. vm_compute. reflexivity.
Qed.

(** C10 at the samples, whose selection lists [evm.legacyAssembly]
    and [*]. *)
Lemma legacyAssembly_witness :
  exists out,
    Run.returned = Sample.stringify out
    /\ no_legacyAssembly out "a.sol" "First"
    /\ no_legacyAssembly out "b.sol" "Fourth".
Proof.
  destruct (legacyAssembly_always_deleted
              unit Sample.solc_compile Sample.JSON_parse Sample.stringify
              Sample.isValidHexAddress Sample.hexStrToBuf Sample.inherited
              unit jsval tt (fun address => address)
              (fun _ _ => Sample.picky) None
              (Sample.stringify Sample.input) None Sample.input
              Run.solcInput Sample.batch Run.files _ Run.returned
              sample_transpiling sample_returned)
    as (out & E & None & _).
  exists out. auto.
Defined.

Lemma stringify_nonempty v : Sample.stringify v <> EmptyString.
Proof.
  destruct v as [| [|] | n | s | l | o]; cbn; try discriminate.
  destruct n as [| p | p]; cbn; try discriminate.
  pose proof (DecimalPos.Unsigned.to_uint_nonnil p) as N.
  destruct (Pos.to_uint p); [contradiction | ..]; discriminate.
Qed.



(** C5 at the first contract of the samples. *)
Lemma getBytecode_witness :
  getBytecode (Sample.contract "6001" "60" "a165") false
  = Returned (Some (JStr "6001"))
  /\ getBytecode (Sample.contract "6001" "60" "a165") true
     = Returned (Some (JStr "60")).
Proof.
  pose proof (proj1 (getBytecode_strips_auxdata
                       Sample.hexStrToBuf Sample.picky
                       (Sample.contract "6001" "60" "a165") "a.sol" "First"))
    as Strip.
  split.
  - destruct (proj1 (Strip false "6001a165" eq_refl) "a165" eq_refl)
      as (stripped & -> & _ & _ & Body); [discriminate |].
    rewrite (Body "6001" eq_refl); [reflexivity |].
    intros pre post H.
    do 4 (destruct pre as [| ? pre]; [cbn in H; discriminate H |]).
    cbn. lia.
  - destruct (proj1 (Strip true "60a165" eq_refl) "a165" eq_refl)
      as (stripped & -> & _ & _ & Body); [discriminate |].
    rewrite (Body "60" eq_refl); [reflexivity |].
    intros pre post H.
    do 2 (destruct pre as [| ? pre]; [cbn in H; discriminate H |]).
    cbn. lia.
Defined.

(** C7: the constructor bytecode is rejected, and the deployed
    bytecode is one the transpiler accepts.  The deployed bytecode is
    not handed to [transpileRawBytecode], and what is returned holds
    the errors of the constructor bytecode and no deployed
    bytecode. *)
Lemma constructor_failure_drops_the_deployed_bytecode :
  transpile (Transpiler := Sample.thorough)
            [x60; x02; xff]%byte [x60]%byte 5
  = Errored [{| index := 2; message := "disallowed opcode" |}]
  /\ transpileRawBytecode (Transpiler := Sample.thorough) [x60]%byte
     = Successful [x60]%byte
  /\ transpileContract Sample.hexStrToBuf Sample.thorough
                       (Sample.contract "6002ff" "60" "a165") "a.sol" "First"
     = ([Transpile [x60; x02; xff]%byte [x60]%byte 5],
        Returned
          {| bytecode := None;
             deployedBytecode := None;
             errors :=
               Some (JArr [errorRecord
                             "a.sol:First error [disallowed opcode] at index 2 of bytecode"]) |}).
Proof. repeat split; vm_compute; reflexivity. Qed.

(** C7, as amended, at a contract both bytecodes of which pass. *)
Lemma constructor_first_witness :
  transpileContract Sample.hexStrToBuf Sample.thorough
                    (Sample.contract "6001" "60" "a165") "a.sol" "First"
  = ([Transpile [x60; x01]%byte [x60]%byte 4;
      TranspileRawBytecode [x60]%byte],
     Returned {| bytecode := Some (JStr "0x6001");
                 deployedBytecode := Some (JStr "0x60");
                 errors := None |}).
Proof.
  refine (eq_trans
            (constructor_first_then_deployed
               Sample.hexStrToBuf Sample.thorough
               (Sample.contract "6001" "60" "a165") "a.sol" "First"
               "6001a165" "6001" "60" eq_refl eq_refl eq_refl _ _) _).
  - discriminate.
  - discriminate.
  - vm_compute. reflexivity.
Defined.

(** C9: a mask of eight bits in the settings is no input error. *)
Lemma short_mask_is_accepted :
  mask_bits "0x00" = Some 8%nat
  /\ Run.getInputErrors
       (Sample.config ["abi"] [("whitelistMask", JStr "0x00")])
     = Returned None.
Proof. split; vm_compute; reflexivity. Qed.

(** C9, as amended, at the configuration of the samples. *)
Lemma mask_setting_witness :
  Run.getInputErrors
    (Sample.config ["evm.legacyAssembly"; "*"] [("whitelistMask", JStr "0x00")])
  = Run.getInputErrors Sample.input.
Proof.
  refine (proj2 (default_mask_256_bits_and_mask_setting_ignored
                   Sample.stringify Sample.isValidHexAddress None)
                [("language", JStr "Solidity");
                 ("settings",
                  JObj [("executionManagerAddress", JStr Sample.address);
                        ("outputSelection",
                         Sample.selection ["evm.legacyAssembly"; "*"])])]
                [("executionManagerAddress", JStr Sample.address);
                 ("outputSelection",
                  Sample.selection ["evm.legacyAssembly"; "*"])]
                (JStr "0x00") eq_refl).
Defined.

(* ================================================================== *)
(** ** More samples                                                    *)
(* ================================================================== *)

Module More.

(** A configuration with the settings [settings]. *)
Definition configured (settings : list (string * json)) : json :=
  JObj [("language", JStr "Solidity"); ("settings", JObj settings)].

(** [null] in the place of the selection of a file. *)
Definition nullEntry : json :=
  configured [("executionManagerAddress", JStr Sample.address);
              ("outputSelection",
               JObj [("a.sol", JObj [("*", JArr [JStr "abi"])]);
                     ("b.sol", JNull)])].

(** An address that is too short. *)
Definition shortAddress : json :=
  configured [("executionManagerAddress", JStr "0x42");
              ("outputSelection", Sample.selection ["abi"])].

(** No address in the settings. *)
Definition noAddress : json :=
  configured [("outputSelection", Sample.selection ["abi"])].

(** A number among the names of a selection. *)
Definition numbered : json :=
  configured [("executionManagerAddress", JStr Sample.address);
              ("outputSelection",
               JObj [("*", JObj [("*", JArr [JStr "abi"; JNum 1])])])].

(** A selection for [a.sol] and for no other file. *)
Definition oneFile : json :=
  configured [("executionManagerAddress", JStr Sample.address);
              ("outputSelection",
               JObj [("a.sol", JObj [("*", JArr [JStr "abi"])])])].

(** An answer of solc that reports a warning and an error. *)
Definition failed : json :=
  JObj [("errors",
         JArr [JObj [("severity", JStr "warning"); ("message", JStr "unused")];
               JObj [("severity", JStr "error");
                     ("message", JStr "ParserError")]])].

(** A contract solc was asked the [abi] of, and no bytecode. *)
Definition abiOnly : json :=
  JObj [("abi", JArr []); ("evm", JObj [("legacyAssembly", JObj [])])].

Definition unasked : json :=
  JObj [("contracts", JObj [("a.sol", JObj [("First", abiOnly)])])].

(** A contract with what solc says of its bytecode, and the sources. *)
Definition described : json :=
  JObj [("contracts",
         JObj [("a.sol",
                JObj [("First",
                       JObj [("abi", JArr [JObj [("type", JStr "constructor")]]);
                             ("evm",
                              JObj [("bytecode",
                                     JObj [("object", JStr "6001");
                                           ("opcodes", JStr "PUSH1 0x1");
                                           ("sourceMap", JStr "0:1:0")]);
                                    ("deployedBytecode",
                                     JObj [("object", JStr "60")]);
                                    ("methodIdentifiers", JObj [])])])])]);
        ("sources", JObj [("a.sol", JObj [("id", JNum 0)])])].

(** An interface: solc makes no code for it. *)
Definition interface : json :=
  JObj [("contracts",
         JObj [("i.sol",
                JObj [("I",
                       JObj [("evm",
                              JObj [("bytecode", JObj [("object", JStr "")]);
                                    ("deployedBytecode",
                                     JObj [("object", JStr "")])])])])])].

(** [compile] with a solc that answers [answer], a parser that knows
    [config] and [answer], and [env] in the environment. *)
Definition compile (config answer : json) (env : option string)
  : M string :=
  compile (fun _ (_ : option unit) => Sample.stringify answer)
          (Sample.parse [config; answer]) Sample.stringify
          Sample.isValidHexAddress Sample.hexStrToBuf Sample.inherited
          tt (fun address : jsval => address) (fun _ _ => Sample.picky) env
          (Sample.stringify config) None.

(** What [getSolcConfig] returns for [config]. *)
Definition solcInput (config : json) : string :=
  match getSolcConfig Sample.stringify config with
  | Returned s => s
  | _ => EmptyString
  end.

(** The files of an answer of solc. *)
Definition files (answer : json) : list (string * json) :=
  match entries (own "contracts" answer) with
  | Returned fs => fs
  | _ => []
  end.

(** What [compile] returns. *)
Definition returned (config answer : json) (env : option string) : string :=
  match snd (compile config answer env) with
  | Returned s => s
  | _ => EmptyString
  end.

End More.

(** [compile] gets as far as the transpilation at these samples. *)
Ltac sample_run :=
  repeat split; try (vm_compute; reflexivity);
  eexists; split; vm_compute; reflexivity.

Lemma noAddress_transpiling :
  transpiling (fun _ (_ : option unit) => Sample.stringify Sample.batch)
              (Sample.parse [More.noAddress; Sample.batch]) Sample.stringify
              Sample.isValidHexAddress (Some Sample.address)
              (Sample.stringify More.noAddress) None More.noAddress
              (More.solcInput More.noAddress) Sample.batch
              (More.files Sample.batch).
Proof. sample_run. Qed.

Lemma unasked_transpiling :
  transpiling (fun _ (_ : option unit) => Sample.stringify More.unasked)
              (Sample.parse [Sample.input; More.unasked]) Sample.stringify
              Sample.isValidHexAddress None
              (Sample.stringify Sample.input) None Sample.input
              (More.solcInput Sample.input) More.unasked
              (More.files More.unasked).
Proof. sample_run. Qed.

Lemma described_transpiling :
  transpiling (fun _ (_ : option unit) => Sample.stringify More.described)
              (Sample.parse [Sample.input; More.described]) Sample.stringify
              Sample.isValidHexAddress None
              (Sample.stringify Sample.input) None Sample.input
              (More.solcInput Sample.input) More.described
              (More.files More.described).
Proof. sample_run. Qed.

Lemma interface_transpiling :
  transpiling (fun _ (_ : option unit) => Sample.stringify More.interface)
              (Sample.parse [Sample.input; More.interface]) Sample.stringify
              Sample.isValidHexAddress None
              (Sample.stringify Sample.input) None Sample.input
              (More.solcInput Sample.input) More.interface
              (More.files More.interface).
Proof. sample_run. Qed.

Lemma sample_addressed (address : string) (rest : list (string * json)) :
  Sample.isValidHexAddress (JStr address) = true ->
  addressed Sample.isValidHexAddress None
            (More.configured (("executionManagerAddress", JStr address) :: rest))
            (Some (JObj (("executionManagerAddress", JStr address) :: rest))).
Proof.
  intros V. split; [reflexivity |]. split; [reflexivity |].
  split; [reflexivity |]. exists (JStr address).
  split; [| split; [| exact V]].
  - unfold getExecutionManagerAddress. cbn [More.configured get own assoc
      String.eqb Ascii.eqb Bool.eqb obind js_or truthy].
    destruct address; [discriminate V | reflexivity].
  - destruct address; [discriminate V | reflexivity].
Qed.

(* ================================================================== *)
(** ** The further properties at the samples                           *)
(* ================================================================== *)

Lemma sample_well_formed :
  well_formed Sample.isValidHexAddress None Sample.input.
Proof.
  exists (Some (JObj [("executionManagerAddress", JStr Sample.address);
                      ("outputSelection",
                       Sample.selection ["evm.legacyAssembly"; "*"])])),
         (Some (Sample.selection ["evm.legacyAssembly"; "*"])),
         [("*", JObj [("*", JArr [JStr "evm.legacyAssembly"; JStr "*"])])].
  split; [apply (sample_addressed Sample.address); reflexivity |].
  do 4 (split; [reflexivity |]). split; [discriminate |].
  repeat constructor.
Qed.

(** X1 at the configuration of the samples. *)
Lemma well_formed_witness :
  Run.getInputErrors Sample.input = Returned None.
Proof.
  exact (proj1 (getInputErrors_accepts_the_well_formed
                  Sample.stringify Sample.isValidHexAddress None Sample.input)
               sample_well_formed).
Defined.

(** X2 at a configuration with [null] for the second file. *)
Lemma null_file_entry_witness :
  More.compile More.nullEntry Sample.batch None = ([], Threw TypeError).
Proof.
  refine (proj2 (null_file_entry_throws
                   unit (fun _ _ => Sample.stringify Sample.batch)
                   (Sample.parse [More.nullEntry; Sample.batch])
                   Sample.stringify Sample.isValidHexAddress Sample.hexStrToBuf
                   Sample.inherited unit jsval tt (fun address => address)
                   (fun _ _ => Sample.picky) None
                   (Sample.stringify More.nullEntry) None More.nullEntry
                   _ _ [("a.sol", JObj [("*", JArr [JStr "abi"])])] []
                   "b.sol" eq_refl
                   (sample_addressed Sample.address _ eq_refl)
                   eq_refl eq_refl eq_refl eq_refl _ eq_refl)).
  repeat constructor.
Defined.

(** X3: the address of the settings is too short, and the
    environment holds a valid one. *)
Lemma invalid_settings_address_witness :
  More.compile More.shortAddress Sample.batch (Some Sample.address)
  = ([], Returned (getFormattedSolcErrorOutput Sample.stringify address_message)).
Proof.
  refine (proj2 (invalid_settings_address_is_rejected
                   unit (fun _ _ => Sample.stringify Sample.batch)
                   (Sample.parse [More.shortAddress; Sample.batch])
                   Sample.stringify Sample.isValidHexAddress Sample.hexStrToBuf
                   Sample.inherited unit jsval tt (fun address => address)
                   (fun _ _ => Sample.picky) (Some Sample.address)
                   (Sample.stringify More.shortAddress) None More.shortAddress
                   _ (JStr "0x42") eq_refl stringify_nonempty eq_refl eq_refl
                   eq_refl eq_refl eq_refl)).
Defined.

(** X4: no address in the settings, and one in the environment. *)
Lemma environment_address_witness :
  Sample.isValidHexAddress (JStr Sample.address) = true
  /\ fst (More.compile More.noAddress Sample.batch (Some Sample.address))
     = SolcCompile (More.solcInput More.noAddress)
         :: fst (compileContracts Sample.hexStrToBuf Sample.picky
                   (More.files Sample.batch) Sample.batch).
Proof.
  destruct (environment_address_is_the_fallback
              unit (fun _ _ => Sample.stringify Sample.batch)
              (Sample.parse [More.noAddress; Sample.batch])
              Sample.stringify Sample.isValidHexAddress Sample.hexStrToBuf
              Sample.inherited unit jsval tt (fun address => address)
              (fun _ _ => Sample.picky) (Some Sample.address)
              (Sample.stringify More.noAddress) None More.noAddress
              (More.solcInput More.noAddress) Sample.batch
              (More.files Sample.batch) _ Sample.address
              noAddress_transpiling eq_refl eq_refl eq_refl) as [V E].
  split; [exact V |]. unfold More.compile. rewrite E. vm_compute. reflexivity.
Defined.

(** X5: solc reports a warning and an error. *)
Lemma returned_untranspiled_witness :
  More.compile Sample.input More.failed None
  = ([SolcCompile Run.solcInput], Returned (Sample.stringify More.failed)).
Proof.
  refine (proj1 (solc_errors_are_returned_untranspiled
                   unit (fun _ _ => Sample.stringify More.failed)
                   (Sample.parse [Sample.input; More.failed])
                   Sample.stringify Sample.isValidHexAddress Sample.hexStrToBuf
                   Sample.inherited unit jsval tt (fun address => address)
                   (fun _ _ => Sample.picky) None
                   (Sample.stringify Sample.input) None Sample.input
                   Run.solcInput More.failed _ eq_refl eq_refl eq_refl eq_refl
                   eq_refl _) _).
  - repeat constructor; discriminate.
  - right. left. reflexivity.
Defined.

(** X7 at the samples: the warning of solc, then the errors of the
    second and of the third contract. *)
Lemma errors_order_witness :
  exists out,
    Run.returned = Sample.stringify out
    /\ errorsOf out
       = [JObj [("severity", JStr "warning"); ("message", JStr "unused")];
          errorRecord
            "a.sol:Second error [disallowed opcode] at index 2 of bytecode";
          errorRecord
            "b.sol:Third error [disallowed opcode] at index 1 of deployed bytecode"].
Proof.
  destruct (errors_are_appended_in_batch_order
              unit Sample.solc_compile Sample.JSON_parse Sample.stringify
              Sample.isValidHexAddress Sample.hexStrToBuf Sample.inherited
              unit jsval tt (fun address => address)
              (fun _ _ => Sample.picky) None
              (Sample.stringify Sample.input) None Sample.input
              Run.solcInput Sample.batch Run.files _ Run.returned
              sample_transpiling sample_returned) as (out & E & O).
  exists out. split; [exact E |]. rewrite O. vm_compute. reflexivity.
Defined.

(** X8: solc was asked the [abi] only. *)
Lemma missing_bytecode_witness :
  exists tr, More.compile Sample.input More.unasked None = (tr, Threw TypeError).
Proof.
  refine (proj2 (missing_bytecode_object_aborts_the_batch
                   unit (fun _ _ => Sample.stringify More.unasked)
                   (Sample.parse [Sample.input; More.unasked])
                   Sample.stringify Sample.isValidHexAddress Sample.hexStrToBuf
                   Sample.inherited unit jsval tt (fun address => address)
                   (fun _ _ => Sample.picky) None
                   (Sample.stringify Sample.input) None Sample.input
                   (More.solcInput Sample.input) More.unasked
                   (More.files More.unasked) "a.sol" "First"
                   (JObj [("First", More.abiOnly)]) More.abiOnly
                   [("First", More.abiOnly)]
                   unasked_transpiling _ eq_refl _ eq_refl)).
  - left. reflexivity.
  - left. reflexivity.
Defined.

Lemma described_returned :
  More.compile Sample.input More.described None
  = (fst (More.compile Sample.input More.described None),
     Returned (More.returned Sample.input More.described None)).
Proof. vm_compute. reflexivity. Qed.

(** X10: the interface of the contract, what solc says of its
    bytecode, and the sources come back as solc made them. *)
Lemma rest_unchanged_witness :
  exists out,
    More.returned Sample.input More.described None = Sample.stringify out
    /\ path_get ["contracts"; "a.sol"; "First"; "abi"] (Some out)
       = Returned (Some (JArr [JObj [("type", JStr "constructor")]]))
    /\ path_get ["contracts"; "a.sol"; "First"; "evm"; "bytecode"; "opcodes"]
                (Some out)
       = Returned (Some (JStr "PUSH1 0x1"))
    /\ path_get ["sources"; "a.sol"; "id"] (Some out)
       = Returned (Some (JNum 0)).
Proof.
  destruct (rest_of_solc_output_is_unchanged
              unit (fun _ _ => Sample.stringify More.described)
              (Sample.parse [Sample.input; More.described])
              Sample.stringify Sample.isValidHexAddress Sample.hexStrToBuf
              Sample.inherited unit jsval tt (fun address => address)
              (fun _ _ => Sample.picky) None
              (Sample.stringify Sample.input) None Sample.input
              (More.solcInput Sample.input) More.described
              (More.files More.described) _
              (More.returned Sample.input More.described None)
              described_transpiling described_returned) as (out & E & K).
  exists out. split; [exact E |].
  rewrite !K by reflexivity. repeat split.
Defined.

Lemma sample_solcInput :
  getSolcConfig Sample.stringify Sample.input = Returned Run.solcInput.
Proof. vm_compute. reflexivity. Qed.

(** X11 at the configuration of the samples. *)
Lemma strips_the_address_witness :
  exists out,
    Run.solcInput = Sample.stringify out
    /\ path_get ["settings"; "executionManagerAddress"] (Some out)
       = Returned None
    /\ path_get ["language"] (Some out) = Returned (Some (JStr "Solidity")).
Proof.
  destruct (getSolcConfig_strips_the_address
              Sample.stringify Sample.input Run.solcInput sample_solcInput)
    as (out & E & A & K & _).
  exists out. split; [exact E |]. split; [exact A |].
  rewrite K by discriminate. reflexivity.
Defined.

(** X12 at the configuration of the samples, which lists
    [evm.legacyAssembly] and [*] already. *)
Lemma appended_selection_witness :
  exists out,
    Run.solcInput = Sample.stringify out
    /\ path_get (selectionOf "*" "*") (Some out)
       = Returned
           (Some (JArr [JStr "evm.legacyAssembly"; JStr "*";
                        JStr "evm.legacyAssembly"])).
Proof.
  refine (getSolcConfig_appends_legacyAssembly
            Sample.stringify Sample.input Run.solcInput
            (Some (Sample.selection ["evm.legacyAssembly"; "*"]))
            [("*", JObj [("*", JArr [JStr "evm.legacyAssembly"; JStr "*"])])]
            "*" "*" [JStr "evm.legacyAssembly"; JStr "*"]
            sample_solcInput eq_refl eq_refl _).
  exists (JObj [("*", JArr [JStr "evm.legacyAssembly"; JStr "*"])]),
         [("*", JArr [JStr "evm.legacyAssembly"; JStr "*"])].
  split; [now left |]. split; [reflexivity |]. split; [now left |].
  split; repeat constructor; intros [].
Defined.

(** X13: a number among the names selected. *)
Lemma non_string_selection_witness :
  More.compile More.numbered Sample.batch None = ([], Threw TypeError).
Proof.
  refine (proj2 (non_string_selection_throws
                   unit (fun _ _ => Sample.stringify Sample.batch)
                   (Sample.parse [More.numbered; Sample.batch])
                   Sample.stringify Sample.isValidHexAddress Sample.hexStrToBuf
                   Sample.inherited unit jsval tt (fun address => address)
                   (fun _ _ => Sample.picky) None
                   (Sample.stringify More.numbered) None More.numbered
                   (JNum 1) eq_refl eq_refl _ eq_refl)).
  right. left. reflexivity.
Defined.

(** X14 at the configuration of the samples. *)
Lemma reaches_solc_witness :
  exists solcConfig calls,
    getSolcConfig Sample.stringify Sample.input = Returned solcConfig
    /\ fst (Run.compile (Sample.stringify Sample.input) None)
       = SolcCompile solcConfig :: calls.
Proof.
  refine (well_formed_configuration_reaches_solc
            unit Sample.solc_compile Sample.JSON_parse Sample.stringify
            Sample.isValidHexAddress Sample.hexStrToBuf Sample.inherited
            unit jsval tt (fun address => address)
            (fun _ _ => Sample.picky) None
            (Sample.stringify Sample.input) None Sample.input
            eq_refl sample_well_formed _).
  repeat constructor.
Defined.

(** X15 at a contract without constructor bytecode. *)
Lemma one_sided_witness :
  transpileContract Sample.hexStrToBuf Sample.picky
                    (Sample.contract "" "60" "a165") "l.sol" "Lib"
  = ([TranspileRawBytecode [x60]%byte],
     Returned {| bytecode := Some (JStr "");
                 deployedBytecode := Some (JStr "0x60");
                 errors := None |}).
Proof.
  refine (eq_trans
            (proj1 (one_sided_contract_is_transpiled_on_one_side
                      Sample.hexStrToBuf Sample.picky
                      (Sample.contract "" "60" "a165") "l.sol" "Lib"
                      "a165" "" "60" eq_refl eq_refl eq_refl) eq_refl _) _).
  - discriminate.
  - vm_compute. reflexivity.
Defined.

Lemma interface_returned :
  More.compile Sample.input More.interface None
  = (fst (More.compile Sample.input More.interface None),
     Returned (More.returned Sample.input More.interface None)).
Proof. vm_compute. reflexivity. Qed.

(** X16 at an interface. *)
Lemma without_code_witness :
  exists out,
    More.returned Sample.input More.interface None = Sample.stringify out
    /\ path_get (field "i.sol" "I" "bytecode") (Some out)
       = Returned (Some (JStr ""))
    /\ path_get (field "i.sol" "I" "deployedBytecode") (Some out)
       = Returned (Some (JStr "")).
Proof.
  refine (proj2 (contract_without_code_is_passed_through
                   unit (fun _ _ => Sample.stringify More.interface)
                   (Sample.parse [Sample.input; More.interface])
                   Sample.stringify Sample.isValidHexAddress Sample.hexStrToBuf
                   Sample.inherited unit jsval tt (fun address => address)
                   (fun _ _ => Sample.picky) None
                   (Sample.stringify Sample.input) None Sample.input
                   (More.solcInput Sample.input) More.interface
                   (More.files More.interface) _
                   (More.returned Sample.input More.interface None)
                   "i.sol" "I"
                   (JObj [("evm",
                           JObj [("bytecode", JObj [("object", JStr "")]);
                                 ("deployedBytecode",
                                  JObj [("object", JStr "")])])])
                   interface_transpiling interface_returned _
                   eq_refl eq_refl eq_refl eq_refl)).
  eexists. eexists. split; [left; reflexivity |]. split; [reflexivity |].
  split; [left; reflexivity |].
  split; repeat constructor; intros [].
Defined.

(** X17: the auxdata occurs in the middle of the bytecode, and at its
    end. *)
Lemma cuts_at_first_auxdata_witness :
  getBytecode (Sample.contract "60a16500" "60" "a165") false
  = Returned (Some (JStr "60")).
Proof.
  refine (proj2 (getBytecode_cuts_at_the_first_auxdata
                   (Sample.contract "60a16500" "60" "a165") false
                   "60a16500a165" "a165" eq_refl eq_refl _)
                "60" "00a165" eq_refl _).
  - discriminate.
  - intros pre post H.
    do 2 (destruct pre as [| ? pre]; [cbn in H; discriminate H |]).
    cbn. lia.
Defined.

(** X18: the selection is made for [a.sol], and solc returns the
    contracts of [b.sol] as well. *)
Lemma uncovered_file_witness :
  outputConfigFor Sample.inherited More.oneFile "b.sol" "Third"
  = Threw TypeError
  /\ formatOutput Sample.stringify Sample.inherited Sample.batch More.oneFile
     <> Returned (Sample.stringify Sample.batch).
Proof.
  destruct (formatOutput_needs_a_selection_for_every_file
              Sample.stringify Sample.inherited Sample.batch More.oneFile
              _ Run.files "b.sol" _ _ "Third"
              (Sample.contract "6003" "60ff" "a165")
              [("a.sol", JObj [("*", JArr [JStr "abi"])])]
              eq_refl eq_refl (or_intror (or_introl eq_refl)) eq_refl
              (or_introl eq_refl) eq_refl eq_refl eq_refl eq_refl eq_refl)
    as [O N].
  split; [exact O | apply N].
Defined.
